(** * Resilient acquisition layer of the mariom market-data dashboard

    A shallow embedding of the credential cache ([quotemedia-auth]), the
    retry loops and the halt-table parser ([api/halts], [api/process-symbol]),
    the endpoint probe ([api/market-data-api]) and the quote normalizers
    ([api/tmx-quotemedia-proxy]), with the properties the specification
    states about them.

    JavaScript strings are modelled by [string]: one [ascii] per UTF-16 code
    unit, which covers every string whose code units are below 256.
    JavaScript numbers are modelled by exact rationals extended with NaN and
    the infinities; millisecond timestamps and counters are integers. *)

From Stdlib Require Import ZArith QArith String Ascii List Bool Lia.
From stdpp Require Import gmap strings list pretty.

Local Open Scope string_scope.
Set Warnings "-register-all,-abstract-large-number".

(** ** JavaScript values and the built-ins the routes use *)

Module JS.

Inductive number : Type :=
  | NaN
  | Inf (negative : bool)
  | Fin (q : Q).

Inductive value : Type :=
  | Undefined
  | Null
  | Bool (b : bool)
  | Num (n : number)
  | Str (s : string)
  | Arr (items : list value)
  | Obj (fields : list (string * value)).

Definition zero : number := Fin 0.

Definition of_Z (z : Z) : number := Fin (inject_Z z).

Definition of_nat (n : nat) : number := of_Z (Z.of_nat n).

Definition is_empty (s : string) : bool :=
  match s with
  | EmptyString => true
  | String _ _ => false
  end.

(** ToBoolean *)
Definition truthy (v : value) : bool :=
  match v with
  | Undefined | Null => false
  | Bool b => b
  | Num NaN => false
  | Num (Inf _) => true
  | Num (Fin q) => negb (Qnum q =? 0)%Z
  | Str s => negb (is_empty s)
  | Arr _ | Obj _ => true
  end.

(** [a || b] *)
Definition or (a b : value) : value := if truthy a then a else b.

Fixpoint assoc (k : string) (fields : list (string * value)) : value :=
  match fields with
  | [] => Undefined
  | (k', v) :: rest => if String.eqb k k' then v else assoc k rest
  end.

(** [v.k] for the own properties of [v]; [None] is the TypeError raised on
    [undefined] and [null].  None of the keys the routes read is a property
    of a built-in prototype, apart from [length]. *)
Definition get (v : value) (k : string) : option value :=
  match v with
  | Undefined | Null => None
  | Obj fields => Some (assoc k fields)
  | Arr items =>
      Some (if String.eqb k "length" then Num (of_nat (List.length items)) else Undefined)
  | Str s =>
      Some (if String.eqb k "length" then Num (of_nat (String.length s)) else Undefined)
  | Bool _ | Num _ => Some Undefined
  end.

(** [v?.k] *)
Definition get_opt (v : value) (k : string) : value :=
  match get v k with
  | Some x => x
  | None => Undefined
  end.

Definition isArray (v : value) : bool :=
  match v with
  | Arr _ => true
  | _ => false
  end.

(** *** Strings *)

(** WhiteSpace and LineTerminator code units below 256. *)
Definition is_space (c : ascii) : bool :=
  let n := nat_of_ascii c in
  ((9 <=? n) && (n <=? 13) || (n =? 32) || (n =? 160))%nat.

Fixpoint trimStart (s : string) : string :=
  match s with
  | EmptyString => EmptyString
  | String c rest => if is_space c then trimStart rest else s
  end.

Fixpoint trimEnd (s : string) : string :=
  match s with
  | EmptyString => EmptyString
  | String c rest =>
      let rest' := trimEnd rest in
      if is_space c && is_empty rest' then EmptyString else String c rest'
  end.

Definition trim (s : string) : string := trimEnd (trimStart s).

Definition startsWith (s p : string) : bool := String.prefix p s.

(** [s.includes(p)] *)
Fixpoint includes (s p : string) : bool :=
  String.prefix p s ||
  match s with
  | EmptyString => false
  | String _ rest => includes rest p
  end.

(** [s.indexOf(c)] and [s.lastIndexOf(c)] for a one-character [c]; [None]
    is -1. *)
Fixpoint indexOf (c : ascii) (s : string) : option nat :=
  match s with
  | EmptyString => None
  | String x rest => if Ascii.eqb x c then Some O else option_map S (indexOf c rest)
  end.

Fixpoint lastIndexOf (c : ascii) (s : string) : option nat :=
  match s with
  | EmptyString => None
  | String x rest =>
      match lastIndexOf c rest with
      | Some i => Some (S i)
      | None => if Ascii.eqb x c then Some O else None
      end
  end.

(** [s.substring(from, to)] for [from <= to] *)
Definition substring (from to : nat) (s : string) : string :=
  String.substring from (to - from) s.

(** [s.padStart(2, '0')] *)
Definition padStart2 (s : string) : string :=
  match s with
  | EmptyString => "00"
  | String c EmptyString => String "0" s
  | _ => s
  end.

(** *** Numbers *)

Definition digit (radix : N) (c : ascii) : option N :=
  let n := N_of_ascii c in
  let d :=
    if (48 <=? n)%N && (n <=? 57)%N then Some (n - 48)%N
    else if (97 <=? n)%N && (n <=? 122)%N then Some (n - 87)%N
    else if (65 <=? n)%N && (n <=? 90)%N then Some (n - 55)%N
    else None in
  match d with
  | Some k => if (k <? radix)%N then Some k else None
  | None => None
  end.

(** Longest prefix of digits in [radix]: its value, its length, the rest. *)
Fixpoint digits (radix : N) (s : string) (acc : N) (len : nat) : N * nat * string :=
  match s with
  | EmptyString => (acc, len, s)
  | String c rest =>
      match digit radix c with
      | Some d => digits radix rest (acc * radix + d)%N (S len)
      | None => (acc, len, s)
      end
  end.

Definition sign (s : string) : bool * string :=
  match s with
  | String "-" rest => (true, rest)
  | String "+" rest => (false, rest)
  | _ => (false, s)
  end.

Definition signed (negative : bool) (n : N) : Z :=
  if negative then (- Z.of_N n)%Z else Z.of_N n.

(** [parseInt(s)] with no radix argument. *)
Definition parseInt_string (s : string) : number :=
  let '(negative, body) := sign (trimStart s) in
  let '(radix, body) :=
    match body with
    | String "0" (String "x" rest) | String "0" (String "X" rest) => (16%N, rest)
    | _ => (10%N, body)
    end in
  let '(n, len, _) := digits radix body 0%N 0 in
  match len with
  | O => NaN
  | S _ => of_Z (signed negative n)
  end.

(** The rational [m * 10 ^ e]. *)
Definition scale10 (m e : Z) : Q :=
  if (0 <=? e)%Z then inject_Z (m * 10 ^ e) else Qmake m (Z.to_pos (10 ^ (- e))).

(** [parseFloat(s)]: the longest prefix that is a StrDecimalLiteral, read as
    the rational it denotes.  JavaScript rounds that rational to the nearest
    double, and to an infinity beyond the largest one; numbers are exact
    rationals here, so the result is the value of the literal itself. *)
Definition parseFloat_string (s : string) : number :=
  let '(negative, body) := sign (trimStart s) in
  if String.prefix "Infinity" body then Inf negative
  else
    let '(i, ilen, r1) := digits 10 body 0%N 0 in
    let '(f, flen, r2) :=
      match r1 with
      | String "." rest => digits 10 rest i 0
      | _ => (i, 0%nat, r1)
      end in
    let e :=
      match r2 with
      | String "e" rest | String "E" rest =>
          let '(eneg, r3) := sign rest in
          let '(x, xlen, _) := digits 10 r3 0%N 0 in
          match xlen with
          | O => 0%Z
          | S _ => signed eneg x
          end
      | _ => 0%Z
      end in
    match (ilen + flen)%nat with
    | O => NaN
    | S _ => Fin (scale10 (signed negative f) (e - Z.of_nat flen))
    end.

(** Truncation toward zero. *)
Definition truncate (q : Q) : Z := Z.quot (Qnum q) (Zpos (Qden q)).

(** *** Exceptions *)

Record error : Type := mkError { name : string; message : string }.

(** [new Error(message)] *)
Definition Error (message : string) : error := mkError "Error" message.

(** The TypeError of a property read on [undefined] or [null]. *)
Definition TypeError (v : value) (k : string) : error :=
  mkError "TypeError"
    ("Cannot read properties of " ++
     match v with Null => "null" | _ => "undefined" end ++
     " (reading '" ++ k ++ "')").

(** How a call completes: normally, or by throwing. *)
Inductive outcome (A : Type) : Type :=
  | Returned (a : A)
  | Thrown (e : error).

Arguments Returned {A} a.
Arguments Thrown {A} e.

Definition get_or_throw (v : value) (k : string) : outcome value :=
  match get v k with
  | Some x => Returned x
  | None => Thrown (TypeError v k)
  end.

Definition bind {A B : Type} (m : outcome A) (f : A -> outcome B) : outcome B :=
  match m with
  | Returned a => f a
  | Thrown e => Thrown e
  end.

(** *** Conversion to a string

    ToString, on the values [JSON.parse] gives.  An object converts through
    [Object.prototype.toString], unless it has an own property named
    [toString]: that property is no function, [valueOf] gives the object
    back, and the conversion throws.  An array joins the conversions of its
    items with commas, [null] and [undefined] giving the empty string. *)

Definition CANNOT_CONVERT : error :=
  mkError "TypeError" "Cannot convert object to primitive value".

Definition has_own (k : string) (fields : list (string * value)) : bool :=
  existsb (fun kv => String.eqb (fst kv) k) fields.

(** The values whose conversion does not throw. *)
Fixpoint printable (v : value) : bool :=
  match v with
  | Obj fields => negb (has_own "toString" fields)
  | Arr items => forallb printable items
  | _ => true
  end.

(** A finite number prints in positional notation when it is 0 or its
    magnitude is at least 1e-6 and below 1e21, and with an exponent
    otherwise. *)
Definition positional (q : Q) : bool :=
  let n := Z.abs (Qnum q) in
  let d := Zpos (Qden q) in
  ((n =? 0) || (d <=? n * 10 ^ 6) && (n <? 10 ^ 21 * d))%Z.

Section Conversion.

(** Number::toString, the shortest decimal that reads back as the number. *)
Variable show : number -> string.

Fixpoint toString (v : value) : outcome string :=
  match v with
  | Undefined => Returned "undefined"
  | Null => Returned "null"
  | Bool true => Returned "true"
  | Bool false => Returned "false"
  | Num n => Returned (show n)
  | Str s => Returned s
  | Arr items =>
      (fix join (items : list value) : outcome string :=
         match items with
         | [] => Returned EmptyString
         | x :: rest =>
             match match x with
                   | Undefined | Null => Returned EmptyString
                   | _ => toString x
                   end with
             | Thrown e => Thrown e
             | Returned s =>
                 match rest with
                 | [] => Returned s
                 | _ :: _ =>
                     match join rest with
                     | Thrown e => Thrown e
                     | Returned t => Returned (s ++ "," ++ t)
                     end
                 end
             end
         end) items
  | Obj fields =>
      if has_own "toString" fields then Thrown CANNOT_CONVERT
      else Returned "[object Object]"
  end.

(** [parseFloat(v)]: the argument is converted to a string, and the string
    read.  A number prints to a literal that reads back as itself. *)
Definition parseFloat (v : value) : outcome number :=
  match v with
  | Num n => Returned n
  | _ => bind (toString v) (fun s => Returned (parseFloat_string s))
  end.

(** [parseInt(v)].  Of a number printed in positional notation the digits
    before the point are read, which is truncation; of one printed with an
    exponent, the digits before the point or the exponent.  [NaN] and the
    infinities print as words. *)
Definition parseInt (v : value) : outcome number :=
  match v with
  | Num (Fin q) =>
      Returned (if positional q then of_Z (truncate q) else parseInt_string (show (Fin q)))
  | Num _ => Returned NaN
  | _ => bind (toString v) (fun s => Returned (parseInt_string s))
  end.

End Conversion.

End JS.

Example parseFloat_decimal show :
  JS.parseFloat show (JS.Str " 258.06abc") = JS.Returned (JS.Fin 258.06).
Proof. reflexivity. Qed.

Example parseFloat_exponent show :
  JS.parseFloat show (JS.Str "-1.5e2") = JS.Returned (JS.Fin (-150)).
Proof. reflexivity. Qed.

Example parseInt_hex show : JS.parseInt show (JS.Str "0x1f") = JS.Returned (JS.Fin 31).
Proof. reflexivity. Qed.

Example parseInt_prefix show :
  JS.parseInt show (JS.Str "  -42px") = JS.Returned (JS.Fin (-42)).
Proof. reflexivity. Qed.

Example parseInt_truncates show :
  JS.parseInt show (JS.Num (JS.Fin (-7.9))) = JS.Returned (JS.Fin (-7)).
Proof. reflexivity. Qed.

Example parseInt_exponent :
  JS.parseInt (fun _ => "5e-7") (JS.Num (JS.Fin (5 / 10000000))) = JS.Returned (JS.Fin 5) /\
  JS.parseInt (fun _ => "1e+21") (JS.Num (JS.Fin 1000000000000000000000)) =
    JS.Returned (JS.Fin 1).
Proof. split; reflexivity. Qed.

Example parseFloat_array show :
  JS.parseFloat show (JS.Arr [JS.Str "12.5"; JS.Null; JS.Bool true]) =
    JS.Returned (JS.Fin 12.5).
Proof. reflexivity. Qed.

Example parseInt_unconvertible show :
  JS.parseInt show (JS.Arr [JS.Str "1"; JS.Obj [("toString", JS.Num (JS.Fin 1))]]) =
    JS.Thrown JS.CANNOT_CONVERT.
Proof. reflexivity. Qed.

Example trim_both_ends : JS.trim "  a b  " = "a b".
Proof. reflexivity. Qed.

(** ** The credential cache: [getQuoteMediaSid], [generateDataToolToken] *)

Module QuoteMediaAuth.

Import JS.
Local Open Scope Z_scope.

(** [process.env] *)
Record env : Type := {
  QUOTEMEDIA_WEBMASTER_ID : option string;
  QUOTEMEDIA_USERNAME : option string;
  QUOTEMEDIA_PASSWORD : option string
}.

(** [process.env.X || fallback] *)
Definition env_or (x : option string) (fallback : string) : string :=
  match x with
  | Some s => if is_empty s then fallback else s
  | None => fallback
  end.

Record QuoteMediaAuthRequest : Type := {
  wmId : number;
  username : string;
  password : string
}.

(** The two requests of the module: the login, and the token request with
    its URL and the [sid] of its body. *)
Inductive request : Type :=
  | AuthRequest (authData : QuoteMediaAuthRequest)
  | TokenRequest (tokenUrl : string) (sid : value).

Record response : Type := {
  ok : bool;
  status : Z;
  statusText : string;
  json : outcome value
}.

(** The network: what each request is answered with, given the requests
    sent before it, and how long the answer takes. *)
Record network : Type := {
  respond : list request -> request -> outcome response;
  latency : list request -> request -> Z
}.

(** The module-level variables. *)
Record cache : Type := {
  cachedSid : value;
  sidExpiration : option Z;
  cachedDataToolToken : value;
  tokenExpiration : option Z
}.

Record world : Type := {
  module : cache;
  sent : list request;
  clock : Z
}.

Definition STATIC_TOKEN_HASH : string :=
  "32767a4633142b08e3315819e5eeef1af1be83bd7817e59926d246d7ba416430".

Definition SID_TTL : Z := 60 * 60 * 1000.
Definition TOKEN_TTL : Z := 30 * 60 * 1000.

(** [cached && expiration && Date.now() < expiration] *)
Definition live (cached : value) (expiration : option Z) (now : Z) : bool :=
  truthy cached &&
  match expiration with
  | Some e => negb (e =? 0) && (now <? e)
  | None => false
  end.

Definition set_module (w : world) (m : cache) : world :=
  {| module := m; sent := sent w; clock := clock w |}.

Definition clearCachedSid (w : world) : world :=
  set_module w
    {| cachedSid := Null; sidExpiration := None;
       cachedDataToolToken := cachedDataToolToken (module w);
       tokenExpiration := tokenExpiration (module w) |}.

Definition clearCachedToken (w : world) : world :=
  set_module w
    {| cachedSid := cachedSid (module w); sidExpiration := sidExpiration (module w);
       cachedDataToolToken := Null; tokenExpiration := None |}.

Section Calls.

Variable E : env.
Variable N : network.

(** [await fetch(...)]: the request goes out, the clock advances. *)
Definition fetch (r : request) (w : world) : outcome response * world :=
  (respond N (sent w) r,
   {| module := module w; sent := sent w ++ [r];
      clock := clock w + latency N (sent w) r |}).

Definition getQuoteMediaSid (w : world) : outcome value * world :=
  let m := module w in
  if live (cachedSid m) (sidExpiration m) (clock w) then (Returned (cachedSid m), w)
  else
    let authData :=
      {| wmId := parseInt_string (env_or (QUOTEMEDIA_WEBMASTER_ID E) "101020");
         username := env_or (QUOTEMEDIA_USERNAME E) EmptyString;
         password := env_or (QUOTEMEDIA_PASSWORD E) EmptyString |} in
    if is_empty (username authData) || is_empty (password authData) then
      (Thrown (Error "QuoteMedia credentials not found in environment variables"), w)
    else
      let '(res, w1) := fetch (AuthRequest authData) w in
      match res with
      | Thrown e => (Thrown e, w1)
      | Returned r =>
          if negb (ok r) then
            (Thrown (Error ("Authentication failed: " ++ pretty (status r) ++ " " ++
                            statusText r)), w1)
          else
            match json r with
            | Thrown e => (Thrown e, w1)
            | Returned data =>
                match get_or_throw data "sid" with
                | Thrown e => (Thrown e, w1)
                | Returned sessionId =>
                    if negb (truthy sessionId) then
                      (Thrown (Error "No session ID found in authentication response"), w1)
                    else
                      (Returned sessionId,
                       set_module w1
                         {| cachedSid := sessionId;
                            sidExpiration := Some (clock w1 + SID_TTL);
                            cachedDataToolToken := cachedDataToolToken (module w1);
                            tokenExpiration := tokenExpiration (module w1) |})
                end
            end
      end.

Definition generateDataToolToken (w : world) : outcome value * world :=
  let m := module w in
  if live (cachedDataToolToken m) (tokenExpiration m) (clock w) then
    (Returned (cachedDataToolToken m), w)
  else
    let '(res, w1) := getQuoteMediaSid w in
    match res with
    | Thrown e => (Thrown e, w1)
    | Returned sid =>
        let wmid := env_or (QUOTEMEDIA_WEBMASTER_ID E) "101020" in
        let tokenUrl :=
          "https://app.quotemedia.com/auth/g/authenticate/dataTool/v0/" ++ wmid ++
          "/" ++ STATIC_TOKEN_HASH in
        let '(res, w2) := fetch (TokenRequest tokenUrl sid) w1 in
        match res with
        | Thrown e => (Thrown e, w2)
        | Returned r =>
            if negb (ok r) then
              (Thrown (Error ("Token generation failed: " ++ pretty (status r) ++ " " ++
                              statusText r)), w2)
            else
              match json r with
              | Thrown e => (Thrown e, w2)
              | Returned data =>
                  match get_or_throw data "token" with
                  | Thrown e => (Thrown e, w2)
                  | Returned token =>
                      if negb (truthy token) then
                        (Thrown (Error "No token found in response"), w2)
                      else
                        (Returned token,
                         set_module w2
                           {| cachedSid := cachedSid (module w2);
                              sidExpiration := sidExpiration (module w2);
                              cachedDataToolToken := token;
                              tokenExpiration := Some (clock w2 + TOKEN_TTL) |})
                  end
              end
        end
    end.

(** *** Overlapping calls

    An async call runs without interruption up to its next [await].
    [getQuoteMediaSid] reads the cache before its first [await] (the fetch)
    and writes it after its last one, so a call is [Ready], then [Waiting] for
    the answer to the request it sent, then [Finished]. *)

Inductive call : Type :=
  | Ready
  | Waiting (r : request) (answer : outcome response)
  | Finished (result : outcome value).

(** From the entry of [getQuoteMediaSid] to its [await fetch(...)]: the call
    completes at once, or a request goes out and the call is suspended. *)
Definition begin (now : Z) (m : cache) (wire : list request) : call * list request :=
  if live (cachedSid m) (sidExpiration m) now then (Finished (Returned (cachedSid m)), wire)
  else
    let authData :=
      {| wmId := parseInt_string (env_or (QUOTEMEDIA_WEBMASTER_ID E) "101020");
         username := env_or (QUOTEMEDIA_USERNAME E) EmptyString;
         password := env_or (QUOTEMEDIA_PASSWORD E) EmptyString |} in
    if is_empty (username authData) || is_empty (password authData) then
      (Finished (Thrown (Error "QuoteMedia credentials not found in environment variables")),
       wire)
    else
      (Waiting (AuthRequest authData) (respond N wire (AuthRequest authData)),
       (wire ++ [AuthRequest authData])%list).

(** From the answer to the end of [getQuoteMediaSid]. *)
Definition resume (now : Z) (answer : outcome response) (m : cache) : outcome value * cache :=
  match answer with
  | Thrown e => (Thrown e, m)
  | Returned r =>
      if negb (ok r) then
        (Thrown (Error ("Authentication failed: " ++ pretty (status r) ++ " " ++
                        statusText r)), m)
      else
        match json r with
        | Thrown e => (Thrown e, m)
        | Returned data =>
            match get_or_throw data "sid" with
            | Thrown e => (Thrown e, m)
            | Returned sessionId =>
                if negb (truthy sessionId) then
                  (Thrown (Error "No session ID found in authentication response"), m)
                else
                  (Returned sessionId,
                   {| cachedSid := sessionId;
                      sidExpiration := Some (now + SID_TTL);
                      cachedDataToolToken := cachedDataToolToken m;
                      tokenExpiration := tokenExpiration m |})
            end
        end
  end.

Record system : Type := {
  store : cache;
  wire : list request;
  callers : list call
}.

(** Caller [i] runs its next segment at time [now]. *)
Definition step (i : nat) (now : Z) (s : system) : system :=
  match callers s !! i with
  | Some Ready =>
      let '(c, wire') := begin now (store s) (wire s) in
      {| store := store s; wire := wire'; callers := <[i:=c]> (callers s) |}
  | Some (Waiting _ answer) =>
      let '(res, m) := resume now answer (store s) in
      {| store := m; wire := wire s; callers := <[i:=Finished res]> (callers s) |}
  | _ => s
  end.

Definition run (schedule : list (nat * Z)) (s : system) : system :=
  fold_left (fun s ev => step (fst ev) (snd ev) s) schedule s.

(** A call that runs alone: both segments, one after the other. *)
Definition alone (w : world) : outcome value * world :=
  match begin (clock w) (module w) (sent w) with
  | (Waiting r answer, wire') =>
      let now := clock w + latency N (sent w) r in
      let '(res, m) := resume now answer (module w) in
      (res, {| module := m; sent := wire'; clock := now |})
  | (Finished res, _) => (res, w)
  | (Ready, _) => (Thrown (Error EmptyString), w)
  end.

(** The two credential kinds behind one interface. *)
Inductive kind : Type := SID | Token.

Definition get (k : kind) : world -> outcome value * world :=
  match k with
  | SID => getQuoteMediaSid
  | Token => generateDataToolToken
  end.

End Calls.

Definition cached (k : kind) (w : world) : value :=
  match k with
  | SID => cachedSid (module w)
  | Token => cachedDataToolToken (module w)
  end.

Definition expiration (k : kind) (w : world) : option Z :=
  match k with
  | SID => sidExpiration (module w)
  | Token => tokenExpiration (module w)
  end.

Definition invalidate (k : kind) : world -> world :=
  match k with
  | SID => clearCachedSid
  | Token => clearCachedToken
  end.

Definition minutes (n : Z) : Z := n * 60 * 1000.

(** The request that refreshes a credential of kind [k]. *)
Definition refreshes (k : kind) (r : request) : bool :=
  match k, r with
  | SID, AuthRequest _ => true
  | Token, TokenRequest _ _ => true
  | _, _ => false
  end.

Fixpoint refresh_count (k : kind) (requests : list request) : nat :=
  match requests with
  | [] => O
  | r :: rest => ((if refreshes k r then 1 else 0) + refresh_count k rest)%nat
  end.

(** Both [process.env] credentials are set. *)
Definition configured (E : env) : bool :=
  negb (is_empty (env_or (QUOTEMEDIA_USERNAME E) EmptyString) ||
        is_empty (env_or (QUOTEMEDIA_PASSWORD E) EmptyString)).

Definition login (E : env) : request :=
  AuthRequest
    {| wmId := parseInt_string (env_or (QUOTEMEDIA_WEBMASTER_ID E) "101020");
       username := env_or (QUOTEMEDIA_USERNAME E) EmptyString;
       password := env_or (QUOTEMEDIA_PASSWORD E) EmptyString |}.

(** Caller [i], [i+1], ... each run their first segment, at the given times. *)
Fixpoint starts (i : nat) (times : list Z) : list (nat * Z) :=
  match times with
  | [] => []
  | t :: rest => (i, t) :: starts (S i) rest
  end.

(** Single-flight, as a property of one run: the callers of the run share at
    most one refresh. *)
Definition single_flight (E : env) (N : network) (schedule : list (nat * Z)) (s : system) : Prop :=
  (List.length (wire (run E N schedule s)) <= List.length (wire s) + 1)%nat.

Definition cleared : cache :=
  {| cachedSid := Null; sidExpiration := None;
     cachedDataToolToken := Null; tokenExpiration := None |}.

Definition TTL (k : kind) : Z :=
  match k with
  | SID => SID_TTL
  | Token => TOKEN_TTL
  end.

(** The check at the top of both getters. *)
Definition hit (k : kind) (w : world) : bool :=
  live (cached k w) (expiration k w) (clock w).

(** What the module keeps true of its variables: a credential is [null] or a
    truthy value, an expiration is [null] or a positive time, and the clock
    reads a time after the epoch. *)
Definition slot_wf (v : value) (expires : option Z) : Prop :=
  (v = Null \/ truthy v = true) /\ (forall e, expires = Some e -> 0 < e).

Definition cache_wf (w : world) : Prop :=
  0 <= clock w /\
  slot_wf (cachedSid (module w)) (sidExpiration (module w)) /\
  slot_wf (cachedDataToolToken (module w)) (tokenExpiration (module w)).

Definition network_wf (N : network) : Prop :=
  forall history r, 0 <= latency N history r.

Definition initial (now : Z) : world :=
  {| module := {| cachedSid := Null; sidExpiration := None;
                  cachedDataToolToken := Null; tokenExpiration := None |};
     sent := [];
     clock := now |}.

Lemma initial_wf now : 0 <= now -> cache_wf (initial now).
Proof.
  intros Hnow. repeat split; simpl; auto; intros e He; discriminate.
Qed.

Lemma live_true v expires now :
  slot_wf v expires -> v <> Null ->
  forall e, expires = Some e -> now < e -> live v expires now = true.
Proof.
  intros [[Hnull | Htruthy] Hpos] Hv e He Hlt; [contradiction |].
  unfold live. rewrite Htruthy, He. simpl.
  specialize (Hpos e He).
  apply andb_true_intro. split.
  - apply negb_true_iff, Z.eqb_neq. lia.
  - apply Z.ltb_lt. exact Hlt.
Qed.

Lemma invalidate_wf k w : cache_wf w -> cache_wf (invalidate k w).
Proof.
  intros (Hclock & Hsid & Htoken).
  destruct k; (split; [exact Hclock |]); simpl; split; auto;
    split; auto; intros e He; discriminate.
Qed.

Ltac case_call :=
  match goal with
  | |- context [match ?x with _ => _ end] =>
      lazymatch x with
      | context [match _ with _ => _ end] => fail
      | _ => destruct x eqn:?
      end
  end.

Section Facts.

Variable E : env.
Variable N : network.

(** A refresh of the SID leaves the token slot alone, and whatever it returns
    is what it leaves in the SID slot. *)
Lemma getQuoteMediaSid_frame w :
  cachedDataToolToken (module (snd (getQuoteMediaSid E N w))) =
    cachedDataToolToken (module w) /\
  tokenExpiration (module (snd (getQuoteMediaSid E N w))) = tokenExpiration (module w).
Proof.
  unfold getQuoteMediaSid, fetch. repeat case_call; simpl; auto.
Qed.

Lemma getQuoteMediaSid_clock w :
  network_wf N -> clock w <= clock (snd (getQuoteMediaSid E N w)).
Proof.
  intros HN. unfold getQuoteMediaSid, fetch.
  repeat case_call; simpl; try lia; specialize (HN (sent w)); 
    match goal with |- context [latency N (sent w) ?r] => specialize (HN r) end; lia.
Qed.

Lemma getQuoteMediaSid_wf w :
  network_wf N -> cache_wf w -> cache_wf (snd (getQuoteMediaSid E N w)).
Proof.
  intros HN (Hclock & Hsid & Htoken).
  pose proof (getQuoteMediaSid_clock w HN) as Hmono.
  pose proof (getQuoteMediaSid_frame w) as [Hf1 Hf2].
  split; [lia |]. split; [| rewrite Hf1, Hf2; exact Htoken].
  revert Hmono. unfold getQuoteMediaSid, fetch.
  repeat case_call; simpl; auto; intros Hmono.
  split.
  - right. apply negb_false_iff. assumption.
  - intros e He. injection He as <-. unfold SID_TTL. lia.
Qed.

Lemma generateDataToolToken_wf w :
  network_wf N -> cache_wf w -> cache_wf (snd (generateDataToolToken E N w)).
Proof.
  intros HN Hw. unfold generateDataToolToken.
  pose proof (getQuoteMediaSid_wf w HN Hw) as Hw1.
  destruct (getQuoteMediaSid E N w) as [res w1]. simpl in Hw1.
  destruct Hw1 as (Hclock & Hsid & Htoken).
  assert (Hw2 : forall r, cache_wf (snd (fetch N r w1))).
  { intros r. unfold fetch. split; [| split; assumption].
    simpl. specialize (HN (sent w1) r). lia. }
  repeat case_call; simpl; auto;
    try (repeat split; try apply Hsid; try apply Htoken; assumption);
    match goal with
    | H : fetch N ?r w1 = (_, ?w2) |- _ =>
        specialize (Hw2 r); rewrite H in Hw2; simpl in Hw2;
        destruct Hw2 as (Hclock2 & Hsid2 & Htoken2)
    end; auto; try (repeat split; try apply Hsid2; try apply Htoken2; assumption).
  split; [assumption |]. split; [assumption |]. split.
  - right. apply negb_false_iff. assumption.
  - intros e He. injection He as <-. unfold TOKEN_TTL. lia.
Qed.

(** C1.  For both credential kinds: a getter called while a cached value
    exists and the clock is strictly before its expiration returns that
    value and leaves the world, and so the list of requests sent, as it was;
    a getter that misses and returns has stored what it returns, expiring
    one TTL after the time of the store, where the TTL is 60 minutes for the
    SID and 30 minutes for the token. *)
Theorem credential_cached_within_ttl (k : kind) (w : world) :
  cache_wf w ->
  (cached k w <> Null ->
   forall e, expiration k w = Some e -> clock w < e ->
   get E N k w = (Returned (cached k w), w)) /\
  (forall v w', hit k w = false -> get E N k w = (Returned v, w') ->
   cached k w' = v /\ expiration k w' = Some (clock w' + TTL k)) /\
  TTL SID = minutes 60 /\ TTL Token = minutes 30.
Proof.
  intros (Hclock & Hsid & Htoken). split; [| split; [| split; reflexivity]].
  - intros Hv e He Hlt.
    assert (Hlive : hit k w = true).
    { unfold hit. destruct k; eapply live_true; eauto. }
    unfold hit in Hlive.
    destruct k; simpl in *; unfold getQuoteMediaSid, generateDataToolToken;
      rewrite Hlive; reflexivity.
  - intros v w' Hmiss. unfold hit in Hmiss.
    destruct k; simpl in *; unfold generateDataToolToken, getQuoteMediaSid;
      rewrite Hmiss; repeat case_call; intros Hget; inversion Hget; subst;
      simpl; auto.
Qed.

(** C10.  Clearing the SID resets the SID and its expiration only: the token
    and its expiration stay, and while the token's own expiration has not
    passed [generateDataToolToken] still returns that token, sending
    nothing. *)
Theorem clearCachedSid_keeps_token (w : world) (e : Z) :
  cache_wf w ->
  cachedDataToolToken (module w) <> Null ->
  tokenExpiration (module w) = Some e ->
  clock w < e ->
  let w' := clearCachedSid w in
  cachedSid (module w') = Null /\
  sidExpiration (module w') = None /\
  cachedDataToolToken (module w') = cachedDataToolToken (module w) /\
  tokenExpiration (module w') = tokenExpiration (module w) /\
  generateDataToolToken E N w' = (Returned (cachedDataToolToken (module w)), w').
Proof.
  intros (Hclock & Hsid & Htoken) Hv He Hlt w'.
  repeat (split; [reflexivity |]).
  unfold generateDataToolToken. subst w'. simpl.
  rewrite (live_true _ _ _ Htoken Hv e He Hlt). reflexivity.
Qed.

(** The segments of the interleaving model are [getQuoteMediaSid] cut at its
    [await]. *)
Lemma getQuoteMediaSid_alone w : getQuoteMediaSid E N w = alone E N w.
Proof.
  unfold getQuoteMediaSid, alone, begin, resume, fetch, set_module.
  destruct w as [m wire0 now]. simpl.
  repeat case_call; simpl; try reflexivity; try congruence.
Qed.

Lemma refresh_count_app k l r :
  refresh_count k (l ++ [r]) =
    (refresh_count k l + (if refreshes k r then 1 else 0))%nat.
Proof.
  induction l as [| x l IH]; simpl; [lia | rewrite IH; lia].
Qed.

Lemma getQuoteMediaSid_sent w :
  sent (snd (getQuoteMediaSid E N w)) = sent w \/
  sent (snd (getQuoteMediaSid E N w)) = (sent w ++ [login E])%list.
Proof.
  unfold getQuoteMediaSid, fetch, login. repeat case_call; simpl; auto.
Qed.

(** While the SID is cleared, every caller that starts sends a login of its
    own. *)
Lemma starts_send_one_each times :
  forall i s,
    configured E = true ->
    cachedSid (store s) = Null ->
    (forall j, (i <= j < i + List.length times)%nat -> callers s !! j = Some Ready) ->
    wire (run E N (starts i times) s) =
      (wire s ++ replicate (List.length times) (login E))%list /\
    store (run E N (starts i times) s) = store s.
Proof.
  induction times as [| t times IH]; intros i s Hcfg Hnull Hready; simpl.
  - split; [symmetry; apply app_nil_r | reflexivity].
  - assert (Hstep : step E N i t s =
      {| store := store s; wire := (wire s ++ [login E])%list;
         callers := <[i:=Waiting (login E) (respond N (wire s) (login E))]> (callers s) |}).
    { unfold step. rewrite (Hready i) by (simpl; lia).
      unfold begin, live. rewrite Hnull. simpl.
      unfold configured in Hcfg. apply negb_true_iff in Hcfg. rewrite Hcfg.
      reflexivity. }
    unfold run in *. rewrite Hstep.
    destruct (IH (S i) {| store := store s; wire := (wire s ++ [login E])%list;
         callers := <[i:=Waiting (login E) (respond N (wire s) (login E))]> (callers s) |})
      as [Hwire Hstore]; auto.
    + intros j Hj. simpl. rewrite list_lookup_insert_ne by lia.
      apply Hready. simpl. lia.
    + rewrite Hwire, Hstore. simpl. rewrite <- app_assoc. auto.
Qed.

(** C9, as the code has it.  There is no single-flight: when [n] callers
    start [getQuoteMediaSid] while the SID is cleared, before any answer is
    processed, [n] logins are sent.  A getter of either kind that runs alone
    after its credential was invalidated sends exactly one refresh request of
    its kind (the credentials being configured and, for the token, the SID
    step returning). *)
Theorem refresh_once_when_alone (k : kind) (w : world) (times : list Z) :
  configured E = true ->
  (k = Token -> exists sid w1, getQuoteMediaSid E N (invalidate Token w) = (Returned sid, w1)) ->
  refresh_count k (sent (snd (get E N k (invalidate k w)))) = S (refresh_count k (sent w)) /\
  wire (run E N (starts 0 times)
          {| store := cleared; wire := sent w;
             callers := replicate (List.length times) Ready |}) =
    (sent w ++ replicate (List.length times) (login E))%list.
Proof.
  intros Hcfg Hsid. split.
  - destruct k; simpl.
    + unfold getQuoteMediaSid, fetch. simpl.
      unfold configured in Hcfg. apply negb_true_iff in Hcfg. rewrite Hcfg.
      fold (login E). repeat case_call; simpl; rewrite refresh_count_app; simpl; lia.
    + destruct (Hsid eq_refl) as (sid & w1 & Hget).
      pose proof (getQuoteMediaSid_sent (clearCachedToken w)) as Hsent.
      simpl in Hget. rewrite Hget in Hsent. simpl in Hsent.
      unfold generateDataToolToken. simpl. rewrite Hget.
      assert (Hcount : refresh_count Token (sent w1) = refresh_count Token (sent w)).
      { destruct Hsent as [-> | ->]; [reflexivity |].
        rewrite refresh_count_app. simpl. lia. }
      unfold fetch.
      repeat case_call; simpl; rewrite refresh_count_app, Hcount; simpl; lia.
  - apply starts_send_one_each; auto.
    intros j Hj. simpl. apply lookup_replicate_2. lia.
Qed.

End Facts.

(** A configured environment and a vendor that answers every login with the
    session [s1] and every token request with the token [t1], after 5 ms. *)
Definition demo_env : env :=
  {| QUOTEMEDIA_WEBMASTER_ID := None;
     QUOTEMEDIA_USERNAME := Some "user";
     QUOTEMEDIA_PASSWORD := Some "secret" |}.

Definition demo_network : network :=
  {| respond := fun _ r =>
       Returned {| ok := true; status := 200; statusText := "OK";
                   json := Returned (Obj [("sid", Str "s1"); ("token", Str "t1")]) |};
     latency := fun _ _ => 5 |}.

Definition demo_world : world :=
  snd (generateDataToolToken demo_env demo_network (initial 1000)).

Lemma demo_world_wf : cache_wf demo_world.
Proof.
  apply generateDataToolToken_wf.
  - intros history r. simpl. lia.
  - apply initial_wf. lia.
Defined.

Lemma credential_cached_within_ttl_witness :
  get demo_env demo_network Token demo_world = (Returned (Str "t1"), demo_world) /\
  expiration Token demo_world = Some (clock demo_world + minutes 30).
Proof.
  split.
  - apply (proj1 (credential_cached_within_ttl demo_env demo_network Token demo_world
                    demo_world_wf) ltac:(discriminate) 1801010);
      [reflexivity | vm_compute; reflexivity].
  - apply (proj1 (proj2 (credential_cached_within_ttl demo_env demo_network Token
                           (initial 1000) (initial_wf 1000 ltac:(lia))))
             (Str "t1") demo_world); reflexivity.
Defined.

Lemma clearCachedSid_keeps_token_witness :
  generateDataToolToken demo_env demo_network (clearCachedSid demo_world) =
    (Returned (Str "t1"), clearCachedSid demo_world).
Proof.
  apply (clearCachedSid_keeps_token demo_env demo_network demo_world 1801010
           demo_world_wf ltac:(discriminate) eq_refl ltac:(vm_compute; reflexivity)).
Defined.

(** Two callers start while the SID is cleared; both answers arrive later. *)
Definition two_callers : system :=
  {| store := cleared; wire := []; callers := [Ready; Ready] |}.

Definition overlapping : list (nat * Z) :=
  [(0%nat, 1000); (1%nat, 1001); (0%nat, 1005); (1%nat, 1006)].

Lemma overlapping_gets_refresh_twice :
  ~ single_flight demo_env demo_network overlapping two_callers.
Proof.
  unfold single_flight. vm_compute. intros Hle. lia.
Qed.

Lemma refresh_once_when_alone_witness :
  refresh_count Token
    (sent (snd (get demo_env demo_network Token (invalidate Token demo_world)))) =
    S (refresh_count Token (sent demo_world)) /\
  wire (run demo_env demo_network (starts 0 [1000; 1001])
          {| store := cleared; wire := sent demo_world;
             callers := replicate 2 Ready |}) =
    (sent demo_world ++ replicate 2 (login demo_env))%list.
Proof.
  apply (refresh_once_when_alone demo_env demo_network Token demo_world [1000; 1001]).
  - reflexivity.
  - intros _. eexists. eexists. vm_compute. reflexivity.
Defined.

End QuoteMediaAuth.

(** ** The halt feed: [fetchNasdaqHalts], [parseNasdaqTable] *)

Module Halts.

Import JS.

(** *** The document cheerio works on

    Elements carry their tag name, as the HTML parser gives it (in lower
    case), and their children; the routes read no attribute. *)

Inductive node : Type :=
  | Text (data : string)
  | Element (tag : string) (children : list node).

(** The elements named [tag] among [n] and its descendants, in document
    order. *)
Fixpoint select (tag : string) (n : node) : list node :=
  match n with
  | Text _ => []
  | Element t children =>
      (if String.eqb t tag then [n] else []) ++ List.flat_map (select tag) children
  end.

(** [$(n).find(tag)]: the proper descendants of [n] named [tag]. *)
Definition find (tag : string) (n : node) : list node :=
  match n with
  | Text _ => []
  | Element _ children => List.flat_map (select tag) children
  end.

(** [$(n).text()]: the text nodes below [n], concatenated. *)
Fixpoint text (n : node) : string :=
  match n with
  | Text data => data
  | Element _ children => String.concat EmptyString (List.map text children)
  end.

(** [selection.text()] on several elements: their texts, concatenated. *)
Definition texts (selection : list node) : string :=
  String.concat EmptyString (List.map text selection).

(** [selection.children()]: the element children. *)
Definition children_of (n : node) : list node :=
  match n with
  | Text _ => []
  | Element _ children =>
      List.filter (fun c => match c with Element _ _ => true | Text _ => false end) children
  end.

Definition is_tag (tag : string) (n : node) : bool :=
  match n with
  | Element t _ => String.eqb t tag
  | Text _ => false
  end.

Definition first_some {A B : Type} (f : A -> option B) : list A -> option B :=
  fix go (l : list A) : option B :=
    match l with
    | [] => None
    | x :: rest =>
        match f x with
        | Some y => Some y
        | None => go rest
        end
    end.

(** The inner [searchTable] of [findTableElement], on the selection of one
    element; [None] is [null]. *)
Fixpoint searchTable (n : node) : option (list node) :=
  match n with
  | Text _ => None
  | Element t children =>
      if String.eqb t "table" then Some [n] else first_some searchTable children
  end.

(** [findTableElement($)]: the first table of the document or, failing that,
    the search from the selection of the [root] elements. *)
Definition findTableElement (document : node) : option (list node) :=
  match select "table" document with
  | table :: _ => Some [table]
  | [] =>
      let roots := select "root" document in
      if existsb (is_tag "table") roots then Some roots
      else first_some searchTable (List.flat_map children_of roots)
  end.

Record HaltData : Type := {
  symbol : string;
  haltDate : string;
  haltTime : string;
  issueName : string;
  market : string;
  reasonCodes : string;
  pauseThresholdPrice : string;
  resumptionDate : string;
  resumptionQuoteTime : string
}.

(** The local calendar fields of [new Date()]. *)
Record Date : Type := {
  getMonth : nat;
  getDate : nat;
  getFullYear : nat
}.

Definition todayFormatted (today : Date) : string :=
  padStart2 (pretty (getMonth today + 1)%nat) ++ "/" ++
  padStart2 (pretty (getDate today)) ++ "/" ++
  pretty (getFullYear today).

(** [reasons.join(", ")] *)
Fixpoint join (sep : string) (items : list string) : string :=
  match items with
  | [] => EmptyString
  | [x] => x
  | x :: rest => x ++ sep ++ join sep rest
  end.

(** The [divs.each] loop of the reason-code cell: one reason per [div] that
    holds anchors, when the trimmed text of its anchors is not empty. *)
Definition push_reason (reasons : list string) (div : node) : list string :=
  match find "a" div with
  | [] => reasons
  | a =>
      let reason := trim (texts a) in
      if is_empty reason then reasons else reasons ++ [reason]
  end.

Definition reasons_of (cell : node) : list string :=
  fold_left push_reason (find "div" cell) [].

(** What a cell stores in [rowData]: the trimmed text, except in column 5. *)
Definition cell_value (j : nat) (cell : node) : string :=
  let cellValue := trim (text cell) in
  if (j =? 5)%nat then
    match reasons_of cell with
    | [] => cellValue
    | reasons => join ", " reasons
    end
  else cellValue.

(** The row under construction: [rowData] and [isToday]. *)
Record row_state : Type := {
  rowData : gmap string string;
  isToday : bool
}.

(** The body of [cells.each((j, cell) => ...)]. *)
Definition visit_cell (headers : list string) (today : string)
    (st : row_state) (j : nat) (cell : node) : row_state :=
  match headers !! j with
  | None => st
  | Some headerName =>
      if is_empty headerName then st
      else
        let cellValue := trim (text cell) in
        {| rowData := <[headerName := cell_value j cell]> (rowData st);
           isToday :=
             if String.eqb headerName "Halt Date" && String.eqb cellValue today
             then true else isToday st |}
  end.

Fixpoint visit_cells (headers : list string) (today : string)
    (st : row_state) (j : nat) (cells : list node) : row_state :=
  match cells with
  | [] => st
  | cell :: rest => visit_cells headers today (visit_cell headers today st j cell) (S j) rest
  end.

(** [rowData[key] || "N/A"] *)
Definition or_NA (field : option string) : string :=
  match field with
  | Some s => if is_empty s then "N/A" else s
  | None => "N/A"
  end.

(** [rowData[key]] as a condition *)
Definition present (field : option string) : bool :=
  match field with
  | Some s => negb (is_empty s)
  | None => false
  end.

Definition to_halt (data : gmap string string) : HaltData :=
  {| symbol := or_NA (data !! "Issue Symbol");
     haltDate := or_NA (data !! "Halt Date");
     haltTime := or_NA (data !! "Halt Time");
     issueName := or_NA (data !! "Issue Name");
     market := or_NA (data !! "Market");
     reasonCodes := or_NA (data !! "Reason Codes");
     pauseThresholdPrice := or_NA (data !! "Pause Threshold Price");
     resumptionDate := or_NA (data !! "Resumption Date");
     resumptionQuoteTime := or_NA (data !! "Resumption Quote Time") |}.

(** One turn of the [for (let i = 1; ...)] loop. *)
Definition process_row (headers : list string) (today : string)
    (data : list HaltData) (row : node) : list HaltData :=
  match find "td" row with
  | [] => data
  | cells =>
      let st := visit_cells headers today {| rowData := ∅; isToday := false |} 0 cells in
      if isToday st && present (rowData st !! "Issue Symbol")
      then data ++ [to_halt (rowData st)]
      else data
  end.

(** [parseNasdaqTable], on the document [cheerio.load] gives for the
    wrapped fragment. *)
Definition parseNasdaqTable (today : Date) (document : node) : list HaltData :=
  match findTableElement document with
  | None | Some [] => []
  | Some table =>
      match List.flat_map (find "tr") table with
      | [] => []
      | first :: rows =>
          let headers := List.map (fun th => trim (text th)) (find "th" first) in
          fold_left (process_row headers (todayFormatted today)) rows []
      end
  end.

(** *** The parser, row by row

    What the loops compute, said without the loops: a row is kept when some
    cell under a header named Halt Date reads today's date and the row has a
    symbol; a field of the row is what the last cell under its header
    stores. *)

Fixpoint field (name : string) (headers : list string) (j : nat) (cells : list node)
    : option string :=
  match headers, cells with
  | h :: headers', cell :: cells' =>
      match field name headers' (S j) cells' with
      | Some v => Some v
      | None => if String.eqb h name then Some (cell_value j cell) else None
      end
  | _, _ => None
  end.

Definition dated (today : string) (headers : list string) (cells : list node) : bool :=
  existsb
    (fun hc => String.eqb (fst hc) "Halt Date" && String.eqb (trim (text (snd hc))) today)
    (combine headers cells).

Definition retained (today : string) (headers : list string) (row : node) : bool :=
  dated today headers (find "td" row) &&
  present (field "Issue Symbol" headers 0 (find "td" row)).

(** The header names and the data rows of the document's table, when it has
    a table with rows. *)
Definition table_rows (document : node) : option (list string * list node) :=
  match findTableElement document with
  | None | Some [] => None
  | Some table =>
      match List.flat_map (find "tr") table with
      | [] => None
      | first :: rows => Some (List.map (fun th => trim (text th)) (find "th" first), rows)
      end
  end.

Definition halt_of (headers : list string) (row : node) : HaltData :=
  let cells := find "td" row in
  {| symbol := or_NA (field "Issue Symbol" headers 0 cells);
     haltDate := or_NA (field "Halt Date" headers 0 cells);
     haltTime := or_NA (field "Halt Time" headers 0 cells);
     issueName := or_NA (field "Issue Name" headers 0 cells);
     market := or_NA (field "Market" headers 0 cells);
     reasonCodes := or_NA (field "Reason Codes" headers 0 cells);
     pauseThresholdPrice := or_NA (field "Pause Threshold Price" headers 0 cells);
     resumptionDate := or_NA (field "Resumption Date" headers 0 cells);
     resumptionQuoteTime := or_NA (field "Resumption Quote Time" headers 0 cells) |}.

Lemma visit_cells_isToday headers today cells :
  forall j st,
    isToday (visit_cells headers today st j cells) =
      isToday st || dated today (drop j headers) cells.
Proof.
  induction cells as [| cell cells IH]; intros j st; simpl.
  - unfold dated. destruct (drop j headers); simpl; rewrite orb_false_r; reflexivity.
  - rewrite IH. unfold visit_cell.
    destruct (headers !! j) as [h |] eqn:Hj.
    + rewrite (drop_S _ _ _ Hj). unfold dated. simpl.
      destruct (is_empty h) eqn:Hh.
      * destruct h; [| discriminate]. simpl. reflexivity.
      * simpl. destruct (String.eqb h "Halt Date" && String.eqb (trim (text cell)) today);
          simpl; [rewrite orb_true_r |]; reflexivity.
    + apply lookup_ge_None in Hj.
      rewrite (drop_ge headers j) by exact Hj.
      rewrite (drop_ge headers (S j)) by lia. reflexivity.
Qed.

Lemma visit_cells_rowData headers today name cells :
  is_empty name = false ->
  forall j st,
    rowData (visit_cells headers today st j cells) !! name =
      match field name (drop j headers) j cells with
      | Some v => Some v
      | None => rowData st !! name
      end.
Proof.
  intros Hname.
  induction cells as [| cell cells IH]; intros j st; simpl.
  - destruct (drop j headers); reflexivity.
  - rewrite IH. unfold visit_cell.
    destruct (headers !! j) as [h |] eqn:Hj.
    + rewrite (drop_S _ _ _ Hj). simpl.
      destruct (field name (drop (S j) headers) (S j) cells) as [v |]; [reflexivity |].
      destruct (String.eqb_spec h name) as [-> | Hne].
      * rewrite Hname. simpl. apply lookup_insert_eq.
      * destruct (is_empty h); [reflexivity |]. simpl.
        apply lookup_insert_ne. exact Hne.
    + apply lookup_ge_None in Hj.
      rewrite (drop_ge headers j) by exact Hj.
      rewrite (drop_ge headers (S j)) by lia. reflexivity.
Qed.



(** The documents of the examples: the feed's header row, and a shorter one. *)
Definition th (name : string) : node := Element "th" [Text name].
Definition td (content : list node) : node := Element "td" content.
Definition anchor (label : string) : node := Element "div" [Element "a" [Text label]].

Definition page (rows : list node) : node :=
  Element "html"
    [Element "head" [];
     Element "body" [Element "root" [Element "div" [Element "table" [Element "tbody" rows]]]]].

Definition feed_headers : node :=
  Element "tr"
    [th "Halt Date"; th "Halt Time"; th "Issue Symbol"; th "Issue Name"; th "Market";
     th "Reason Codes"; th "Pause Threshold Price"; th "Resumption Date";
     th "Resumption Quote Time"; th "Resumption Trade Time"].

Definition feed_row (date sym : string) (reasons : list node) : node :=
  Element "tr"
    [td [Text date]; td [Text "09:30:00"]; td [Text sym]; td [Text "XYZ Corp"];
     td [Text "NASDAQ"]; td reasons; td []; td [Text date]; td [Text "09:35:00"];
     td [Text "09:40:00"]].


Definition nov3 : Date := {| getMonth := 10; getDate := 3; getFullYear := 2026 |}.

Lemma dated_spec today headers :
  forall cells,
    dated today headers cells = true <->
    exists j cell,
      headers !! j = Some "Halt Date" /\ cells !! j = Some cell /\
      trim (text cell) = today.
Proof.
  unfold dated.
  induction headers as [| h headers IH]; intros cells; simpl.
  - split; [discriminate | intros (j & cell & Hj & _); destruct j; discriminate].
  - destruct cells as [| c cells]; simpl.
    + split; [discriminate | intros (j & cell & _ & Hj & _); destruct j; discriminate].
    + rewrite orb_true_iff, andb_true_iff, IH. split.
      * intros [[Hh Hc] | (j & cell & Hj & Hcell & Htext)].
        -- apply String.eqb_eq in Hh, Hc. subst h.
           exists 0%nat, c. auto.
        -- exists (S j), cell. auto.
      * intros (j & cell & Hj & Hcell & Htext).
        destruct j as [| j]; simpl in *.
        -- left. injection Hj as ->. injection Hcell as ->.
           split; apply String.eqb_eq; auto.
        -- right. exists j, cell. auto.
Qed.

Lemma process_row_retained headers today data row :
  process_row headers today data row =
    (data ++ (if retained today headers row then [halt_of headers row] else []))%list.
Proof.
  unfold process_row, retained, halt_of.
  destruct (find "td" row) as [| cell cells] eqn:Hcells.
  - unfold dated. rewrite combine_nil. simpl. symmetry. apply app_nil_r.
  - rewrite visit_cells_isToday. simpl isToday. rewrite orb_false_l.
    assert (Hfield : forall name, is_empty name = false ->
      rowData (visit_cells headers today {| rowData := ∅; isToday := false |} 0
                 (cell :: cells)) !! name =
        field name headers 0 (cell :: cells)).
    { intros name Hname. rewrite (visit_cells_rowData _ _ _ _ Hname).
      simpl rowData. rewrite lookup_empty.
      change (drop 0 headers) with headers.
      destruct (field name headers 0 (cell :: cells)); reflexivity. }
    unfold to_halt. rewrite !Hfield by reflexivity.
    change (drop 0 headers) with headers.
    destruct (dated today headers (cell :: cells) &&
              present (field "Issue Symbol" headers 0 (cell :: cells)));
      [reflexivity | symmetry; apply app_nil_r].
Qed.

Lemma fold_process_row headers today rows :
  forall data,
    fold_left (process_row headers today) rows data =
      (data ++ List.map (halt_of headers) (List.filter (retained today headers) rows))%list.
Proof.
  induction rows as [| row rows IH]; intros data; simpl.
  - symmetry. apply app_nil_r.
  - rewrite IH, process_row_retained.
    destruct (retained today headers row); simpl.
    + rewrite <- app_assoc. reflexivity.
    + rewrite app_nil_r. reflexivity.
Qed.


Example parse_today_and_yesterday :
  parseNasdaqTable nov3
    (page [feed_headers;
           feed_row "11/02/2026" "OLD" [Text "T1"];
           feed_row "11/03/2026" "XYZ" [anchor "Volatility Pause"];
           feed_row "11/03/2026" " " [anchor "Volatility Pause"];
           feed_row "11/3/2026" "ABC" [Text "T1"];
           feed_row "11/04/2026" "NEW" [Text "T1"]]) =
    [{| symbol := "XYZ"; haltDate := "11/03/2026"; haltTime := "09:30:00";
        issueName := "XYZ Corp"; market := "NASDAQ"; reasonCodes := "Volatility Pause";
        pauseThresholdPrice := "N/A"; resumptionDate := "11/03/2026";
        resumptionQuoteTime := "09:35:00" |}].
Proof. vm_compute. reflexivity. Qed.

Example parse_without_table :
  parseNasdaqTable nov3 (Element "html" [Element "body" [Element "root" [Text "busy"]]]) = [].
Proof. reflexivity. Qed.

Lemma field_at name cell headers :
  forall cells j i,
    headers !! i = Some name -> cells !! i = Some cell ->
    (forall k, k <> i -> headers !! k <> Some name) ->
    field name headers j cells = Some (cell_value (j + i) cell).
Proof.
  induction headers as [| h headers IH]; intros cells j i Hh Hc Huniq.
  - destruct i; discriminate.
  - destruct cells as [| c cells]; [destruct i; discriminate |].
    simpl. destruct i as [| i]; simpl in *.
    + injection Hh as ->. injection Hc as ->.
      assert (Hnone : forall cs n, field name headers n cs = None).
      { assert (Hno : forall k, headers !! k <> Some name).
        { intros k. apply (Huniq (S k)). lia. }
        clear - Hno. induction headers as [| h' hs IH']; intros cs n; [reflexivity |].
        destruct cs as [| c' cs]; [reflexivity |]. simpl.
        rewrite IH' by (intros k; apply (Hno (S k))).
        destruct (String.eqb_spec h' name) as [-> | _]; [| reflexivity].
        exfalso. apply (Hno 0%nat). reflexivity. }
      rewrite Hnone, String.eqb_refl, Nat.add_0_r. reflexivity.
    + rewrite (IH cells (S j) i Hh Hc).
      * f_equal. f_equal. lia.
      * intros k Hk. apply (Huniq (S k)). lia.
Qed.





(** *** The date string

    For the dates of a four-digit year the string has the shape MM/DD/YYYY:
    two digits, two digits and four, which read back as the month counted
    from one, the day and the year. *)






Example todayFormatted_nov3 : todayFormatted nov3 = "11/03/2026".
Proof. reflexivity. Qed.

(** *** The fetch with its retries *)

Inductive event : Type :=
  | Attempt (attempt : nat) (timeoutMs : Z)
  | Sleep (ms : Z).

Record response : Type := {
  ok : bool;
  status : Z;
  statusText : string;
  body : outcome string
}.

(** How [await fetch(url, {signal})] settles: the abort timer fires first,
    the request fails, or a response arrives. *)
Inductive fetched : Type :=
  | Aborted
  | Failed (e : error)
  | Answered (r : response).

Definition AbortError : error := mkError "AbortError" "This operation was aborted".

Definition alnum_or_hash (c : ascii) : bool :=
  let n := nat_of_ascii c in
  ((48 <=? n) && (n <=? 57) || (65 <=? n) && (n <=? 90) || (97 <=? n) && (n <=? 122) ||
   (n =? 35))%nat.

(** The lookahead [[a-zA-Z0-9#]+;] *)
Fixpoint entity_rest (seen : bool) (s : string) : bool :=
  match s with
  | EmptyString => false
  | String c rest =>
      if alnum_or_hash c then entity_rest true rest
      else seen && Ascii.eqb c ";"
  end.

(** [html.replace(/&(?![a-zA-Z0-9#]+;)/g, '&amp;')] *)
Fixpoint escape_ampersands (html : string) : string :=
  match html with
  | EmptyString => EmptyString
  | String c rest =>
      if Ascii.eqb c "&" && negb (entity_rest false rest)
      then "&amp;" ++ escape_ampersands rest
      else String c (escape_ampersands rest)
  end.

Definition maxRetries : nat := 3.

(** What a loop of [maxRetries] attempts leaves behind when its attempts,
    from [attempt] on, all fail: every attempt, and after each but the last a
    sleep of [attempt] seconds. *)
Fixpoint exhausted (timeoutMs : Z) (maxRetries attempt remaining : nat) : list event :=
  match remaining with
  | O => []
  | S remaining' =>
      Attempt attempt timeoutMs ::
      (if (attempt <? maxRetries)%nat then [Sleep (Z.of_nat attempt * 1000)] else []) ++
      exhausted timeoutMs maxRetries (S attempt) remaining'
  end.

Section Fetch.

(** [JSON.parse] and [cheerio.load], which the route imports. *)
Variable JSON_parse : string -> outcome value.
Variable load : string -> node.

(** The answers of the feed, attempt by attempt, and the day. *)
Variable feed : nat -> fetched.
Variable today : Date.

(** [JSON.parse(responseText)], and on failure the text between the first
    opening and the last closing brace. *)
Definition parse_json (responseText : string) : outcome value :=
  match JSON_parse responseText with
  | Returned json => Returned json
  | Thrown parseError =>
      let cleanedText := trim responseText in
      match indexOf "{" cleanedText, lastIndexOf "}" cleanedText with
      | Some firstBrace, Some lastBrace =>
          if (firstBrace <? lastBrace)%nat
          then JSON_parse (substring firstBrace (lastBrace + 1) cleanedText)
          else Thrown (Error ("Invalid JSON response: " ++ message parseError))
      | _, _ => Thrown (Error ("Invalid JSON response: " ++ message parseError))
      end
  end.

(** The [try] block of one attempt. *)
Definition attempt_body (attempt : nat) : outcome (list HaltData) :=
  match feed attempt with
  | Aborted => Thrown AbortError
  | Failed e => Thrown e
  | Answered r =>
      if negb (ok r) then
        Thrown (Error ("HTTP " ++ pretty (status r) ++ ": " ++ statusText r))
      else
        match body r with
        | Thrown e => Thrown e
        | Returned responseText =>
            match parse_json responseText with
            | Thrown e => Thrown e
            | Returned json =>
                match get_or_throw json "result" with
                | Thrown e => Thrown e
                | Returned (Str html) =>
                    Returned
                      (parseNasdaqTable today
                         (load ("<root>" ++ escape_ampersands html ++ "</root>")))
                | Returned html =>
                    if truthy html then
                      Thrown (mkError "TypeError" "html.substring is not a function")
                    else
                      match html with
                      | Undefined | Null => Thrown (TypeError html "replace")
                      | _ => Thrown (mkError "TypeError" "html.replace is not a function")
                      end
                end
            end
        end
  end.

(** The [for (let attempt = 1; attempt <= maxRetries; attempt++)] loop, with
    [remaining] turns to go, and the [return []] after it. *)
Fixpoint attempts (remaining attempt : nat) (lastError : option error)
    (trace : list event) : outcome (list HaltData) * list event :=
  match remaining with
  | O => (Returned [], trace)
  | S remaining' =>
      let trace := (trace ++ [Attempt attempt 8000])%list in
      match attempt_body attempt with
      | Returned halts => (Returned halts, trace)
      | Thrown e =>
          let trace :=
            if (attempt <? maxRetries)%nat
            then (trace ++ [Sleep (Z.of_nat attempt * 1000)])%list else trace in
          attempts remaining' (S attempt) (Some e) trace
      end
  end.

Definition fetchNasdaqHalts : outcome (list HaltData) * list event :=
  attempts maxRetries 1 None [].

Lemma attempts_exhausted remaining :
  forall attempt lastError trace,
    (forall i, (attempt <= i < attempt + remaining)%nat ->
               exists e, attempt_body i = Thrown e) ->
    attempts remaining attempt lastError trace =
      (Returned [], (trace ++ exhausted 8000 maxRetries attempt remaining)%list).
Proof.
  induction remaining as [| remaining IH]; intros attempt lastError trace Hfail; simpl.
  - rewrite app_nil_r. reflexivity.
  - destruct (Hfail attempt) as [e He]; [lia |]. rewrite He.
    rewrite IH by (intros i Hi; apply Hfail; lia).
    f_equal. destruct (attempt <? maxRetries)%nat; simpl;
      repeat rewrite <- app_assoc; reflexivity.
Qed.

End Fetch.

End Halts.

(** ** The retry wrapper of the symbol route: [withRetry] *)

Module ProcessSymbol.

Import JS.
Export Halts(event, Attempt, Sleep).

(** How [Promise.race([fn(), timer])] settles in one attempt: [fn()]
    fulfils, [fn()] rejects, or the abort timer fires first. *)
Inductive settled (T : Type) : Type :=
  | Fulfilled (result : T)
  | Rejected (e : error)
  | TimedOut.

Arguments Fulfilled {T} result.
Arguments Rejected {T} e.
Arguments TimedOut {T}.

Definition race {T : Type} (s : settled T) : outcome T :=
  match s with
  | Fulfilled result => Returned result
  | Rejected e => Thrown e
  | TimedOut => Thrown (Error "Request timeout")
  end.

Section WithRetry.

Context {T : Type}.

(** [fn], by what its call settles to in each attempt.  The [symbol]
    argument only labels the log lines. *)
Variable fn : nat -> settled T.
Variable functionName : string.
Variable maxRetries : nat.
Variable timeoutMs : Z.

Fixpoint attempts (remaining attempt : nat) (lastError : option error)
    (trace : list event) : outcome T * list event :=
  match remaining with
  | O =>
      (Thrown
         (match lastError with
          | Some e => e
          | None =>
              Error (functionName ++ " failed after " ++ pretty maxRetries ++ " attempts")
          end),
       trace)
  | S remaining' =>
      let trace := (trace ++ [Attempt attempt timeoutMs])%list in
      match race (fn attempt) with
      | Returned result => (Returned result, trace)
      | Thrown e =>
          let trace :=
            if (attempt <? maxRetries)%nat
            then (trace ++ [Sleep (Z.of_nat attempt * 1000)])%list else trace in
          attempts remaining' (S attempt) (Some e) trace
      end
  end.

Definition withRetry : outcome T * list event :=
  attempts maxRetries 1 None [].

(** The error an attempt that is not fulfilled leaves in [lastError]. *)
Definition failure (s : settled T) : error :=
  match s with
  | Rejected e => e
  | _ => Error "Request timeout"
  end.

Fixpoint last_error (remaining attempt : nat) (lastError : option error) : option error :=
  match remaining with
  | O => lastError
  | S remaining' => last_error remaining' (S attempt) (Some (failure (fn attempt)))
  end.

Lemma withRetry_attempts_exhausted remaining :
  forall attempt lastError trace,
    (forall i, (attempt <= i < attempt + remaining)%nat ->
               forall result, fn i <> Fulfilled result) ->
    attempts remaining attempt lastError trace =
      (Thrown
         (match last_error remaining attempt lastError with
          | Some e => e
          | None =>
              Error (functionName ++ " failed after " ++ pretty maxRetries ++ " attempts")
          end),
       (trace ++ Halts.exhausted timeoutMs maxRetries attempt remaining)%list).
Proof.
  induction remaining as [| remaining IH]; intros attempt lastError trace Hfail; simpl.
  - rewrite app_nil_r. reflexivity.
  - destruct (fn attempt) as [result | e |] eqn:Hfn;
      [exfalso; apply (Hfail attempt ltac:(lia) result Hfn) | |]; simpl;
      (rewrite IH by (intros i Hi; apply Hfail; lia));
      f_equal; destruct (attempt <? maxRetries)%nat; simpl;
      repeat rewrite <- app_assoc; reflexivity.
Qed.

End WithRetry.

(** C4, as the code has it.  When the three attempts of a loop all fail, the
    loop makes exactly those three attempts, sleeps one second after the
    first and two after the second, and does not sleep after the third; then
    [withRetry] throws the error of the third attempt to its caller, which is
    the error Request timeout when that attempt timed out, and
    [fetchNasdaqHalts] drops the error and returns the empty list. *)
Theorem retries_exhausted {T : Type}
    (fn : nat -> settled T) (functionName : string) (timeoutMs : Z)
    (JSON_parse : string -> outcome value) (load : string -> Halts.node)
    (feed : nat -> Halts.fetched) (today : Halts.Date) :
  (forall i, (1 <= i <= 3)%nat -> forall result, fn i <> Fulfilled result) ->
  (forall i, (1 <= i <= 3)%nat ->
     exists e, Halts.attempt_body JSON_parse load feed today i = Thrown e) ->
  (exists e,
     race (fn 3%nat) = Thrown e /\
     (fn 3%nat = TimedOut -> e = Error "Request timeout") /\
     withRetry fn functionName 3 timeoutMs =
       (Thrown e,
        [Attempt 1 timeoutMs; Sleep 1000; Attempt 2 timeoutMs; Sleep 2000;
         Attempt 3 timeoutMs])) /\
  Halts.fetchNasdaqHalts JSON_parse load feed today =
    (Returned [],
     [Attempt 1 8000; Sleep 1000; Attempt 2 8000; Sleep 2000; Attempt 3 8000]).
Proof.
  intros Hfn Hfeed. split.
  - exists (failure (fn 3%nat)). split; [| split].
    + destruct (fn 3%nat) as [result | e |] eqn:H3; try reflexivity.
      exfalso. apply (Hfn 3%nat ltac:(lia) result H3).
    + intros ->. reflexivity.
    + unfold withRetry. rewrite withRetry_attempts_exhausted; [reflexivity |].
      intros i Hi. apply Hfn. lia.
  - unfold Halts.fetchNasdaqHalts.
    rewrite Halts.attempts_exhausted; [reflexivity |].
    intros i Hi. apply Hfeed. unfold Halts.maxRetries in Hi. lia.
Qed.

(** A function that always times out, and a feed whose every request is
    aborted; no response arrives, so nothing is parsed. *)
Definition always_times_out : nat -> settled unit := fun _ => TimedOut.
Definition always_aborted : nat -> Halts.fetched := fun _ => Halts.Aborted.
Definition unused_parse : string -> outcome value :=
  fun _ => Thrown (mkError "SyntaxError" "Unexpected end of JSON input").
Definition unused_load : string -> Halts.node := fun _ => Halts.Text EmptyString.

Lemma retries_exhausted_witness :
  fst (withRetry always_times_out "getPremarketLow" 3 10000) =
    Thrown (Error "Request timeout") /\
  Halts.fetchNasdaqHalts unused_parse unused_load always_aborted Halts.nov3 =
    (Returned [],
     [Attempt 1 8000; Sleep 1000; Attempt 2 8000; Sleep 2000; Attempt 3 8000]).
Proof.
  destruct (retries_exhausted always_times_out "getPremarketLow" 10000
              unused_parse unused_load always_aborted Halts.nov3) as [Hthrow Hhalts].
  - intros i _ result. discriminate.
  - intros i _. exists Halts.AbortError. reflexivity.
  - destruct Hthrow as (e & Hrace & Htimeout & Hwith).
    rewrite Hwith, (Htimeout eq_refl). split; [reflexivity | exact Hhalts].
Defined.

(** The claim reads: on exhaustion the error is returned, nothing is thrown.
    [withRetry] throws; [fetchNasdaqHalts] returns, but a list with no error
    in it. *)
Definition returns_without_throwing {T : Type} (completion : outcome T) : Prop :=
  exists v, completion = Returned v.

Lemma exhausted_withRetry_throws :
  ~ returns_without_throwing (fst (withRetry always_times_out "getPremarketLow" 3 10000)).
Proof.
  intros [v Hv]. discriminate Hv.
Qed.

End ProcessSymbol.

(** ** The endpoint probe of [api/market-data-api] *)

Module MarketDataApi.

Import JS.

(** A name between double quotes, as the bodies are searched for. *)
Definition quoted (fieldName : string) : string :=
  String "034" (fieldName ++ String "034" EmptyString).

Definition isMarketData (responseText : string) : bool :=
  includes responseText (quoted "price") ||
  includes responseText (quoted "last") ||
  includes responseText (quoted "bid") ||
  includes responseText (quoted "ask") ||
  includes responseText (quoted "volume") ||
  includes responseText (quoted "change") ||
  includes responseText (quoted "open") ||
  includes responseText (quoted "high") ||
  includes responseText (quoted "low").

(** The test that makes a response the answer of the probe. *)
Definition accepts (responseText : string) : bool :=
  isMarketData responseText &&
  (startsWith responseText "{" || startsWith responseText "[").

(** An entry of [apiEndpoints]. *)
Record config : Type := {
  url : string;
  method : string;
  headers : list (string * string);
  body : option (list (string * string))
}.

(** What [fetch(config.url, requestInit)] is called with. *)
Record request : Type := {
  request_url : string;
  request_method : string;
  request_headers : gmap string string;
  request_body : option (list (string * string))
}.

Record response : Type := {
  ok : bool;
  status : Z;
  statusText : string;
  text : outcome string
}.

Inductive fetched : Type :=
  | Failed (e : error)
  | Answered (r : response).

Definition USER_AGENT : string :=
  "Mozilla/5.0 (X11; Linux x86_64) AppleWebKit/537.36 (KHTML, like Gecko) Chrome/141.0.0.0 Safari/537.36".

(** The headers of a request: the user agent, then every header of the
    entry that has a value. *)
Definition merge_headers (entries : list (string * string)) : gmap string string :=
  fold_left
    (fun headers entry =>
       if is_empty (snd entry) then headers else <[fst entry := snd entry]> headers)
    entries
    {[ "User-Agent" := USER_AGENT ]}.

Definition request_of (c : config) : request :=
  {| request_url := url c;
     request_method := method c;
     request_headers := merge_headers (headers c);
     request_body := body c |}.

(** The answers of the route.  Of the JSON it returns, the fields that depend
    on the response: the rest repeats the query and the authentication. *)
Inductive answer : Type :=
  | MarketData (data quotes : value) (endpoint method : string)
  | RawMarketData (rawData : string) (endpoint method : string)
  | NoDirectAccess (testedEndpoints : nat).

Section Probe.

Variable JSON_parse : string -> outcome value.

(** The network: the answer to a request, given the requests before it. *)
Variable respond : list request -> request -> fetched.

(** [tmxSessionId], as the authentication step handed it over. *)
Variable tmxSessionId : value.

(** [data.quotes || data.data || data] *)
Definition quotes_of (data : value) : outcome value :=
  match get_or_throw data "quotes" with
  | Thrown e => Thrown e
  | Returned quotes =>
      if truthy quotes then Returned quotes
      else
        match get_or_throw data "data" with
        | Thrown e => Thrown e
        | Returned inner => Returned (or inner data)
        end
  end.

(** The two [return]s of an accepted response: the parsed form, and the raw
    form when parsing or reading the parsed value throws.  Both read
    [tmxSessionId.substring], which throws unless the session id is a
    string; [None] is that exception leaving the inner [try]. *)
Definition found (c : config) (responseText : string) : option answer :=
  match tmxSessionId with
  | Str _ =>
      Some
        match JSON_parse responseText with
        | Thrown _ => RawMarketData responseText (url c) (method c)
        | Returned data =>
            match quotes_of data with
            | Thrown _ => RawMarketData responseText (url c) (method c)
            | Returned quotes => MarketData data quotes (url c) (method c)
            end
        end
  | _ => None
  end.

(** One candidate: [None] when the loop goes on to the next one. *)
Definition try_endpoint (c : config) (sent : list request) : option answer :=
  match respond sent (request_of c) with
  | Failed _ => None
  | Answered r =>
      if ok r then
        match text r with
        | Thrown _ => None
        | Returned responseText =>
            if accepts responseText then found c responseText else None
        end
      else None
  end.

(** The [for] loop over the candidates still to try, and the answer after
    it. *)
Fixpoint probe_from (tested : nat) (candidates : list config) (sent : list request)
    : answer * list request :=
  match candidates with
  | [] => (NoDirectAccess tested, sent)
  | c :: rest =>
      let sent' := (sent ++ [request_of c])%list in
      match try_endpoint c sent with
      | Some a => (a, sent')
      | None => probe_from tested rest sent'
      end
  end.

Definition probe (apiEndpoints : list config) (sent : list request)
    : answer * list request :=
  probe_from (List.length apiEndpoints) apiEndpoints sent.

End Probe.

(** The text of a response that the probe accepts, if [c]'s is one. *)
Definition accepted_text (respond : list request -> request -> fetched)
    (c : config) (sent : list request) : option string :=
  match respond sent (request_of c) with
  | Answered r =>
      match text r with
      | Returned responseText =>
          if ok r && accepts responseText then Some responseText else None
      | Thrown _ => None
      end
  | Failed _ => None
  end.

(** The quoted names the probe looks for, and those the specification
    lists. *)
Definition market_fields : list string :=
  ["price"; "last"; "bid"; "ask"; "volume"; "change"; "open"; "high"; "low"].

Definition specified_fields : list string :=
  ["price"; "last"; "bid"; "ask"; "volume"; "change"; "quote"].

(** The predicate as the specification words it, [parses] telling whether
    the body parses as JSON. *)
Definition specified_accepts (parses : bool) (responseText : string) : bool :=
  (parses || startsWith responseText "{" || startsWith responseText "[") &&
  existsb (fun name => includes responseText (quoted name)) specified_fields.

(** The four candidates of the route. *)
Definition apiEndpoints (symbols wmid dataToolToken : string) : list config :=
  [ {| url := "https://appweb.quotestream.com/api/market/quotes?symbols=" ++ symbols;
       method := "GET";
       headers :=
         [("Accept", "application/json");
          ("Origin", "https://appweb.quotestream.com");
          ("Referer", "https://appweb.quotestream.com/#/?wmid=" ++ wmid ++
                      "&showLogout=false&lang=en")];
       body := None |};
    {| url := "https://app.quotemedia.com/datatool/getQuote.json";
       method := "POST";
       headers :=
         [("Content-Type", "application/x-www-form-urlencoded");
          ("Accept", "application/json");
          ("Origin", "https://tmxpowerstream.com");
          ("Referer", "https://tmxpowerstream.com/powerStreamWeb.php")];
       body := Some [("symbols", symbols); ("webmasterId", wmid);
                     ("datatool-token", dataToolToken)] |};
    {| url := "https://app.quotemedia.com/quotetools/getQuote.json";
       method := "POST";
       headers :=
         [("Content-Type", "application/x-www-form-urlencoded");
          ("Accept", "application/json")];
       body := Some [("symbols", symbols); ("webmasterId", wmid)] |};
    {| url := "https://appweb.quotestream.com/realtime/stream?symbols=" ++ symbols ++
              "&wmid=" ++ wmid;
       method := "GET";
       headers :=
         [("Accept", "text/event-stream, application/json");
          ("Cache-Control", "no-cache")];
       body := None |} ].

Ltac push_append :=
  repeat match goal with
    | |- context [String ?a ?x ++ ?y] =>
        change (String a x ++ y) with (String a (x ++ y))
    | |- context [EmptyString ++ ?y] => change (EmptyString ++ y) with y
    | H : context [String ?a ?x ++ ?y] |- _ =>
        change (String a x ++ y) with (String a (x ++ y)) in H
    | H : context [EmptyString ++ ?y] |- _ => change (EmptyString ++ y) with y in H
    end.

Lemma prefix_app p :
  forall s, String.prefix p s = true <-> exists rest, s = p ++ rest.
Proof.
  induction p as [| c p IH]; intros s; simpl.
  - split; [intros _; exists s; reflexivity | intros _; destruct s; reflexivity].
  - destruct s as [| c' s].
    + split; [discriminate | intros [rest Hrest]; discriminate].
    + simpl. destruct (Ascii.ascii_dec c c') as [-> | Hne].
      * rewrite IH. split; intros [rest Hrest]; exists rest; push_append; congruence.
      * split; [discriminate | intros [rest Hrest]; push_append; congruence].
Qed.

Lemma includes_app p :
  forall s, includes s p = true <-> exists before after, s = before ++ p ++ after.
Proof.
  induction s as [| c s IH]; cbn [includes]; rewrite orb_true_iff, prefix_app.
  - split.
    + intros [[rest ->] | Hfalse]; [| discriminate].
      exists EmptyString, rest. reflexivity.
    + intros (before & after & Heq). left. exists after.
      destruct before; push_append; [exact Heq | discriminate].
  - rewrite IH. split.
    + intros [[rest ->] | (before & after & ->)].
      * exists EmptyString, rest. reflexivity.
      * exists (String c before), after. reflexivity.
    + intros (before & after & Heq). destruct before as [| c' before]; push_append.
      * left. exists after. exact Heq.
      * right. exists before, after. congruence.
Qed.

(** C6, as the code has it.  A body is accepted when, and only when, it
    starts with an opening brace or bracket and holds, between double quotes,
    one of the names price, last, bid, ask, volume, change, open, high, low;
    whether it parses as JSON plays no part. *)
Theorem accepts_brace_and_quoted_field (responseText : string) :
  accepts responseText = true <->
  (exists name before after,
     In name market_fields /\
     responseText = before ++ quoted name ++ after) /\
  (exists rest, responseText = String "{" rest \/ responseText = String "[" rest).
Proof.
  unfold accepts, isMarketData, startsWith.
  rewrite andb_true_iff, !orb_true_iff, !includes_app, !prefix_app.
  split.
  - intros [Hfield Hstart]. split.
    + repeat (destruct Hfield as [Hfield | Hfield]);
        destruct Hfield as (before & after & Heq);
        eexists; exists before, after; (split; [| exact Heq]); simpl; tauto.
    + destruct Hstart as [[rest Heq] | [rest Heq]]; exists rest; auto.
  - intros [(name & before & after & Hin & Heq) [rest Hstart]]. split.
    + simpl in Hin.
      repeat (destruct Hin as [<- | Hin]; [eauto 12 |]). contradiction.
    + destruct Hstart as [Hstart | Hstart]; [left | right]; exists rest; exact Hstart.
Qed.

(** Bodies on which the code and the specified predicate part. *)
Definition names_quote : string := "{" ++ quoted "quote" ++ ":{}}".
Definition names_open : string := "{" ++ quoted "open" ++ ":1.5}".

Lemma accepts_not_as_specified :
  (accepts names_quote = false /\
   specified_accepts false names_quote = true /\
   specified_accepts true names_quote = true) /\
  (accepts names_open = true /\
   specified_accepts false names_open = false /\
   specified_accepts true names_open = false) /\
  (accepts (quoted "price") = false /\ specified_accepts true (quoted "price") = true).
Proof. repeat split; vm_compute; reflexivity. Qed.

Section ProbeFacts.

Variable JSON_parse : string -> outcome value.
Variable respond : list request -> request -> fetched.
Variable tmxSessionId : value.

Lemma try_endpoint_accepted c sent :
  try_endpoint JSON_parse respond tmxSessionId c sent =
    match accepted_text respond c sent with
    | Some responseText => found JSON_parse tmxSessionId c responseText
    | None => None
    end.
Proof.
  unfold try_endpoint, accepted_text.
  destruct (respond sent (request_of c)) as [e | r]; [reflexivity |].
  destruct (ok r), (text r) as [responseText | e]; simpl; try reflexivity.
  destruct (accepts responseText); reflexivity.
Qed.

Lemma probe_from_first_accepted tested before c after responseText a :
  forall sent,
    (forall i x, before !! i = Some x ->
       accepted_text respond x (sent ++ List.map request_of (take i before)) = None) ->
    accepted_text respond c (sent ++ List.map request_of before) = Some responseText ->
    found JSON_parse tmxSessionId c responseText = Some a ->
    probe_from JSON_parse respond tmxSessionId tested (before ++ c :: after) sent =
      (a, (sent ++ List.map request_of before ++ [request_of c])%list).
Proof.
  induction before as [| x before IH]; intros sent Hbefore Hc Hfound; simpl in *.
  - rewrite app_nil_r in Hc. rewrite try_endpoint_accepted, Hc, Hfound. reflexivity.
  - rewrite try_endpoint_accepted.
    pose proof (Hbefore 0%nat x eq_refl) as Hx. simpl in Hx.
    rewrite app_nil_r in Hx. rewrite Hx.
    rewrite (IH (sent ++ [request_of x])%list).
    + rewrite <- app_assoc. reflexivity.
    + intros i y Hy. specialize (Hbefore (S i) y Hy). simpl in Hbefore.
      rewrite <- app_assoc. exact Hbefore.
    + rewrite <- app_assoc. exact Hc.
    + exact Hfound.
Qed.

(** C5.  The probe sends the candidates in their order and stops at the
    first whose response it accepts: it answers with what that response
    holds, parsed or raw, under that candidate's URL, and the candidates
    after it are not requested.  The session id handed over by the
    authentication step is a string. *)
Theorem probe_returns_first_accepted
    (before after : list config) (c : config) (sent : list request)
    (sid responseText : string) :
  tmxSessionId = Str sid ->
  (forall i x, before !! i = Some x ->
     accepted_text respond x (sent ++ List.map request_of (take i before)) = None) ->
  accepted_text respond c (sent ++ List.map request_of before) = Some responseText ->
  exists a,
    probe JSON_parse respond tmxSessionId (before ++ c :: after) sent =
      (a, (sent ++ List.map request_of before ++ [request_of c])%list) /\
    ((exists data quotes,
        JSON_parse responseText = Returned data /\
        a = MarketData data quotes (url c) (method c)) \/
     a = RawMarketData responseText (url c) (method c)).
Proof.
  intros Hsid Hbefore Hc.
  assert (Hfound : exists a,
    found JSON_parse tmxSessionId c responseText = Some a /\
    ((exists data quotes,
        JSON_parse responseText = Returned data /\
        a = MarketData data quotes (url c) (method c)) \/
     a = RawMarketData responseText (url c) (method c))).
  { unfold found. rewrite Hsid.
    destruct (JSON_parse responseText) as [data | e]; [| eauto].
    destruct (quotes_of data) as [quotes | e]; eauto 8. }
  destruct Hfound as (a & Hfound & Ha).
  exists a. split; [| exact Ha].
  unfold probe. apply (probe_from_first_accepted _ _ _ _ responseText); assumption.
Qed.

End ProbeFacts.

(** The example of the specification, on the route's own candidates: the
    first fails, the second and the later ones would succeed. *)
Definition quote_body : string := "{" ++ quoted "price" ++ ":258.06}".

Definition example_network (sent : list request) (r : request) : fetched :=
  if String.prefix "https://appweb.quotestream.com/api" (request_url r)
  then Failed (mkError "TypeError" "fetch failed")
  else Answered {| ok := true; status := 200; statusText := "OK";
                   text := Returned quote_body |}.

Definition example_parse (responseText : string) : outcome value :=
  if String.eqb responseText quote_body
  then Returned (Obj [("price", Num (Fin 258.06))])
  else Thrown (mkError "SyntaxError" "Unexpected token").

Definition example_endpoints : list config := apiEndpoints "AAPL" "101020" "token".

Lemma probe_returns_first_accepted_witness :
  exists a,
    probe example_parse example_network (Str "session") example_endpoints [] =
      (a, List.map request_of (take 2 example_endpoints)) /\
    ((exists data quotes,
        example_parse quote_body = Returned data /\
        a = MarketData data quotes "https://app.quotemedia.com/datatool/getQuote.json" "POST") \/
     a = RawMarketData quote_body "https://app.quotemedia.com/datatool/getQuote.json" "POST").
Proof.
  apply (probe_returns_first_accepted example_parse example_network (Str "session")
           (take 1 example_endpoints) (drop 2 example_endpoints)
           {| url := "https://app.quotemedia.com/datatool/getQuote.json";
              method := "POST";
              headers :=
                [("Content-Type", "application/x-www-form-urlencoded");
                 ("Accept", "application/json");
                 ("Origin", "https://tmxpowerstream.com");
                 ("Referer", "https://tmxpowerstream.com/powerStreamWeb.php")];
              body := Some [("symbols", "AAPL"); ("webmasterId", "101020");
                            ("datatool-token", "token")] |}
           [] "session" quote_body).
  - reflexivity.
  - intros i x Hx. destruct i as [| i]; [| discriminate Hx].
    injection Hx as <-. reflexivity.
  - reflexivity.
Defined.

End MarketDataApi.

(** ** The regular expressions of the routes

    A backtracking matcher for the fragment the routes use: a pattern is a
    sequence of single characters (literals and classes), greedy and lazy
    stars over a class, and the parentheses of one capturing group. *)

Module RegExp.

Import JS.

Inductive item : Type :=
  | One (p : ascii -> bool)
  | Many (greedy : bool) (p : ascii -> bool)
  | Open
  | Close.

(** Where a match ends, and where its group opened and closed, each given by
    the text that remained there. *)
Record found : Type := {
  rest : string;
  opened : option string;
  closed : option string
}.

Fixpoint match_here (items : list item) (s : string) : option found :=
  match items with
  | [] => Some {| rest := s; opened := None; closed := None |}
  | One p :: items' =>
      match s with
      | String c s' => if p c then match_here items' s' else None
      | EmptyString => None
      end
  | Many true p :: items' =>
      (fix many (s : string) : option found :=
         match s with
         | String c s' =>
             if p c then
               match many s' with
               | Some m => Some m
               | None => match_here items' s
               end
             else match_here items' s
         | EmptyString => match_here items' s
         end) s
  | Many false p :: items' =>
      (fix many (s : string) : option found :=
         match match_here items' s with
         | Some m => Some m
         | None =>
             match s with
             | String c s' => if p c then many s' else None
             | EmptyString => None
             end
         end) s
  | Open :: items' =>
      match match_here items' s with
      | Some m => Some {| rest := rest m; opened := Some s; closed := closed m |}
      | None => None
      end
  | Close :: items' =>
      match match_here items' s with
      | Some m => Some {| rest := rest m; opened := opened m; closed := Some s |}
      | None => None
      end
  end.

(** The text of [s] before its suffix [tail]. *)
Definition before (s tail : string) : string :=
  String.substring 0 (String.length s - String.length tail) s.

Definition matched (s : string) (m : found) : string := before s (rest m).

Definition group (m : found) : string :=
  match opened m, closed m with
  | Some o, Some c => before o c
  | _, _ => EmptyString
  end.

(** [s.match(re)] without the [g] flag: the leftmost match, as its text and
    the text of its group. *)
Fixpoint exec (re : list item) (s : string) : option (string * string) :=
  match match_here re s with
  | Some m => Some (matched s m, group m)
  | None =>
      match s with
      | String _ s' => exec re s'
      | EmptyString => None
      end
  end.

(** [s.match(re)] with the [g] flag: the texts of all the matches, from
    left to right; [fuel] bounds the number of steps, one per character. *)
Fixpoint match_all_from (fuel : nat) (re : list item) (s : string) : list string :=
  match fuel with
  | O => []
  | S fuel' =>
      match match_here re s, s with
      | Some m, String _ s' =>
          if is_empty (matched s m)
          then matched s m :: match_all_from fuel' re s'
          else matched s m :: match_all_from fuel' re (rest m)
      | Some m, EmptyString => [matched s m]
      | None, String _ s' => match_all_from fuel' re s'
      | None, EmptyString => []
      end
  end.

Definition match_all (re : list item) (s : string) : list string :=
  match_all_from (S (String.length s)) re s.

(** [s.replace(re, replacement)] with the [g] flag. *)
Fixpoint replace_all_from (fuel : nat) (re : list item) (replacement s : string) : string :=
  match fuel with
  | O => s
  | S fuel' =>
      match match_here re s, s with
      | Some m, String c s' =>
          if is_empty (matched s m)
          then replacement ++ String c (replace_all_from fuel' re replacement s')
          else replacement ++ replace_all_from fuel' re replacement (rest m)
      | Some m, EmptyString => replacement
      | None, String c s' => String c (replace_all_from fuel' re replacement s')
      | None, EmptyString => EmptyString
      end
  end.

Definition replace_all (re : list item) (replacement s : string) : string :=
  replace_all_from (S (String.length s)) re replacement s.

(** *** Writing patterns *)

Fixpoint lit (text : string) : list item :=
  match text with
  | EmptyString => []
  | String c text' => One (Ascii.eqb c) :: lit text'
  end.

Definition lower (c : ascii) : ascii :=
  let n := nat_of_ascii c in
  if ((65 <=? n) && (n <=? 90))%nat then ascii_of_nat (n + 32) else c.

(** A literal under the [i] flag, written in lower case. *)
Fixpoint lit_i (text : string) : list item :=
  match text with
  | EmptyString => []
  | String c text' => One (fun x => Ascii.eqb (lower x) c) :: lit_i text'
  end.

(** [\s], [[\s\S]] and [[^>]] *)
Definition space : ascii -> bool := is_space.
Definition any : ascii -> bool := fun _ => true.
Definition not_gt : ascii -> bool := fun c => negb (Ascii.eqb c ">").

Definition has_char (c : ascii) (s : string) : bool :=
  match indexOf c s with
  | Some _ => true
  | None => false
  end.

Lemma has_char_cons c x s : has_char c (String x s) = Ascii.eqb x c || has_char c s.
Proof.
  unfold has_char. simpl. destruct (Ascii.eqb x c); [reflexivity |].
  destruct (indexOf c s); reflexivity.
Qed.

(** A pattern with a character that can only be [c] matches nothing in a
    text without [c]. *)
Lemma match_here_needs (c : ascii) (p : ascii -> bool) :
  (forall x, p x = true -> x = c) ->
  forall items, In (One p) items ->
  forall s m, match_here items s = Some m -> has_char c s = true.
Proof.
  intros Hp. induction items as [| it items IH]; intros Hin s m Hm; [destruct Hin |].
  destruct it as [p' | greedy p' | |].
  - destruct s as [| x s]; [discriminate |]. simpl in Hm.
    destruct (p' x) eqn:Hx; [| discriminate].
    rewrite has_char_cons. destruct Hin as [Heq | Hin].
    + injection Heq as ->. rewrite (Hp x Hx), Ascii.eqb_refl. reflexivity.
    + rewrite (IH Hin s m Hm). apply orb_true_r.
  - destruct Hin as [Heq | Hin]; [discriminate |]. specialize (IH Hin).
    destruct greedy; revert m Hm; induction s as [| x s IHs]; intros m Hm; simpl in Hm.
    + exact (IH _ _ Hm).
    + destruct (p' x).
      * match type of Hm with
        | match ?inner with _ => _ end = _ => destruct inner as [m' |] eqn:Hinner
        end.
        -- rewrite has_char_cons, (IHs m' Hinner). apply orb_true_r.
        -- exact (IH _ _ Hm).
      * exact (IH _ _ Hm).
    + destruct (match_here items EmptyString) as [m' |] eqn:Hhere; [| discriminate].
      exact (IH _ _ Hhere).
    + destruct (match_here items (String x s)) as [m' |] eqn:Hhere.
      * exact (IH _ _ Hhere).
      * destruct (p' x); [| discriminate].
        rewrite has_char_cons, (IHs m Hm). apply orb_true_r.
  - destruct Hin as [Heq | Hin]; [discriminate |]. simpl in Hm.
    destruct (match_here items s) as [m' |] eqn:Hhere; [| discriminate].
    exact (IH Hin _ _ Hhere).
  - destruct Hin as [Heq | Hin]; [discriminate |]. simpl in Hm.
    destruct (match_here items s) as [m' |] eqn:Hhere; [| discriminate].
    exact (IH Hin _ _ Hhere).
Qed.

Lemma exec_needs (c : ascii) (p : ascii -> bool) (re : list item) :
  (forall x, p x = true -> x = c) -> In (One p) re ->
  forall s, has_char c s = false -> exec re s = None.
Proof.
  intros Hp Hin. induction s as [| x s IH]; intros Hc; simpl.
  - destruct (match_here re EmptyString) as [m |] eqn:Hm; [| reflexivity].
    rewrite (match_here_needs c p Hp re Hin _ _ Hm) in Hc. discriminate.
  - destruct (match_here re (String x s)) as [m |] eqn:Hm.
    + rewrite (match_here_needs c p Hp re Hin _ _ Hm) in Hc. discriminate.
    + apply IH. rewrite has_char_cons in Hc. apply orb_false_iff in Hc. apply Hc.
Qed.

Lemma match_all_needs (c : ascii) (p : ascii -> bool) (re : list item) :
  (forall x, p x = true -> x = c) -> In (One p) re ->
  forall s, has_char c s = false -> match_all re s = [].
Proof.
  intros Hp Hin s. unfold match_all. generalize (S (String.length s)) as fuel.
  intros fuel. revert s.
  induction fuel as [| fuel IH]; intros s Hc; [reflexivity |]. simpl.
  destruct (match_here re s) as [m |] eqn:Hm.
  - rewrite (match_here_needs c p Hp re Hin _ _ Hm) in Hc. discriminate.
  - destruct s as [| x s]; [reflexivity |].
    apply IH. rewrite has_char_cons in Hc. apply orb_false_iff in Hc. apply Hc.
Qed.

Lemma lower_lt x : Ascii.eqb (lower x) "<" = true -> x = "<"%char.
Proof.
  destruct x as [[] [] [] [] [] [] [] []]; vm_compute; congruence.
Qed.

End RegExp.

(** ** The quote normalizers of [api/tmx-quotemedia-proxy] *)

Module QuoteMediaProxy.

Import JS.

Local Notation "a ||| b" := (or a b) (at level 50, left associativity).
Local Notation "v .[ k ]" := (get_opt v k) (at level 1, format "v .[ k ]").

(** An element of [transformedData.quotes]. *)
Record quote : Type := {
  symbol : value;
  price : number;
  change : number;
  changePercent : number;
  tick : number;
  open : number;
  high : number;
  low : number;
  previousClose : number;
  bid : number;
  ask : number;
  bidSize : number;
  askSize : number;
  rawBidSize : number;
  rawAskSize : number;
  tradevolume : number;
  sharevolume : number;
  volume : number;
  vwap : number;
  vwapvolume : number;
  marketCap : value;
  eps : value;
  peRatio : value;
  pbRatio : value;
  week52High : value;
  week52Low : value;
  exchange : value;
  exchangeLongName : value;
  companyName : value;
  shortName : value;
  datatype : value;
  symbolString : value;
  lastTradeTime : value;
  entitlement : value
}.

Definition Zero : value := Num zero.

Local Notation "'do' x <- m ; f" := (bind m (fun x => f))
  (at level 10, x name, m at level 100, f at level 200).

(** An element of the array that the mapping can read: an object or a
    primitive, not [null] or [undefined]. *)
Definition readable (stock : value) : bool :=
  match stock with
  | Undefined | Null => false
  | _ => true
  end.

(** The object literal of the arrow function of [marketStats.map], for a
    [stock] that is not [null] or [undefined]; [show] is Number::toString and
    [now] is [new Date().toISOString()].  The reads below [stock] are
    optional chains.  [parseFloat] and [parseInt] convert their argument to a
    string, which throws on a value that does not convert. *)
Definition converted (show : number -> string) (now : string) (stock : value)
    : outcome quote :=
      let pricedata := stock.["pricedata"] in
      let fundamental := stock.["fundamental"] in
      let key := stock.["key"] in
      let equityinfo := stock.["equityinfo"] in
      do price' <- parseFloat show
                  (pricedata.["last"] ||| stock.["last"] ||| stock.["price"] ||| Zero);
      do change' <- parseFloat show (pricedata.["change"] ||| stock.["change"] ||| Zero);
      do changePercent' <- parseFloat show
                          (pricedata.["changepercent"] ||| stock.["changepercent"] |||
                           stock.["changePercent"] ||| Zero);
      do tick' <- parseInt show (pricedata.["tick"] ||| Zero);
      do open' <- parseFloat show (pricedata.["open"] ||| stock.["open"] ||| Zero);
      do high' <- parseFloat show (pricedata.["high"] ||| stock.["high"] ||| Zero);
      do low' <- parseFloat show (pricedata.["low"] ||| stock.["low"] ||| Zero);
      do previousClose' <- parseFloat show
                          (pricedata.["prevclose"] ||| stock.["prevclose"] |||
                           stock.["previousClose"] ||| Zero);
      do bid' <- parseFloat show (pricedata.["bid"] ||| stock.["bid"] ||| Zero);
      do ask' <- parseFloat show (pricedata.["ask"] ||| stock.["ask"] ||| Zero);
      do bidSize' <- parseInt show (pricedata.["bidsize"] ||| stock.["bidsize"] ||| Zero);
      do askSize' <- parseInt show (pricedata.["asksize"] ||| stock.["asksize"] ||| Zero);
      do rawBidSize' <- parseInt show
                       (pricedata.["rawbidsize"] ||| stock.["rawbidsize"] ||| Zero);
      do rawAskSize' <- parseInt show
                       (pricedata.["rawasksize"] ||| stock.["rawasksize"] ||| Zero);
      do tradevolume' <- parseInt show
                        (pricedata.["tradevolume"] ||| stock.["tradevolume"] ||| Zero);
      do sharevolume' <- parseInt show
                        (pricedata.["sharevolume"] ||| stock.["sharevolume"] |||
                         stock.["volume"] ||| Zero);
      do volume' <- parseInt show
                   (pricedata.["sharevolume"] ||| stock.["sharevolume"] |||
                    stock.["volume"] ||| Zero);
      do vwap' <- parseFloat show (pricedata.["vwap"] ||| stock.["vwap"] ||| Zero);
      do vwapvolume' <- parseInt show
                       (pricedata.["vwapvolume"] ||| stock.["vwapvolume"] ||| Zero);
      Returned
        {| symbol := key.["symbol"] ||| stock.["symbol"] ||| Str "N/A";
           price := price';
           change := change';
           changePercent := changePercent';
           tick := tick';
           open := open';
           high := high';
           low := low';
           previousClose := previousClose';
           bid := bid';
           ask := ask';
           bidSize := bidSize';
           askSize := askSize';
           rawBidSize := rawBidSize';
           rawAskSize := rawAskSize';
           tradevolume := tradevolume';
           sharevolume := sharevolume';
           volume := volume';
           vwap := vwap';
           vwapvolume := vwapvolume';
           marketCap := stock.["marketcap"] ||| fundamental.["marketcap"] ||| Zero;
           eps := stock.["eps"] ||| fundamental.["eps"] ||| Null;
           peRatio := stock.["peratio"] ||| fundamental.["peratio"] ||| Null;
           pbRatio := stock.["pbratio"] ||| fundamental.["pbratio"] ||| Null;
           week52High :=
             stock.["week52high"] ||| (fundamental.["week52high"]).["content"] ||| Zero;
           week52Low :=
             stock.["week52low"] ||| (fundamental.["week52low"]).["content"] ||| Zero;
           exchange := stock.["exchange"] ||| key.["exchange"] ||| Str "US";
           exchangeLongName :=
             stock.["exchangeLongName"] ||| key.["exLgName"] ||| Str "US Exchange";
           companyName :=
             equityinfo.["longname"] ||| stock.["companyname"] ||| stock.["longname"] |||
             equityinfo.["shortname"] ||| Str "N/A";
           shortName :=
             equityinfo.["shortname"] ||| stock.["shortname"] ||| equityinfo.["longname"] |||
             Str "N/A";
           datatype := stock.["datatype"] ||| Str "equity";
           symbolString := key.["symbol"] ||| stock.["symbolstring"] ||| stock.["symbol"];
           lastTradeTime :=
             pricedata.["lasttradedatetime"] ||| stock.["lasttradedatetime"] ||| Str now;
           entitlement := stock.["entitlement"] ||| Str "RT" |}.

(** The arrow function of [marketStats.map].  Every field starts with a
    property read on [stock], which throws when [stock] is [null] or
    [undefined]. *)
Definition transform (show : number -> string) (now : string) (stock : value)
    : outcome quote :=
  match stock with
  | Undefined | Null => Thrown (TypeError stock "key")
  | _ => converted show now stock
  end.

(** The choice of [marketStats] in [GET]. *)
Definition marketStats (jsonData : value) : outcome value :=
  let results := jsonData.["results"] in
  if truthy jsonData && truthy results && truthy results.["quote"] then
    Returned results.["quote"]
  else if truthy jsonData && truthy results && truthy results.["stock"] then
    Returned results.["stock"]
  else if truthy jsonData && isArray jsonData then Returned jsonData
  else
    match jsonData with
    | Undefined | Null =>
        Thrown (mkError "TypeError" "Cannot convert undefined or null to object")
    | _ => Returned (Arr [])
    end.

(** [items.map(f)], where [f] may throw. *)
Fixpoint map_outcome {A B : Type} (f : A -> outcome B) (items : list A) : outcome (list B) :=
  match items with
  | [] => Returned []
  | x :: rest =>
      match f x with
      | Thrown e => Thrown e
      | Returned y =>
          match map_outcome f rest with
          | Thrown e => Thrown e
          | Returned ys => Returned (y :: ys)
          end
      end
  end.

(** [transformedData.quotes] for the parsed response [jsonData]. *)
Definition quotes (show : number -> string) (now : string) (jsonData : value)
    : outcome (list quote) :=
  match marketStats jsonData with
  | Thrown e => Thrown e
  | Returned (Arr items) => map_outcome (transform show now) items
  | Returned _ => Thrown (mkError "TypeError" "marketStats.map is not a function")
  end.



(** The values the mapping hands to [parseFloat] and [parseInt]: for each
    numeric field the first of its sources that is truthy, and 0 when none
    is. *)
Definition numeric_sources (stock : value) : list value :=
  let pricedata := stock.["pricedata"] in
  [pricedata.["last"] ||| stock.["last"] ||| stock.["price"] ||| Zero;
   pricedata.["change"] ||| stock.["change"] ||| Zero;
   pricedata.["changepercent"] ||| stock.["changepercent"] ||| stock.["changePercent"] |||
   Zero;
   pricedata.["tick"] ||| Zero;
   pricedata.["open"] ||| stock.["open"] ||| Zero;
   pricedata.["high"] ||| stock.["high"] ||| Zero;
   pricedata.["low"] ||| stock.["low"] ||| Zero;
   pricedata.["prevclose"] ||| stock.["prevclose"] ||| stock.["previousClose"] ||| Zero;
   pricedata.["bid"] ||| stock.["bid"] ||| Zero;
   pricedata.["ask"] ||| stock.["ask"] ||| Zero;
   pricedata.["bidsize"] ||| stock.["bidsize"] ||| Zero;
   pricedata.["asksize"] ||| stock.["asksize"] ||| Zero;
   pricedata.["rawbidsize"] ||| stock.["rawbidsize"] ||| Zero;
   pricedata.["rawasksize"] ||| stock.["rawasksize"] ||| Zero;
   pricedata.["tradevolume"] ||| stock.["tradevolume"] ||| Zero;
   pricedata.["sharevolume"] ||| stock.["sharevolume"] ||| stock.["volume"] ||| Zero;
   pricedata.["sharevolume"] ||| stock.["sharevolume"] ||| stock.["volume"] ||| Zero;
   pricedata.["vwap"] ||| stock.["vwap"] ||| Zero;
   pricedata.["vwapvolume"] ||| stock.["vwapvolume"] ||| Zero].

(** A stock with a value that does not convert: the tick is an object with
    an own property [toString]. *)
Definition odd_tick : value :=
  Obj [("symbol", Str "TSLA");
       ("pricedata", Obj [("tick", Obj [("toString", Num (Fin 1))])])].

(** Induction on a value: a property of the items carries to their array. *)
Lemma value_induction (P : value -> Prop) :
  P Undefined -> P Null -> (forall b, P (Bool b)) -> (forall n, P (Num n)) ->
  (forall s, P (Str s)) ->
  (forall items, Forall P items -> P (Arr items)) ->
  (forall fields, P (Obj fields)) ->
  forall v, P v.
Proof.
  intros HU HN HB HNum HS HA HO.
  fix IH 1.
  intros [| | b | n | s | items | fields];
    [exact HU | exact HN | apply HB | apply HNum | apply HS | | apply HO].
  apply HA. induction items as [| x items IHitems]; constructor; [apply IH | exact IHitems].
Qed.

(** The conversion throws on the values that are not [printable], and
    always the same error. *)
Lemma toString_printable show v :
  if printable v then exists s, toString show v = Returned s
  else toString show v = Thrown CANNOT_CONVERT.
Proof.
  induction v as [| | b | n | s | items IH | fields] using value_induction;
    simpl; eauto.
  - destruct b; eauto.
  - induction IH as [| x items Hx _ IHitems]; simpl; [eauto |].
    assert (Hhead :
      if printable x
      then exists s, match x with
                     | Undefined | Null => Returned EmptyString
                     | _ => toString show x
                     end = Returned s
      else match x with
           | Undefined | Null => Returned EmptyString
           | _ => toString show x
           end = Thrown CANNOT_CONVERT).
    { destruct x; simpl in *; eauto. }
    destruct (printable x); simpl.
    + destruct Hhead as [s Hs]. rewrite Hs.
      destruct items as [| y rest]; [simpl; eauto |].
      destruct (forallb printable (y :: rest)).
      * destruct IHitems as [t Ht]. rewrite Ht. eauto.
      * rewrite IHitems. reflexivity.
    + rewrite Hhead. destruct (forallb printable items); reflexivity.
  - destruct (has_own "toString" fields); simpl; eauto.
Qed.

Lemma parseFloat_printable show v :
  if printable v then exists n, parseFloat show v = Returned n
  else parseFloat show v = Thrown CANNOT_CONVERT.
Proof.
  pose proof (toString_printable show v) as H.
  destruct v as [| | b | n | s | items | fields]; try (simpl; eauto; fail);
    try (destruct b; simpl; eauto; fail);
    (unfold parseFloat; destruct (printable _);
     [destruct H as [s' Hs]; rewrite Hs | rewrite H]; simpl; eauto).
Qed.

Lemma parseInt_printable show v :
  if printable v then exists n, parseInt show v = Returned n
  else parseInt show v = Thrown CANNOT_CONVERT.
Proof.
  pose proof (toString_printable show v) as H.
  destruct v as [| | b | [| negative | q] | s | items | fields];
    try (simpl; eauto; fail);
    try (destruct b; simpl; eauto; fail);
    (unfold parseInt; destruct (printable _);
     [destruct H as [s' Hs]; rewrite Hs | rewrite H]; simpl; eauto).
Qed.



(** One step of the mapping: the conversion at the head of what is left. *)
Ltac step_parse show :=
  match goal with
  | |- context [bind (parseFloat show ?v) _] =>
      let H := fresh "Hparse" in
      pose proof (parseFloat_printable show v) as H;
      destruct (printable v) eqn:?;
      [destruct H as [? H]; rewrite H; cbn [bind] | rewrite H; cbn [bind]]
  | |- context [bind (parseInt show ?v) _] =>
      let H := fresh "Hparse" in
      pose proof (parseInt_printable show v) as H;
      destruct (printable v) eqn:?;
      [destruct H as [? H]; rewrite H; cbn [bind] | rewrite H; cbn [bind]]
  end.




Lemma transform_readable show now stock :
  transform show now stock =
    if readable stock then converted show now stock else Thrown (TypeError stock "key").
Proof. destruct stock; reflexivity. Qed.




(** The mapping on elements it cannot read. *)
Example transform_unreadable show now :
  transform show now Null = Thrown (TypeError Null "key") /\
  transform show now odd_tick = Thrown CANNOT_CONVERT /\
  quotes show now (Arr [Obj [("symbol", Str "TSLA")]; odd_tick]) = Thrown CANNOT_CONVERT.
Proof. repeat split. Qed.

(** *** [parseTMXMarketData] *)

Import RegExp.

(** [/var\s+data\s*=\s*(\{[\s\S]*?\});/] *)
Definition re_var_data : list item :=
  lit "var" ++ [One space; Many true space] ++ lit "data" ++ [Many true space] ++
  lit "=" ++ [Many true space; Open] ++ lit "{" ++ [Many false any] ++ lit "}" ++
  [Close] ++ lit ";".

(** [/window\.marketData\s*=\s*(\{[\s\S]*?\});/] *)
Definition re_window_marketData : list item :=
  lit "window.marketData" ++ [Many true space] ++
  lit "=" ++ [Many true space; Open] ++ lit "{" ++ [Many false any] ++ lit "}" ++
  [Close] ++ lit ";".

(** [/"quotes":\s*(\[[\s\S]*?\])/] *)
Definition re_quotes : list item :=
  lit (String "034" ("quotes" ++ String "034" ":")) ++ [Many true space; Open] ++
  lit "[" ++ [Many false any] ++ lit "]" ++ [Close].

(** [/marketMoversData\s*=\s*(\{[\s\S]*?\});/] *)
Definition re_marketMoversData : list item :=
  lit "marketMoversData" ++ [Many true space] ++
  lit "=" ++ [Many true space; Open] ++ lit "{" ++ [Many false any] ++ lit "}" ++
  [Close] ++ lit ";".

Definition jsDataPatterns : list (list item) :=
  [re_var_data; re_window_marketData; re_quotes; re_marketMoversData].

(** [/{[\s\S]*}/] *)
Definition re_json : list item := lit "{" ++ [Many true any] ++ lit "}".

(** [/<tr[^>]*>[\s\S]*?<\/tr>/gi] *)
Definition re_tr : list item :=
  lit_i "<tr" ++ [Many true not_gt] ++ lit_i ">" ++ [Many false any] ++ lit_i "</tr>".

(** [/<td[^>]*>([\s\S]*?)<\/td>/gi] *)
Definition re_td : list item :=
  lit_i "<td" ++ [Many true not_gt] ++ lit_i ">" ++ [Open; Many false any; Close] ++
  lit_i "</td>".

(** [/<[^>]*>/g] *)
Definition re_tag : list item := lit "<" ++ [Many true not_gt] ++ lit ">".

Definition as_array (v : value) : option (list value) :=
  match v with
  | Arr items => Some items
  | _ => None
  end.

(** The [return]s for a parsed value that is structured data already; the
    [results] array counts in the first loop only. *)
Definition structured (with_results : bool) (jsonData : value) : option (list value) :=
  match jsonData with
  | Arr items => Some items
  | Obj _ =>
      match as_array jsonData.["quotes"] with
      | Some items => Some items
      | None =>
          match as_array jsonData.["data"] with
          | Some items => Some items
          | None => if with_results then as_array jsonData.["results"] else None
          end
      end
  | _ => None
  end.

(** [parseFloat(text) || 0] *)
Definition float_or_zero (text : string) : number :=
  let n := parseFloat_string text in
  if truthy (Num n) then n else zero.

Definition DEBUG_NOTE : string := "No parseable market data found in HTML response".

Section Parse.

Variable JSON_parse : string -> outcome value.

(** [new Date().toISOString()] *)
Variable now : string.

(** [JSON.parse(text)] inside its [try], then the [return]s. *)
Definition parsed (with_results : bool) (text : string) : option (list value) :=
  match JSON_parse text with
  | Returned jsonData => structured with_results jsonData
  | Thrown _ => None
  end.

(** The loop over [jsDataPatterns]: what it returns, if it does. *)
Fixpoint embedded (patterns : list (list item)) (htmlText : string) : option (list value) :=
  match patterns with
  | [] => None
  | pattern :: patterns' =>
      match exec pattern htmlText with
      | Some (_, captured) =>
          match parsed true captured with
          | Some items => Some items
          | None => embedded patterns' htmlText
          end
      | None => embedded patterns' htmlText
      end
  end.

(** [cell.replace(/<[^>]*>/g, '').trim()] *)
Definition cell_text (cell : string) : string :=
  trim (replace_all re_tag EmptyString cell).

(** One turn of the loop over the table rows. *)
Definition push_row (quotes : list value) (row : string) : list value :=
  match match_all re_td row with
  | c0 :: c1 :: c2 :: _ =>
      let symbol := cell_text c0 in
      let price := cell_text c1 in
      let change := cell_text c2 in
      if negb (is_empty symbol) && negb (is_empty price) then
        quotes ++
        [Obj [("symbol", Str symbol);
              ("last", Num (float_or_zero price));
              ("change", Num (float_or_zero change));
              ("source", Str "TMX PowerStream");
              ("timestamp", Str now)]]
      else quotes
  | _ => quotes
  end.

Definition table_quotes (htmlText : string) : list value :=
  fold_left push_row (match_all re_tr htmlText) [].

Definition debug_record (htmlText : string) : value :=
  Obj [("symbol", Str "DEBUG");
       ("last", Zero);
       ("change", Zero);
       ("source", Str "TMX PowerStream");
       ("timestamp", Str now);
       ("rawHtmlLength", Num (of_nat (String.length htmlText)));
       ("debug", Str DEBUG_NOTE)].

(** The [jsonMatch] step: the text from the first opening to the last
    closing brace, parsed. *)
Definition brace_json (htmlText : string) : option (list value) :=
  match exec re_json htmlText with
  | Some (jsonText, _) => parsed false jsonText
  | None => None
  end.

(** Nothing in the [try] block throws: the two [JSON.parse] calls have
    their own handlers, and the rest works on strings.  So the function
    returns from its [try], with a list. *)
Definition parseTMXMarketData (htmlText : string) : list value :=
  match embedded jsDataPatterns htmlText with
  | Some items => items
  | None =>
      match brace_json htmlText with
      | Some items => items
      | None =>
          match table_quotes htmlText with
          | [] => [debug_record htmlText]
          | quotes => quotes
          end
      end
  end.

End Parse.

Ltac member := simpl; repeat first [left; reflexivity | right].

Lemma literal_needs (c x : ascii) : Ascii.eqb c x = true -> x = c.
Proof. intros H. symmetry. apply Ascii.eqb_eq. exact H. Qed.

Section ParseFacts.

Variable JSON_parse : string -> outcome value.
Variable now : string.

Lemma embedded_needs_bracket htmlText :
  has_char "{" htmlText = false -> has_char "[" htmlText = false ->
  embedded JSON_parse jsDataPatterns htmlText = None.
Proof.
  intros Hbrace Hbracket. unfold jsDataPatterns, embedded.
  rewrite (exec_needs "{" (Ascii.eqb "{") re_var_data (literal_needs "{"))
    by (try exact Hbrace; unfold re_var_data; member).
  rewrite (exec_needs "{" (Ascii.eqb "{") re_window_marketData (literal_needs "{"))
    by (try exact Hbrace; unfold re_window_marketData; member).
  rewrite (exec_needs "[" (Ascii.eqb "[") re_quotes (literal_needs "["))
    by (try exact Hbracket; unfold re_quotes; member).
  rewrite (exec_needs "{" (Ascii.eqb "{") re_marketMoversData (literal_needs "{"))
    by (try exact Hbrace; unfold re_marketMoversData; member).
  reflexivity.
Qed.

Lemma table_quotes_needs_tag htmlText :
  has_char "<" htmlText = false -> table_quotes now htmlText = [].
Proof.
  intros Hlt. unfold table_quotes.
  rewrite (match_all_needs "<" (fun x => Ascii.eqb (lower x) "<") re_tr lower_lt)
    by (try exact Hlt; unfold re_tr; member).
  reflexivity.
Qed.

Lemma push_row_source (P := fun q : value => q.["source"] = Str "TMX PowerStream") rows :
  forall quotes, Forall P quotes -> Forall P (fold_left (push_row now) rows quotes).
Proof.
  induction rows as [| row rows IH]; intros quotes Hquotes; [exact Hquotes |].
  simpl. apply IH. unfold push_row.
  destruct (match_all re_td row) as [| c0 [| c1 [| c2 cells]]]; try exact Hquotes.
  destruct (negb (is_empty (cell_text c0)) && negb (is_empty (cell_text c1)));
    [| exact Hquotes].
  apply Forall_app. split; [exact Hquotes |]. constructor; [reflexivity | constructor].
Qed.

(** C8, as the code has it.  The parser is total: it returns a list for
    every text.  When it finds neither embedded data nor a table row with a
    symbol and a price, it returns the one placeholder record, which carries
    the length of the text and the debug note; a text with no brace, bracket
    or angle bracket is such a text.  The records of the table path carry
    the source TMX PowerStream, the same as the placeholder. *)
Theorem parseTMXMarketData_placeholder (htmlText : string) :
  (embedded JSON_parse jsDataPatterns htmlText = None ->
   brace_json JSON_parse htmlText = None ->
   table_quotes now htmlText = [] ->
   parseTMXMarketData JSON_parse now htmlText = [debug_record now htmlText]) /\
  (has_char "{" htmlText = false -> has_char "[" htmlText = false ->
   has_char "<" htmlText = false ->
   parseTMXMarketData JSON_parse now htmlText = [debug_record now htmlText]) /\
  ((debug_record now htmlText).["rawHtmlLength"] = Num (of_nat (String.length htmlText)) /\
   (debug_record now htmlText).["debug"] = Str DEBUG_NOTE /\
   (debug_record now htmlText).["source"] = Str "TMX PowerStream") /\
  Forall (fun q => q.["source"] = Str "TMX PowerStream") (table_quotes now htmlText).
Proof.
  assert (Hnone : embedded JSON_parse jsDataPatterns htmlText = None ->
                  brace_json JSON_parse htmlText = None ->
                  table_quotes now htmlText = [] ->
                  parseTMXMarketData JSON_parse now htmlText = [debug_record now htmlText]).
  { intros Hembedded Hbrace Hrows. unfold parseTMXMarketData.
    rewrite Hembedded, Hbrace, Hrows. reflexivity. }
  split; [exact Hnone |]. split; [| split; [repeat split |]].
  - intros Hbrace Hbracket Hlt. apply Hnone.
    + apply embedded_needs_bracket; assumption.
    + unfold brace_json.
      rewrite (exec_needs "{" (Ascii.eqb "{") re_json (literal_needs "{"))
        by (try exact Hbrace; unfold re_json; member).
      reflexivity.
    + apply table_quotes_needs_tag. exact Hlt.
  - unfold table_quotes. apply push_row_source. constructor.
Qed.

End ParseFacts.

Definition table_html : string :=
  "<table><TR><td class='s'><b>AAPL</b></td><td>258.06</td><td> 1.2 </td></TR>" ++
  "<tr><td>skipped</td></tr></table>".

Definition no_parse : string -> outcome value :=
  fun _ => Thrown (mkError "SyntaxError" "Unexpected token").

Lemma parseTMXMarketData_placeholder_witness :
  parseTMXMarketData no_parse "2026-11-03T14:30:00.000Z" "503 Service Unavailable" =
    [Obj [("symbol", Str "DEBUG"); ("last", Num (Fin 0)); ("change", Num (Fin 0));
          ("source", Str "TMX PowerStream");
          ("timestamp", Str "2026-11-03T14:30:00.000Z");
          ("rawHtmlLength", Num (Fin 23));
          ("debug", Str "No parseable market data found in HTML response")]].
Proof.
  apply (proj1 (proj2 (parseTMXMarketData_placeholder no_parse "2026-11-03T14:30:00.000Z"
                         "503 Service Unavailable"))); reflexivity.
Defined.

Example parse_table :
  parseTMXMarketData no_parse "2026-11-03T14:30:00.000Z" table_html =
    [Obj [("symbol", Str "AAPL"); ("last", Num (Fin 258.06)); ("change", Num (Fin 1.2));
          ("source", Str "TMX PowerStream");
          ("timestamp", Str "2026-11-03T14:30:00.000Z")]].
Proof. vm_compute. reflexivity. Qed.

(** The rows of the table path are not tagged html-table-fallback. *)
Lemma table_rows_not_tagged_fallback :
  ~ Forall (fun q => q.["source"] = Str "html-table-fallback")
      (parseTMXMarketData no_parse "2026-11-03T14:30:00.000Z" table_html).
Proof.
  rewrite parse_table. intros Htagged.
  apply Forall_inv in Htagged. discriminate Htagged.
Qed.

End QuoteMediaProxy.

(** ** More on the credential cache *)

Module CredentialCache.

Import JS QuoteMediaAuth.
Local Open Scope Z_scope.

Definition NO_CREDENTIALS : error :=
  Error "QuoteMedia credentials not found in environment variables".

(** The URL of the token request. *)
Definition tokenUrl (E : env) : string :=
  "https://app.quotemedia.com/auth/g/authenticate/dataTool/v0/" ++
  env_or (QUOTEMEDIA_WEBMASTER_ID E) "101020" ++ "/" ++ STATIC_TOKEN_HASH.

(** A vendor that turns every request down. *)
Definition refusing_network : network :=
  {| respond := fun _ _ =>
       Returned {| ok := false; status := 403; statusText := "Forbidden";
                   json := Returned Null |};
     latency := fun _ _ => 7 |}.

Definition unconfigured_env : env :=
  {| QUOTEMEDIA_WEBMASTER_ID := Some "101020";
     QUOTEMEDIA_USERNAME := Some "user";
     QUOTEMEDIA_PASSWORD := None |}.

Section Facts.

Variable E : env.
Variable N : network.

Lemma getQuoteMediaSid_throws_unchanged w e w' :
  getQuoteMediaSid E N w = (Thrown e, w') -> module w' = module w.
Proof.
  unfold getQuoteMediaSid, fetch.
  repeat case_call; intros H; inversion H; subst; reflexivity.
Qed.

Lemma getQuoteMediaSid_returns_cached w sid w' :
  getQuoteMediaSid E N w = (Returned sid, w') -> cachedSid (module w') = sid.
Proof.
  unfold getQuoteMediaSid, fetch.
  repeat case_call; intros H; inversion H; subst; reflexivity.
Qed.

(** X1.  A getter that throws leaves the credential of its kind as it was:
    a refresh that fails overwrites neither the value nor the expiration, and
    a failing [getQuoteMediaSid] changes no module variable at all. *)
Theorem failed_getter_keeps_credential (k : kind) (w w' : world) (e : error) :
  get E N k w = (Thrown e, w') ->
  cached k w' = cached k w /\
  expiration k w' = expiration k w /\
  (k = SID -> module w' = module w).
Proof.
  destruct k; simpl; intros Hget.
  - rewrite (getQuoteMediaSid_throws_unchanged w e w' Hget). auto.
  - split; [| split; [| discriminate]];
      revert Hget; unfold generateDataToolToken;
      pose proof (getQuoteMediaSid_frame E N w) as [Hv He];
      destruct (getQuoteMediaSid E N w) as [res w1]; simpl in Hv, He;
      unfold fetch; repeat case_call; intros H; inversion H; subst; simpl;
      congruence.
Qed.

(** X2.  Without both credentials in the environment a getter that finds no
    live SID and no live credential of its kind throws the missing-credentials
    error, sends nothing and changes nothing. *)
Theorem missing_credentials_send_nothing (k : kind) (w : world) :
  configured E = false ->
  hit SID w = false ->
  hit k w = false ->
  get E N k w = (Thrown NO_CREDENTIALS, w).
Proof.
  unfold configured, hit. intros Hcfg Hsid Hk. apply negb_false_iff in Hcfg.
  assert (Hlogin : getQuoteMediaSid E N w = (Thrown NO_CREDENTIALS, w)).
  { unfold getQuoteMediaSid. simpl in Hsid. rewrite Hsid. simpl. rewrite Hcfg.
    reflexivity. }
  destruct k; simpl in *; [exact Hlogin |].
  unfold generateDataToolToken. rewrite Hk, Hlogin. reflexivity.
Qed.

(** X3.  Every operation of the module keeps its invariant: after a getter
    or an invalidation a credential is still [null] or truthy and an
    expiration still a positive time. *)
Theorem operations_keep_invariant (k : kind) (w : world) :
  network_wf N ->
  cache_wf w ->
  cache_wf (snd (get E N k w)) /\ cache_wf (invalidate k w).
Proof.
  intros HN Hw. split; [| apply invalidate_wf; exact Hw].
  destruct k; simpl;
    [apply getQuoteMediaSid_wf | apply generateDataToolToken_wf]; assumption.
Qed.

(** X4.  A getter only appends to the requests sent, and appends little:
    [getQuoteMediaSid] nothing or one login, [generateDataToolToken] nothing,
    one login, one token request, or a login followed by a token request. *)
Theorem getter_request_budget (k : kind) (w : world) :
  exists new,
    sent (snd (get E N k w)) = (sent w ++ new)%list /\
    (new = [] \/ new = [login E] \/
     (k = Token /\
      exists sid, new = [TokenRequest (tokenUrl E) sid] \/
                  new = [login E; TokenRequest (tokenUrl E) sid])).
Proof.
  destruct k; simpl.
  - destruct (getQuoteMediaSid_sent E N w) as [-> | ->].
    + exists []. rewrite app_nil_r. auto.
    + exists [login E]. auto.
  - unfold generateDataToolToken.
    pose proof (getQuoteMediaSid_sent E N w) as Hsent.
    destruct (hit Token w) eqn:Hhit; unfold hit in Hhit; simpl in Hhit; rewrite Hhit.
    { exists []. rewrite app_nil_r. auto. }
    destruct (getQuoteMediaSid E N w) as [[sid | e] w1]; simpl in Hsent.
    + assert (Hall : sent (snd (fetch N (TokenRequest (tokenUrl E) sid) w1)) =
                       (sent w1 ++ [TokenRequest (tokenUrl E) sid])%list) by reflexivity.
      assert (Hout : exists new,
        sent (snd (fetch N (TokenRequest (tokenUrl E) sid) w1)) = (sent w ++ new)%list /\
        (new = [] \/ new = [login E] \/
         (Token = Token /\
          exists sid0, new = [TokenRequest (tokenUrl E) sid0] \/
                       new = [login E; TokenRequest (tokenUrl E) sid0]))).
      { rewrite Hall. destruct Hsent as [-> | ->].
        - exists [TokenRequest (tokenUrl E) sid]. split; [reflexivity |].
          right. right. split; [reflexivity |]. exists sid. auto.
        - exists [login E; TokenRequest (tokenUrl E) sid].
          split; [rewrite <- app_assoc; reflexivity |].
          right. right. split; [reflexivity |]. exists sid. auto. }
      fold (tokenUrl E).
      destruct (fetch N (TokenRequest (tokenUrl E) sid) w1) as [res w2]; simpl in Hout.
      repeat case_call; simpl; exact Hout.
    + simpl. destruct Hsent as [-> | ->].
      * exists []. rewrite app_nil_r. auto.
      * exists [login E]. auto.
Qed.

(** X5.  The token is asked for with the SID that ends up cached: when
    [generateDataToolToken] misses and the SID step returns [sid], the one
    request it adds after that step is the token request for [sid] at the URL
    of the static hash, and [sid] is the cached SID afterwards. *)
Theorem token_request_carries_cached_sid (w w1 : world) (sid : value) :
  hit Token w = false ->
  getQuoteMediaSid E N w = (Returned sid, w1) ->
  sent (snd (generateDataToolToken E N w)) =
    (sent w1 ++ [TokenRequest (tokenUrl E) sid])%list /\
  cachedSid (module (snd (generateDataToolToken E N w))) = sid.
Proof.
  unfold hit. simpl. intros Hmiss Hsid.
  pose proof (getQuoteMediaSid_returns_cached w sid w1 Hsid) as Hcached.
  unfold generateDataToolToken. rewrite Hmiss, Hsid. fold (tokenUrl E).
  unfold fetch. repeat case_call; simpl; auto.
Qed.

(** X6.  The comparison with the expiration is strict: from the very
    millisecond of its expiration on a cached SID is not returned any more,
    and a configured [getQuoteMediaSid] logs in again. *)
Theorem expired_sid_logs_in_again (w : world) (e : Z) :
  sidExpiration (module w) = Some e ->
  e <= clock w ->
  configured E = true ->
  hit SID w = false /\
  sent (snd (getQuoteMediaSid E N w)) = (sent w ++ [login E])%list.
Proof.
  intros He Hle Hcfg.
  assert (Hmiss : hit SID w = false).
  { unfold hit, live. simpl. rewrite He.
    replace (clock w <? e) with false by (symmetry; apply Z.ltb_ge; exact Hle).
    rewrite andb_false_r, andb_false_r. reflexivity. }
  split; [exact Hmiss |].
  unfold hit in Hmiss. simpl in Hmiss.
  unfold configured in Hcfg. apply negb_true_iff in Hcfg.
  unfold getQuoteMediaSid, fetch. rewrite Hmiss. simpl. rewrite Hcfg.
  fold (login E). repeat case_call; reflexivity.
Qed.

End Facts.

(** The demo world, later: at the millisecond the SID expires, the token
    having expired before. *)
Definition expired_world : world :=
  {| module := module demo_world; sent := sent demo_world; clock := 3601005 |}.

Lemma failed_getter_keeps_credential_witness :
  cached Token (snd (get demo_env refusing_network Token expired_world)) =
    cached Token expired_world /\
  expiration Token (snd (get demo_env refusing_network Token expired_world)) =
    expiration Token expired_world /\
  (Token = SID ->
   module (snd (get demo_env refusing_network Token expired_world)) =
     module expired_world).
Proof.
  apply (failed_getter_keeps_credential demo_env refusing_network Token expired_world
           (snd (get demo_env refusing_network Token expired_world))
           (Error "Authentication failed: 403 Forbidden")).
  vm_compute. reflexivity.
Defined.

Lemma missing_credentials_send_nothing_witness :
  get unconfigured_env demo_network Token (initial 1000) =
    (Thrown NO_CREDENTIALS, initial 1000).
Proof.
  apply (missing_credentials_send_nothing unconfigured_env demo_network Token
           (initial 1000)); reflexivity.
Defined.

Lemma operations_keep_invariant_witness :
  cache_wf (snd (get demo_env demo_network SID expired_world)) /\
  cache_wf (invalidate SID expired_world).
Proof.
  apply (operations_keep_invariant demo_env demo_network SID expired_world).
  - intros history r. simpl. lia.
  - destruct demo_world_wf as (_ & Hsid & Htoken).
    split; [simpl; lia | split; assumption].
Defined.

Lemma token_request_carries_cached_sid_witness :
  sent (snd (generateDataToolToken demo_env demo_network (clearCachedToken demo_world))) =
    (sent demo_world ++ [TokenRequest (tokenUrl demo_env) (Str "s1")])%list /\
  cachedSid (module (snd (generateDataToolToken demo_env demo_network
                            (clearCachedToken demo_world)))) = Str "s1".
Proof.
  apply (token_request_carries_cached_sid demo_env demo_network
           (clearCachedToken demo_world) (clearCachedToken demo_world) (Str "s1"));
    reflexivity.
Defined.

Lemma expired_sid_logs_in_again_witness :
  hit SID expired_world = false /\
  sent (snd (getQuoteMediaSid demo_env demo_network expired_world)) =
    (sent expired_world ++ [login demo_env])%list.
Proof.
  apply (expired_sid_logs_in_again demo_env demo_network expired_world 3601005);
    [reflexivity | simpl; lia | reflexivity].
Defined.

End CredentialCache.

(** ** More on the halt feed *)

Module HaltFeed.

Import JS Halts.

(** *** The route handler *)

(** The two JSON answers of [GET]: the halts with their count and the time,
    or the error with its type, its HTTP status and the retry delay. *)
Inductive reply : Type :=
  | Halted (halts : list HaltData) (count : nat) (lastUpdated : string)
  | Unavailable (status : Z) (errorText errorType : string) (retryAfter : Z).

Section Route.

Variable JSON_parse : string -> outcome value.
Variable load : string -> node.
Variable feed : nat -> fetched.
Variable today : Date.

(** [new Date().toISOString()] *)
Variable now : string.

(** [GET] of [api/halts]: the [try] around [fetchNasdaqHalts], and the
    [catch] that sorts the error by its message. *)
Definition GET : reply * list event :=
  match fetchNasdaqHalts JSON_parse load feed today with
  | (Returned halts, trace) => (Halted halts (List.length halts) now, trace)
  | (Thrown error, trace) =>
      let errorMessage := message error in
      let isTimeout :=
        includes errorMessage "timeout" || includes errorMessage "ETIMEDOUT" ||
        includes errorMessage "AbortError" in
      (if isTimeout then
         Unavailable 503
           "NASDAQ API timeout - the service may be experiencing high load. Please try again."
           "TIMEOUT" 30
       else
         Unavailable 500 ("Failed to fetch halt data: " ++ errorMessage)
           "NETWORK_ERROR" 10,
       trace)
  end.

End Route.

(** *** Counting what a run did *)

Fixpoint attempts_made (trace : list event) : nat :=
  match trace with
  | [] => O
  | Attempt _ _ :: rest => S (attempts_made rest)
  | Sleep _ :: rest => attempts_made rest
  end.

Fixpoint time_slept (trace : list event) : Z :=
  match trace with
  | [] => 0%Z
  | Attempt _ _ :: rest => time_slept rest
  | Sleep ms :: rest => (ms + time_slept rest)%Z
  end.

Lemma attempts_made_app t1 t2 :
  attempts_made (t1 ++ t2) = (attempts_made t1 + attempts_made t2)%nat.
Proof.
  induction t1 as [| [attempt timeoutMs | ms] t1 IH]; simpl; rewrite ?IH; reflexivity.
Qed.

Lemma time_slept_app t1 t2 :
  time_slept (t1 ++ t2) = (time_slept t1 + time_slept t2)%Z.
Proof.
  induction t1 as [| [attempt timeoutMs | ms] t1 IH]; simpl; rewrite ?IH; lia.
Qed.

Section Retries.

Variable JSON_parse : string -> outcome value.
Variable load : string -> node.
Variable feed : nat -> fetched.
Variable today : Date.

Local Abbreviation body := (attempt_body JSON_parse load feed today).
Local Abbreviation loop := (attempts JSON_parse load feed today).

(** The loop stops at the first attempt that succeeds. *)
Lemma attempts_first_success failed :
  forall remaining attempt lastError trace halts,
    (failed < remaining)%nat ->
    (forall i, (attempt <= i < attempt + failed)%nat -> exists e, body i = Thrown e) ->
    body (attempt + failed)%nat = Returned halts ->
    loop remaining attempt lastError trace =
      (Returned halts,
       (trace ++ exhausted 8000 maxRetries attempt failed ++
        [Attempt (attempt + failed) 8000])%list).
Proof.
  induction failed as [| failed IH]; intros remaining attempt lastError trace halts
    Hlt Hfail Hok; (destruct remaining as [| remaining]; [lia |]); simpl.
  - rewrite Nat.add_0_r in *. rewrite Hok. reflexivity.
  - destruct (Hfail attempt) as [e He]; [lia |]. rewrite He.
    rewrite (IH remaining (S attempt) _ _ halts).
    + replace (S attempt + failed)%nat with (attempt + S failed)%nat by lia.
      f_equal. destruct (attempt <? maxRetries)%nat; simpl;
        repeat rewrite <- app_assoc; reflexivity.
    + lia.
    + intros i Hi. apply Hfail. lia.
    + replace (S attempt + failed)%nat with (attempt + S failed)%nat by lia. exact Hok.
Qed.

(** X7.  [fetchNasdaqHalts] returns the halts of the first attempt that
    succeeds, having made exactly the attempts up to it, with a sleep of
    [i] seconds after each failed attempt [i]; no attempt follows it. *)
Theorem fetchNasdaqHalts_first_success (k : nat) (halts : list HaltData) :
  (1 <= k <= 3)%nat ->
  (forall i, (1 <= i < k)%nat -> exists e, body i = Thrown e) ->
  body k = Returned halts ->
  fetchNasdaqHalts JSON_parse load feed today =
    (Returned halts, (exhausted 8000 3 1 (k - 1) ++ [Attempt k 8000])%list) /\
  attempts_made (snd (fetchNasdaqHalts JSON_parse load feed today)) = k.
Proof.
  intros Hk Hfail Hok.
  assert (Heq : fetchNasdaqHalts JSON_parse load feed today =
    (Returned halts, (exhausted 8000 3 1 (k - 1) ++ [Attempt k 8000])%list)).
  { unfold fetchNasdaqHalts.
    rewrite (attempts_first_success (k - 1) maxRetries 1 None [] halts).
    - replace (1 + (k - 1))%nat with k by lia. reflexivity.
    - unfold maxRetries. lia.
    - intros i Hi. apply Hfail. lia.
    - replace (1 + (k - 1))%nat with k by lia. exact Hok. }
  split; [exact Heq |]. rewrite Heq. simpl.
  destruct k as [| [| [| [| k]]]]; try lia; reflexivity.
Qed.

Lemma fetchNasdaqHalts_returns :
  exists halts, fst (fetchNasdaqHalts JSON_parse load feed today) = Returned halts.
Proof.
  unfold fetchNasdaqHalts, maxRetries. simpl.
  repeat match goal with
    | |- context [attempt_body JSON_parse load feed today ?i] =>
        destruct (attempt_body JSON_parse load feed today i)
    end; eexists; reflexivity.
Qed.

(** X8.  [fetchNasdaqHalts] never throws, whatever the network and the
    parsers do: it returns a list after at most three attempts and at most
    three seconds of sleep. *)
Theorem fetchNasdaqHalts_never_throws :
  exists halts trace,
    fetchNasdaqHalts JSON_parse load feed today = (Returned halts, trace) /\
    (1 <= attempts_made trace <= 3)%nat /\
    (0 <= time_slept trace <= 3000)%Z.
Proof.
  unfold fetchNasdaqHalts, maxRetries. simpl.
  destruct (attempt_body JSON_parse load feed today 1) as [h1 | e1];
    [eexists; eexists; split; [reflexivity | simpl; lia] |].
  destruct (attempt_body JSON_parse load feed today 2) as [h2 | e2];
    [eexists; eexists; split; [reflexivity | simpl; lia] |].
  destruct (attempt_body JSON_parse load feed today 3) as [h3 | e3];
    eexists; eexists; (split; [reflexivity | simpl; lia]).
Qed.

(** X9.  The route never answers with an error: since the fetch swallows
    its failures, [GET] always answers with the list of halts and its length
    as the count, and its [catch] branch is never taken. *)
Theorem GET_always_answers_halts (now : string) :
  exists halts,
    fst (GET JSON_parse load feed today now) = Halted halts (List.length halts) now /\
    fst (fetchNasdaqHalts JSON_parse load feed today) = Returned halts.
Proof.
  unfold GET. destruct fetchNasdaqHalts_returns as [halts Heq].
  destruct (fetchNasdaqHalts JSON_parse load feed today) as [completion trace].
  simpl in Heq. subst completion. exists halts. split; reflexivity.
Qed.

End Retries.

(** A feed whose first request is aborted and whose second is answered;
    the parsers of the example read one halt out of any text. *)
Definition second_time_lucky (attempt : nat) : fetched :=
  match attempt with
  | 1%nat => Aborted
  | _ => Answered {| ok := true; status := 200; statusText := "OK";
                     body := Returned "{}" |}
  end.

Definition example_parse : string -> outcome value :=
  fun _ => Returned (Obj [("result", Str "<table></table>")]).

Definition example_load : string -> node :=
  fun _ => page [feed_headers; feed_row "11/03/2026" "XYZ" [anchor "Volatility Pause"]].

Lemma fetchNasdaqHalts_first_success_witness :
  fetchNasdaqHalts example_parse example_load second_time_lucky nov3 =
    (Returned
       [{| symbol := "XYZ"; haltDate := "11/03/2026"; haltTime := "09:30:00";
           issueName := "XYZ Corp"; market := "NASDAQ";
           reasonCodes := "Volatility Pause"; pauseThresholdPrice := "N/A";
           resumptionDate := "11/03/2026"; resumptionQuoteTime := "09:35:00" |}],
     [Attempt 1 8000; Sleep 1000; Attempt 2 8000]) /\
  attempts_made (snd (fetchNasdaqHalts example_parse example_load second_time_lucky nov3))
    = 2%nat.
Proof.
  apply (fetchNasdaqHalts_first_success example_parse example_load second_time_lucky
           nov3 2).
  - lia.
  - intros i Hi. assert (i = 1%nat) as -> by lia. exists AbortError. reflexivity.
  - vm_compute. reflexivity.
Defined.

(** *** Escaping the ampersands *)

(** An ampersand that starts no entity. *)
Fixpoint has_bare_ampersand (html : string) : bool :=
  match html with
  | EmptyString => false
  | String c rest =>
      Ascii.eqb c "&" && negb (entity_rest false rest) || has_bare_ampersand rest
  end.

Lemma alnum_or_hash_not_ampersand c : alnum_or_hash c = true -> Ascii.eqb c "&" = false.
Proof.
  destruct (Ascii.eqb_spec c "&") as [-> | Hne]; [discriminate | reflexivity].
Qed.

Lemma entity_rest_escape html :
  forall seen, entity_rest seen (escape_ampersands html) = entity_rest seen html.
Proof.
  induction html as [| c rest IH]; intros seen; [reflexivity |].
  simpl. destruct (alnum_or_hash c) eqn:Hc.
  - rewrite (alnum_or_hash_not_ampersand c Hc). simpl. rewrite Hc. apply IH.
  - destruct (Ascii.eqb_spec c "&") as [-> | Hne]; simpl.
    + destruct (entity_rest false rest); simpl; rewrite andb_false_r; reflexivity.
    + rewrite Hc. reflexivity.
Qed.

(** X10.  After [escape_ampersands] no ampersand is left that does not start
    an entity; a text that has none is returned as it is, so escaping twice
    is escaping once. *)
Theorem escape_ampersands_idempotent (html : string) :
  has_bare_ampersand (escape_ampersands html) = false /\
  (has_bare_ampersand html = false -> escape_ampersands html = html) /\
  escape_ampersands (escape_ampersands html) = escape_ampersands html.
Proof.
  assert (Hnone : forall s, has_bare_ampersand (escape_ampersands s) = false).
  { induction s as [| c rest IH]; [reflexivity |]. simpl.
    destruct (Ascii.eqb_spec c "&") as [-> | Hne]; simpl.
    - destruct (entity_rest false rest) eqn:Hentity; simpl.
      + rewrite entity_rest_escape, Hentity. simpl. exact IH.
      + exact IH.
    - apply Ascii.eqb_neq in Hne. rewrite Hne. simpl. exact IH. }
  assert (Hid : forall s, has_bare_ampersand s = false -> escape_ampersands s = s).
  { induction s as [| c rest IH]; [reflexivity |]. simpl. intros Hbare.
    apply orb_false_iff in Hbare as [Hhere Hrest].
    rewrite Hhere, (IH Hrest). reflexivity. }
  split; [apply Hnone |]. split; [apply Hid |]. apply Hid, Hnone.
Qed.

Example escape_ampersands_example :
  escape_ampersands "AT&T &amp; B&O &#38; Q&A&" = "AT&amp;T &amp; B&amp;O &#38; Q&amp;A&amp;".
Proof. reflexivity. Qed.

(** *** Finding the table *)

(** Induction on a document: a property of the children carries to their
    element. *)
Lemma node_induction (P : node -> Prop) :
  (forall data, P (Text data)) ->
  (forall tag children, Forall P children -> P (Element tag children)) ->
  forall n, P n.
Proof.
  intros HText HElement.
  fix IH 1. intros [data | tag children].
  - apply HText.
  - apply HElement. induction children as [| c children IHc]; constructor.
    + apply IH.
    + exact IHc.
Qed.

Lemma flat_map_nil {A B : Type} (f : A -> list B) (l : list A) :
  List.flat_map f l = [] <-> Forall (fun x => f x = []) l.
Proof.
  induction l as [| x l IH]; simpl.
  - split; [constructor | reflexivity].
  - split.
    + intros H. apply app_eq_nil in H as [Hx Hl]. constructor; [exact Hx | apply IH, Hl].
    + intros H. inversion H as [| ? ? Hx Hl]; subst. rewrite Hx. apply IH, Hl.
Qed.

Lemma select_element_nil tag t children :
  select tag (Element t children) = [] ->
  String.eqb t tag = false /\ Forall (fun c => select tag c = []) children.
Proof.
  simpl. intros H. apply app_eq_nil in H as [Hhere Hbelow].
  split; [destruct (String.eqb t tag); [discriminate | reflexivity] |].
  apply flat_map_nil. exact Hbelow.
Qed.

(** No element below a document without tables has a table below it. *)
Lemma select_nil_below tag n :
  select "table" n = [] ->
  forall r, In r (select tag n) -> select "table" r = [].
Proof.
  induction n as [data | t children IH] using node_induction; intros Hnone r Hr.
  - destruct Hr.
  - pose proof (select_element_nil "table" t children Hnone) as [Ht Hchildren].
    simpl in Hr. apply in_app_or in Hr as [Hr | Hr].
    + destruct (String.eqb t tag); [| destruct Hr].
      destruct Hr as [<- | []]. exact Hnone.
    + apply in_flat_map in Hr as (c & Hc & Hr).
      rewrite Forall_forall in IH, Hchildren.
      apply (IH c (proj2 (list_elem_of_In _ _) Hc)); [| exact Hr].
      apply Hchildren. apply list_elem_of_In. exact Hc.
Qed.

Lemma first_some_none {A B : Type} (f : A -> option B) (l : list A) :
  Forall (fun x => f x = None) l -> first_some f l = None.
Proof.
  induction 1 as [| x l Hx Hl IH]; simpl; [reflexivity |]. rewrite Hx. exact IH.
Qed.

Lemma searchTable_none n : select "table" n = [] -> searchTable n = None.
Proof.
  induction n as [data | t children IH] using node_induction; intros Hnone;
    [reflexivity |].
  pose proof (select_element_nil "table" t children Hnone) as [Ht Hchildren].
  simpl. rewrite Ht. apply first_some_none.
  rewrite Forall_forall in *. intros c Hc. apply IH; [exact Hc |]. apply Hchildren, Hc.
Qed.

(** X11.  [findTableElement] finds the first table of the document in
    document order, and nothing when the document has no table: the search
    below the [root] elements, tried when the first query finds nothing,
    never finds anything either. *)
Theorem findTableElement_first_table (document : node) :
  findTableElement document =
    match select "table" document with
    | table :: _ => Some [table]
    | [] => None
    end.
Proof.
  unfold findTableElement.
  destruct (select "table" document) as [| table tables] eqn:Hnone; [| reflexivity].
  pose proof (select_nil_below "root" document Hnone) as Hroots.
  assert (Hno_table : existsb (is_tag "table") (select "root" document) = false).
  { apply not_true_is_false. intros Hex.
    apply existsb_exists in Hex as (r & Hr & Htag).
    specialize (Hroots r Hr). destruct r as [data | t children]; [discriminate |].
    apply (select_element_nil "table") in Hroots as [Ht _].
    simpl in Htag. congruence. }
  rewrite Hno_table. apply first_some_none.
  apply Forall_forall. intros c Hc. apply list_elem_of_In in Hc.
  apply in_flat_map in Hc as (r & Hr & Hc).
  apply searchTable_none.
  specialize (Hroots r Hr). destruct r as [data | t children]; [destruct Hc |].
  apply (select_element_nil "table") in Hroots as [_ Hchildren].
  rewrite Forall_forall in Hchildren. apply Hchildren.
  simpl in Hc. apply filter_In in Hc as [Hc _]. apply list_elem_of_In. exact Hc.
Qed.

(** *** The records the parser returns *)

Lemma parseNasdaqTable_rows today document :
  parseNasdaqTable today document =
    match table_rows document with
    | None => []
    | Some (headers, rows) =>
        List.map (halt_of headers)
          (List.filter (retained (todayFormatted today) headers) rows)
    end.
Proof.
  unfold parseNasdaqTable, table_rows.
  destruct (findTableElement document) as [[| table tables] |]; try reflexivity.
  destruct (List.flat_map (find "tr") (table :: tables)) as [| first rows];
    [reflexivity |].
  apply fold_process_row.
Qed.

Lemma present_or_NA value : present value = true -> value = Some (or_NA value).
Proof.
  destruct value as [s |]; [| discriminate]. simpl.
  destruct (is_empty s); [discriminate | reflexivity].
Qed.

(** X12.  The parser makes nothing up: it returns at most one record per
    data row, each record is the record of a row of the table, and its
    symbol is the non-empty text stored for that row under Issue Symbol,
    never the placeholder for a missing one. *)
Theorem parsed_halts_come_from_rows (today : Date) (document : node) :
  match table_rows document with
  | None => parseNasdaqTable today document = []
  | Some (headers, rows) =>
      (List.length (parseNasdaqTable today document) <= List.length rows)%nat /\
      Forall
        (fun h =>
           symbol h <> EmptyString /\
           exists row,
             In row rows /\ h = halt_of headers row /\
             field "Issue Symbol" headers 0 (find "td" row) = Some (symbol h))
        (parseNasdaqTable today document)
  end.
Proof.
  rewrite parseNasdaqTable_rows.
  destruct (table_rows document) as [[headers rows] |]; [| reflexivity].
  split.
  - rewrite length_map. induction rows as [| row rows IH]; simpl; [lia |].
    destruct (retained (todayFormatted today) headers row); simpl; lia.
  - rewrite List.Forall_forall. intros h Hh.
    apply in_map_iff in Hh as (row & <- & Hrow).
    apply filter_In in Hrow as [Hrow Hkept].
    unfold retained in Hkept. apply andb_true_iff in Hkept as [_ Hsymbol].
    pose proof (present_or_NA _ Hsymbol) as Hfield. split.
    + simpl. unfold present in Hsymbol.
      destruct (field "Issue Symbol" headers 0 (find "td" row)) as [s |];
        [| discriminate].
      simpl. destruct s; [discriminate | discriminate].
    + exists row. split; [exact Hrow |]. split; [reflexivity | exact Hfield].
Qed.

Lemma padStart2_not_empty s : is_empty (padStart2 s) = false.
Proof. destruct s as [| c [| c' s]]; reflexivity. Qed.

Lemma todayFormatted_not_empty today : is_empty (todayFormatted today) = false.
Proof.
  unfold todayFormatted.
  pose proof (padStart2_not_empty (pretty (getMonth today + 1)%nat)) as Hmonth.
  destruct (padStart2 (pretty (getMonth today + 1)%nat)); [discriminate | reflexivity].
Qed.

(** X13.  With the Halt Date header in one column only, and not in column 5,
    every record returned carries today's date string as its halt date. *)
Theorem parsed_halts_are_dated_today
    (today : Date) (document : node) (headers : list string) (rows : list node) (i : nat) :
  table_rows document = Some (headers, rows) ->
  headers !! i = Some "Halt Date" ->
  (forall k, k <> i -> headers !! k <> Some "Halt Date") ->
  i <> 5%nat ->
  Forall (fun h => haltDate h = todayFormatted today) (parseNasdaqTable today document).
Proof.
  intros Htable Hi Huniq Hnot5.
  rewrite parseNasdaqTable_rows, Htable.
  rewrite List.Forall_forall. intros h Hh.
  apply in_map_iff in Hh as (row & <- & Hrow).
  apply filter_In in Hrow as [_ Hkept].
  unfold retained in Hkept. apply andb_true_iff in Hkept as [Hdated _].
  apply dated_spec in Hdated as (j & cell & Hj & Hcell & Htext).
  assert (j = i) as ->.
  { destruct (Nat.eq_dec j i) as [Heq | Hne]; [exact Heq |].
    exfalso. exact (Huniq j Hne Hj). }
  simpl.
  rewrite (field_at "Halt Date" cell headers (find "td" row) 0 i Hi Hcell Huniq).
  unfold cell_value. simpl.
  apply Nat.eqb_neq in Hnot5. rewrite Hnot5, Htext. simpl.
  rewrite todayFormatted_not_empty. reflexivity.
Qed.

Definition feed_page : node :=
  page [feed_headers;
        feed_row "11/02/2026" "OLD" [Text "T1"];
        feed_row "11/03/2026" "XYZ" [anchor "Volatility Pause"]].

Lemma parsed_halts_are_dated_today_witness :
  Forall (fun h => haltDate h = todayFormatted nov3) (parseNasdaqTable nov3 feed_page).
Proof.
  apply (parsed_halts_are_dated_today nov3 feed_page
           (List.map (fun th => trim (text th)) (find "th" feed_headers))
           [feed_row "11/02/2026" "OLD" [Text "T1"];
            feed_row "11/03/2026" "XYZ" [anchor "Volatility Pause"]] 0).
  - reflexivity.
  - reflexivity.
  - intros k Hk. do 10 (destruct k as [| k]; [try discriminate; try contradiction |]).
    discriminate.
  - discriminate.
Defined.


(** *** The lenient JSON parse *)

Ltac push_app :=
  repeat match goal with
    | |- context [String ?a ?x ++ ?y] =>
        change (String a x ++ y) with (String a (x ++ y))
    | |- context [EmptyString ++ ?y] => change (EmptyString ++ y) with y
    end.

Lemma append_assoc (a b c : string) : (a ++ b) ++ c = a ++ b ++ c.
Proof. induction a as [| x a IH]; push_app; [reflexivity | rewrite IH; reflexivity]. Qed.

Lemma length_append (a b : string) :
  String.length (a ++ b) = (String.length a + String.length b)%nat.
Proof. induction a as [| x a IH]; push_app; simpl; [reflexivity | rewrite IH; reflexivity]. Qed.

Lemma trimStart_append before x rest :
  is_space x = false ->
  trimStart (before ++ String x rest) = trimStart before ++ String x rest.
Proof.
  intros Hx. induction before as [| c before IH]; push_app; simpl.
  - rewrite Hx. reflexivity.
  - destruct (is_space c); [exact IH | reflexivity].
Qed.

Lemma trimEnd_append a x after :
  is_space x = false ->
  trimEnd (a ++ String x after) = a ++ String x (trimEnd after).
Proof.
  intros Hx. induction a as [| c a IH]; push_app; simpl.
  - rewrite Hx. reflexivity.
  - rewrite IH. destruct a; push_app; simpl; rewrite andb_false_r; reflexivity.
Qed.

Lemma indexOf_trimStart c s : indexOf c s = None -> indexOf c (trimStart s) = None.
Proof.
  induction s as [| x s IH]; simpl; [reflexivity |].
  destruct (Ascii.eqb x c) eqn:Hx; [discriminate |].
  destruct (indexOf c s) eqn:Hs; [discriminate |]. intros _.
  destruct (is_space x); [apply IH; reflexivity |]. simpl. rewrite Hx, Hs. reflexivity.
Qed.

Lemma indexOf_trimEnd c s : indexOf c s = None -> indexOf c (trimEnd s) = None.
Proof.
  induction s as [| x s IH]; simpl; [reflexivity |].
  destruct (Ascii.eqb x c) eqn:Hx; [discriminate |].
  destruct (indexOf c s) eqn:Hs; [discriminate |]. intros _.
  destruct (is_space x && is_empty (trimEnd s)); [reflexivity |].
  simpl. rewrite Hx, IH; reflexivity.
Qed.

Lemma indexOf_append c a rest :
  indexOf c a = None -> indexOf c (a ++ String c rest) = Some (String.length a).
Proof.
  induction a as [| x a IH]; push_app; simpl.
  - rewrite Ascii.eqb_refl. reflexivity.
  - destruct (Ascii.eqb x c); [discriminate |].
    destruct (indexOf c a); [discriminate |]. intros _. rewrite IH; reflexivity.
Qed.

Lemma lastIndexOf_none c s : indexOf c s = None -> lastIndexOf c s = None.
Proof.
  induction s as [| x s IH]; simpl; [reflexivity |].
  destruct (Ascii.eqb x c); [discriminate |].
  destruct (indexOf c s); [discriminate |]. rewrite IH; reflexivity.
Qed.

Lemma lastIndexOf_trimEnd c s : lastIndexOf c s = None -> lastIndexOf c (trimEnd s) = None.
Proof.
  induction s as [| x s IH]; simpl; [reflexivity |].
  destruct (lastIndexOf c s); [discriminate |].
  destruct (Ascii.eqb x c) eqn:Hx; [discriminate |]. intros _.
  destruct (is_space x && is_empty (trimEnd s)); [reflexivity |].
  simpl. rewrite IH, Hx; reflexivity.
Qed.

Lemma lastIndexOf_append c a after :
  lastIndexOf c after = None ->
  lastIndexOf c (a ++ String c after) = Some (String.length a).
Proof.
  intros Hafter. induction a as [| x a IH]; push_app; simpl.
  - rewrite Hafter, Ascii.eqb_refl. reflexivity.
  - rewrite IH. reflexivity.
Qed.

Lemma substring_prefix core after :
  String.substring 0 (String.length core) (core ++ after) = core.
Proof.
  induction core as [| x core IH]; push_app; simpl.
  - destruct after; reflexivity.
  - rewrite IH. reflexivity.
Qed.

Lemma substring_middle a core after :
  String.substring (String.length a) (String.length core) (a ++ core ++ after) = core.
Proof.
  induction a as [| x a IH]; push_app; simpl; [apply substring_prefix | exact IH].
Qed.

Section Lenient.

Variable JSON_parse : string -> outcome value.

(** X14.  [parse_json] recovers an object wrapped in noise: when
    [JSON.parse] rejects the text, and the text is an opening brace, a body
    and a closing brace between a prefix with no opening brace and a suffix
    with no closing brace, what is parsed instead is exactly the braces and
    the body.  A rejected text without an opening brace is an Invalid JSON
    response error carrying the parser's message. *)
Theorem parse_json_recovers_wrapped (before inner after : string) (e : error) :
  indexOf "{" before = None ->
  lastIndexOf "}" after = None ->
  (JSON_parse (before ++ "{" ++ inner ++ "}" ++ after) = Thrown e ->
   parse_json JSON_parse (before ++ "{" ++ inner ++ "}" ++ after) =
     JSON_parse ("{" ++ inner ++ "}")) /\
  (JSON_parse before = Thrown e ->
   parse_json JSON_parse before = Thrown (Error ("Invalid JSON response: " ++ message e))).
Proof.
  intros Hbefore Hafter. split; intros Hthrown; unfold parse_json; rewrite Hthrown.
  - unfold trim.
    change (before ++ "{" ++ inner ++ "}" ++ after)
      with (before ++ String "{" (inner ++ String "}" after)).
    rewrite trimStart_append by reflexivity.
    set (b := trimStart before).
    replace (b ++ String "{" (inner ++ String "}" after))
      with ((b ++ String "{" inner) ++ String "}" after)
      by (rewrite append_assoc; reflexivity).
    rewrite trimEnd_append by reflexivity.
    set (a := trimEnd after).
    rewrite (lastIndexOf_append "}" (b ++ String "{" inner) a)
      by (apply lastIndexOf_trimEnd; exact Hafter).
    rewrite append_assoc. push_app.
    rewrite (indexOf_append "{" b (inner ++ String "}" a))
      by (apply indexOf_trimStart; exact Hbefore).
    rewrite length_append. simpl String.length.
    replace (String.length b <? String.length b + S (String.length inner))%nat with true
      by (symmetry; apply Nat.ltb_lt; lia).
    unfold substring.
    replace (String.length b + S (String.length inner) + 1 - String.length b)%nat
      with (String.length (String "{" (inner ++ "}")))
      by (simpl; rewrite length_append; simpl; lia).
    replace (b ++ String "{" (inner ++ String "}" a))
      with (b ++ String "{" (inner ++ "}") ++ a)
      by (push_app; rewrite append_assoc; reflexivity).
    rewrite substring_middle. reflexivity.
  - unfold trim. rewrite (indexOf_trimEnd "{" _ (indexOf_trimStart "{" before Hbefore)).
    reflexivity.
Qed.

End Lenient.

(** A parser that takes only what starts with a brace. *)
Definition strict_parse (text : string) : outcome value :=
  if String.prefix "{" text then Returned (Obj [("result", Str text)])
  else Thrown (mkError "SyntaxError" "Unexpected token").

Lemma parse_json_recovers_wrapped_witness :
  parse_json strict_parse (" <!-- cached --> " ++ "{" ++ "result:1" ++ "}" ++ " <br/> ") =
    strict_parse ("{" ++ "result:1" ++ "}") /\
  parse_json strict_parse "<h1>Service Unavailable</h1>" =
    Thrown (Error "Invalid JSON response: Unexpected token").
Proof.
  split.
  - apply (proj1 (parse_json_recovers_wrapped strict_parse " <!-- cached --> "
                    "result:1" " <br/> " (mkError "SyntaxError" "Unexpected token")
                    eq_refl eq_refl)).
    reflexivity.
  - apply (proj2 (parse_json_recovers_wrapped strict_parse "<h1>Service Unavailable</h1>"
                    EmptyString EmptyString (mkError "SyntaxError" "Unexpected token")
                    eq_refl eq_refl)).
    reflexivity.
Defined.

End HaltFeed.

(** ** More on the symbol route: [withRetry] and its callers *)

Module SymbolRoute.

Import JS ProcessSymbol.
Import HaltFeed(attempts_made, time_slept, attempts_made_app, time_slept_app).

Section Retry.

Context {T : Type}.
Variable fn : nat -> settled T.
Variable functionName : string.
Variable maxRetries : nat.
Variable timeoutMs : Z.

Local Abbreviation loop := (attempts fn functionName maxRetries timeoutMs).

Lemma withRetry_attempts_first_success failed :
  forall remaining attempt lastError trace result,
    (failed < remaining)%nat ->
    (forall i, (attempt <= i < attempt + failed)%nat -> forall v, fn i <> Fulfilled v) ->
    fn (attempt + failed)%nat = Fulfilled result ->
    loop remaining attempt lastError trace =
      (Returned result,
       (trace ++ Halts.exhausted timeoutMs maxRetries attempt failed ++
        [Attempt (attempt + failed) timeoutMs])%list).
Proof.
  induction failed as [| failed IH]; intros remaining attempt lastError trace result
    Hlt Hfail Hok; (destruct remaining as [| remaining]; [lia |]); simpl.
  - rewrite Nat.add_0_r in *. rewrite Hok. reflexivity.
  - destruct (fn attempt) as [v | e |] eqn:Hfn;
      [exfalso; apply (Hfail attempt ltac:(lia) v Hfn) | |]; simpl;
      (rewrite (IH remaining (S attempt) _ _ result);
       [ replace (S attempt + failed)%nat with (attempt + S failed)%nat by lia;
         f_equal; destruct (attempt <? maxRetries)%nat; simpl;
         repeat rewrite <- app_assoc; reflexivity
       | lia
       | intros i Hi; apply Hfail; lia
       | replace (S attempt + failed)%nat with (attempt + S failed)%nat by lia;
         exact Hok ]).
Qed.

Lemma last_error_last remaining :
  forall attempt lastError,
    last_error fn (S remaining) attempt lastError =
      Some (failure (fn (attempt + remaining)%nat)).
Proof.
  induction remaining as [| remaining IH]; intros attempt lastError.
  - simpl. rewrite Nat.add_0_r. reflexivity.
  - change (last_error fn (S (S remaining)) attempt lastError)
      with (last_error fn (S remaining) (S attempt) (Some (failure (fn attempt)))).
    rewrite IH. do 3 f_equal. lia.
Qed.

Lemma exhausted_attempts_made remaining :
  forall attempt,
    attempts_made (Halts.exhausted timeoutMs maxRetries attempt remaining) = remaining.
Proof.
  induction remaining as [| remaining IH]; intros attempt; simpl; [reflexivity |].
  rewrite attempts_made_app, IH.
  destruct (attempt <? maxRetries)%nat; reflexivity.
Qed.

(** The sleeps of a loop that runs out, from [attempt] to the last one. *)
Lemma exhausted_time_slept remaining :
  forall attempt,
    (attempt + remaining = S maxRetries)%nat -> (1 <= remaining)%nat ->
    (2 * time_slept (Halts.exhausted timeoutMs maxRetries attempt remaining) =
     1000 * (Z.of_nat maxRetries * (Z.of_nat maxRetries - 1) -
             Z.of_nat attempt * (Z.of_nat attempt - 1)))%Z.
Proof.
  induction remaining as [| remaining IH]; intros attempt Hsum Hpos; [lia |].
  change (Halts.exhausted timeoutMs maxRetries attempt (S remaining))
    with (Attempt attempt timeoutMs ::
          (if (attempt <? maxRetries)%nat then [Sleep (Z.of_nat attempt * 1000)] else []) ++
          Halts.exhausted timeoutMs maxRetries (S attempt) remaining).
  cbn [time_slept]. rewrite time_slept_app.
  destruct remaining as [| remaining].
  - assert (attempt = maxRetries) as -> by lia.
    rewrite Nat.ltb_irrefl. simpl. lia.
  - pose proof (IH (S attempt) ltac:(lia) ltac:(lia)) as Hrest.
    replace (attempt <? maxRetries)%nat with true by (symmetry; apply Nat.ltb_lt; lia).
    cbn [time_slept]. nia.
Qed.

(** X15.  [withRetry] returns the result of the first attempt that is
    fulfilled, after exactly the attempts up to it and a sleep of [i]
    seconds after each failed attempt [i]; no attempt and no sleep follow. *)
Theorem withRetry_first_success (k : nat) (result : T) :
  (1 <= k <= maxRetries)%nat ->
  (forall i, (1 <= i < k)%nat -> forall v, fn i <> Fulfilled v) ->
  fn k = Fulfilled result ->
  withRetry fn functionName maxRetries timeoutMs =
    (Returned result,
     (Halts.exhausted timeoutMs maxRetries 1 (k - 1) ++ [Attempt k timeoutMs])%list) /\
  attempts_made (snd (withRetry fn functionName maxRetries timeoutMs)) = k.
Proof.
  intros Hk Hfail Hok.
  assert (Heq : withRetry fn functionName maxRetries timeoutMs =
    (Returned result,
     (Halts.exhausted timeoutMs maxRetries 1 (k - 1) ++ [Attempt k timeoutMs])%list)).
  { unfold withRetry.
    rewrite (withRetry_attempts_first_success (k - 1) maxRetries 1 None [] result).
    - replace (1 + (k - 1))%nat with k by lia. reflexivity.
    - lia.
    - intros i Hi. apply Hfail. lia.
    - replace (1 + (k - 1))%nat with k by lia. exact Hok. }
  split; [exact Heq |]. rewrite Heq. simpl.
  rewrite attempts_made_app, exhausted_attempts_made. simpl. lia.
Qed.

(** X16.  When none of its [maxRetries] attempts is fulfilled, [withRetry]
    makes them all and throws the error of the last one; it has slept
    1000 * maxRetries * (maxRetries - 1) / 2 milliseconds in all.  With no
    attempt allowed it throws its own error, having tried nothing. *)
Theorem withRetry_exhausted :
  (forall i, (1 <= i <= maxRetries)%nat -> forall v, fn i <> Fulfilled v) ->
  fst (withRetry fn functionName maxRetries timeoutMs) =
    Thrown
      (match maxRetries with
       | O => Error (functionName ++ " failed after " ++ pretty maxRetries ++ " attempts")
       | S _ => failure (fn maxRetries)
       end) /\
  attempts_made (snd (withRetry fn functionName maxRetries timeoutMs)) = maxRetries /\
  (2 * time_slept (snd (withRetry fn functionName maxRetries timeoutMs)) =
   1000 * (Z.of_nat maxRetries * (Z.of_nat maxRetries - 1)))%Z.
Proof.
  intros Hfail. unfold withRetry.
  rewrite withRetry_attempts_exhausted by (intros i Hi; apply Hfail; lia).
  simpl fst. simpl snd. split; [| split].
  - destruct maxRetries as [| n] eqn:Hn; [reflexivity |].
    rewrite last_error_last. do 3 f_equal.
  - apply exhausted_attempts_made.
  - destruct maxRetries as [| n] eqn:Hn; [reflexivity |].
    rewrite <- Hn. rewrite exhausted_time_slept by lia. simpl. lia.
Qed.

End Retry.

Definition third_time_lucky (attempt : nat) : settled nat :=
  if (attempt <? 3)%nat then TimedOut else Fulfilled 7%nat.

Lemma withRetry_first_success_witness :
  withRetry third_time_lucky "Premarket Low" 3 10000 =
    (Returned 7%nat,
     [Attempt 1 10000; Sleep 1000; Attempt 2 10000; Sleep 2000; Attempt 3 10000]) /\
  attempts_made (snd (withRetry third_time_lucky "Premarket Low" 3 10000)) = 3%nat.
Proof.
  apply (withRetry_first_success third_time_lucky "Premarket Low" 3 10000 3 7%nat).
  - lia.
  - intros i Hi v. assert (i = 1 \/ i = 2)%nat as [-> | ->] by lia; discriminate.
  - reflexivity.
Defined.

Definition always_refused (attempt : nat) : settled nat :=
  Rejected (Error "HTTP 429: Too Many Requests").

Lemma withRetry_exhausted_witness :
  fst (withRetry always_refused "ETF/ETN Check" 2 8000) =
    Thrown (Error "HTTP 429: Too Many Requests") /\
  attempts_made (snd (withRetry always_refused "ETF/ETN Check" 2 8000)) = 2%nat /\
  (2 * time_slept (snd (withRetry always_refused "ETF/ETN Check" 2 8000)) =
   1000 * (Z.of_nat 2 * (Z.of_nat 2 - 1)))%Z.
Proof.
  apply (withRetry_exhausted always_refused "ETF/ETN Check" 2 8000).
  intros i Hi v. discriminate.
Defined.

(** *** The helpers and the handler *)

(** [promise.catch(handler)] *)
Definition catch {T : Type} (handler : error -> T) (run : outcome T * list event)
    : T * list event :=
  match fst run with
  | Returned result => (result, snd run)
  | Thrown e => (handler e, snd run)
  end.

(** The inner function of each helper, by how its call settles in each
    attempt. *)
Record sources : Type := {
  profile : nat -> settled value;
  premarket : nat -> settled value;
  close : nat -> settled value;
  etf : nat -> settled value;
  news : nat -> settled value;
  filing : nat -> settled value
}.

Definition scrapeYahooProfileExecutives (s : sources) : outcome value * list event :=
  withRetry (profile s) "Yahoo Profile" 3 15000.

Definition getPremarketLow (s : sources) : value * list event :=
  catch (fun _ => Null) (withRetry (premarket s) "Premarket Low" 3 10000).

Definition getPreviousClose (s : sources) : value * list event :=
  catch (fun _ => Num zero) (withRetry (close s) "Previous Close" 3 10000).

Definition checkEtnEtf (s : sources) : value * list event :=
  catch (fun _ => Str EmptyString) (withRetry (etf s) "ETF/ETN Check" 2 8000).

Definition scrapeZacksNews (s : sources) : value * list event :=
  catch (fun _ => Arr []) (withRetry (news s) "Zacks News" 3 10000).

(** [error.message || 'Unknown error'] *)
Definition message_or_unknown (e : error) : string :=
  if is_empty (message e) then "Unknown error" else message e.

Definition getSecFiling (s : sources) : value * list event :=
  catch (fun e => Str ("No SEC filings found - " ++ message_or_unknown e))
    (withRetry (filing s) "SEC Filing" 3 10000).

(** The answers of [POST]: 400, 500, and the data of the symbol. *)
Inductive reply : Type :=
  | SymbolRequired
  | InternalServerError
  | SymbolData (symbol : string)
      (executives premarketLow previousClose isEtfEtn news secFiling : value).

Definition NO_EXECUTIVES : value :=
  Obj [("country", Str "Error"); ("executives", Arr [])].

Section Handler.

(** [String.prototype.toUpperCase] *)
Variable toUpperCase : string -> string.

(** The sources of a ticker. *)
Variable lookup : string -> sources.

(** [POST]: the body of the request, the six helpers under
    [Promise.allSettled], and the answer; with the trace of each helper. *)
Definition POST (body : outcome value) : reply * list (list event) :=
  match body with
  | Thrown _ => (InternalServerError, [])
  | Returned json =>
      match get json "symbol" with
      | None => (InternalServerError, [])
      | Some (Str symbol) =>
          if is_empty symbol then (SymbolRequired, [])
          else
            let ticker := toUpperCase (trim symbol) in
            let s := lookup ticker in
            let executiveData := scrapeYahooProfileExecutives s in
            let premarketLow := getPremarketLow s in
            let previousClose := getPreviousClose s in
            let isEtfEtn := checkEtnEtf s in
            let newsData := scrapeZacksNews s in
            let secFiling := getSecFiling s in
            (SymbolData ticker
               match fst executiveData with
               | Returned executives => executives
               | Thrown _ => NO_EXECUTIVES
               end
               (fst premarketLow) (fst previousClose) (fst isEtfEtn) (fst newsData)
               (fst secFiling),
             [snd executiveData; snd premarketLow; snd previousClose; snd isEtfEtn;
              snd newsData; snd secFiling])
      | Some _ => (SymbolRequired, [])
      end
  end.

Definition never_fulfilled (fn : nat -> settled value) : Prop :=
  forall i v, fn i <> Fulfilled v.

Lemma withRetry_never_fulfilled fn name n timeoutMs :
  never_fulfilled fn ->
  withRetry fn name (S n) timeoutMs =
    (Thrown (failure (fn (S n))), Halts.exhausted timeoutMs (S n) 1 (S n)).
Proof.
  intros Hnever. unfold withRetry.
  rewrite withRetry_attempts_exhausted by (intros i _; apply Hnever).
  rewrite last_error_last. reflexivity.
Qed.

(** X17.  One source that fails does not fail the answer: [POST] with a
    symbol answers with the symbol's data whatever the sources do.  When no
    source is ever fulfilled the data are the defaults (no executives, no
    premarket low, previous close 0, no ETF mark, no news, and the message of
    the filing source's last error), after 17 attempts in all. *)
Theorem POST_isolates_failures (json : value) (symbol : string) :
  get json "symbol" = Some (Str symbol) ->
  is_empty symbol = false ->
  let s := lookup (toUpperCase (trim symbol)) in
  (exists executives premarketLow previousClose isEtfEtn newsData secFiling,
     fst (POST (Returned json)) =
       SymbolData (toUpperCase (trim symbol)) executives premarketLow previousClose
         isEtfEtn newsData secFiling) /\
  (never_fulfilled (profile s) -> never_fulfilled (premarket s) ->
   never_fulfilled (close s) -> never_fulfilled (etf s) ->
   never_fulfilled (news s) -> never_fulfilled (filing s) ->
   fst (POST (Returned json)) =
     SymbolData (toUpperCase (trim symbol)) NO_EXECUTIVES Null (Num zero)
       (Str EmptyString) (Arr [])
       (Str ("No SEC filings found - " ++ message_or_unknown (failure (filing s 3%nat)))) /\
   List.map attempts_made (snd (POST (Returned json))) = [3; 3; 3; 2; 3; 3]%nat).
Proof.
  intros Hsymbol Hnonempty s. unfold POST. rewrite Hsymbol, Hnonempty. fold s.
  split; [repeat eexists |].
  intros Hprofile Hpremarket Hclose Hetf Hnews Hfiling.
  unfold scrapeYahooProfileExecutives, getPremarketLow, getPreviousClose, checkEtnEtf,
    scrapeZacksNews, getSecFiling, catch.
  rewrite !withRetry_never_fulfilled by assumption.
  split; reflexivity.
Qed.

(** X18.  A request without a usable symbol is turned down before anything
    is fetched: a body whose [symbol] is missing, empty or not a string gets
    the answer 400 and no helper runs. *)
Theorem POST_requires_symbol (json v : value) :
  get json "symbol" = Some v ->
  (forall symbol, v = Str symbol -> symbol = EmptyString) ->
  POST (Returned json) = (SymbolRequired, []).
Proof.
  intros Hsymbol Hbad. unfold POST. rewrite Hsymbol.
  destruct v as [| | b | n | symbol | items | fields]; try reflexivity.
  rewrite (Hbad symbol eq_refl). reflexivity.
Qed.

End Handler.

(** Upper case for the letters a to z, for the examples. *)
Definition upper_char (c : ascii) : ascii :=
  let n := nat_of_ascii c in
  if ((97 <=? n) && (n <=? 122))%nat then ascii_of_nat (n - 32) else c.

Fixpoint upper (s : string) : string :=
  match s with
  | EmptyString => EmptyString
  | String c rest => String (upper_char c) (upper rest)
  end.

Definition all_down : sources :=
  {| profile := fun _ => TimedOut;
     premarket := fun _ => TimedOut;
     close := fun _ => Rejected (Error "HTTP 503: Service Unavailable");
     etf := fun _ => TimedOut;
     news := fun _ => TimedOut;
     filing := fun _ => Rejected (Error "HTTP 503: Service Unavailable") |}.

Lemma POST_isolates_failures_witness :
  fst (POST upper (fun _ => all_down) (Returned (Obj [("symbol", Str " aapl ")]))) =
    SymbolData "AAPL" NO_EXECUTIVES Null (Num zero) (Str EmptyString) (Arr [])
      (Str "No SEC filings found - HTTP 503: Service Unavailable") /\
  List.map attempts_made
    (snd (POST upper (fun _ => all_down) (Returned (Obj [("symbol", Str " aapl ")])))) =
    [3; 3; 3; 2; 3; 3]%nat.
Proof.
  apply (proj2 (POST_isolates_failures upper (fun _ => all_down)
                  (Obj [("symbol", Str " aapl ")]) " aapl " eq_refl eq_refl));
    intros i v; discriminate.
Defined.

Lemma POST_requires_symbol_witness :
  POST upper (fun _ => all_down) (Returned (Obj [("symbol", Num (Fin 42))])) =
    (SymbolRequired, []).
Proof.
  apply (POST_requires_symbol upper (fun _ => all_down)
           (Obj [("symbol", Num (Fin 42))]) (Num (Fin 42)) eq_refl).
  intros symbol Hsymbol. discriminate Hsymbol.
Defined.

(** *** The ETF check *)

Record listing : Type := {
  ok : bool;
  json : outcome value
}.

Section EtfCheck.

Variable toUpperCase : string -> string.

(** The answer of the screener to the request for each page. *)
Variable pages : nat -> outcome listing.

Variable symbol : string.

(** [item.s && item.s.toUpperCase() === symbol.toUpperCase()] *)
Definition item_matches (item : value) : outcome bool :=
  match get_or_throw item "s" with
  | Thrown e => Thrown e
  | Returned s =>
      if truthy s then
        match s with
        | Str name => Returned (String.eqb (toUpperCase name) (toUpperCase symbol))
        | _ => Thrown (mkError "TypeError" "item.s.toUpperCase is not a function")
        end
      else Returned false
  end.

(** [items.some(item => ...)] *)
Fixpoint some (items : list value) : outcome bool :=
  match items with
  | [] => Returned false
  | item :: rest =>
      match item_matches item with
      | Thrown e => Thrown e
      | Returned true => Returned true
      | Returned false => some rest
      end
  end.

(** [json.data && json.data.data && Array.isArray(json.data.data)], with the
    array when the test holds. *)
Definition listed (json : value) : outcome (option (list value)) :=
  match get_or_throw json "data" with
  | Thrown e => Thrown e
  | Returned data =>
      if truthy data then
        match get_opt data "data" with
        | Arr items => Returned (Some items)
        | _ => Returned None
        end
      else Returned None
  end.

(** The [for (let page = 1; page <= 3; page++)] loop of the inner function:
    its result and the pages it asked for. *)
Fixpoint check_pages (remaining page : nat) (asked : list nat) : outcome string * list nat :=
  match remaining with
  | O => (Returned EmptyString, asked)
  | S remaining' =>
      let asked := (asked ++ [page])%list in
      match pages page with
      | Thrown e => (Thrown e, asked)
      | Returned response =>
          if negb (ok response) then check_pages remaining' (S page) asked
          else
            match json response with
            | Thrown e => (Thrown e, asked)
            | Returned json =>
                match listed json with
                | Thrown e => (Thrown e, asked)
                | Returned None => check_pages remaining' (S page) asked
                | Returned (Some items) =>
                    match some items with
                    | Thrown e => (Thrown e, asked)
                    | Returned true => (Returned "YES", asked)
                    | Returned false => check_pages remaining' (S page) asked
                    end
                end
            end
      end
  end.

Definition etf_check : outcome string * list nat := check_pages 3 1 [].

(** The symbol is on [page]: the page is answered with a list that has an
    item named like the symbol, letter case apart. *)
Definition on_page (page : nat) : Prop :=
  exists response data items item name,
    pages page = Returned response /\ ok response = true /\
    json response = Returned data /\ listed data = Returned (Some items) /\
    In item items /\ get item "s" = Some (Str name) /\
    toUpperCase name = toUpperCase symbol.

End EtfCheck.

Section EtfFacts.

Variable toUpperCase : string -> string.
Variable pages : nat -> outcome listing.
Variable symbol : string.

Lemma some_true items :
  some toUpperCase symbol items = Returned true ->
  exists item name,
    In item items /\ get item "s" = Some (Str name) /\
    toUpperCase name = toUpperCase symbol.
Proof.
  induction items as [| item items IH]; simpl; [discriminate |].
  destruct (item_matches toUpperCase symbol item) as [[|] | e] eqn:Hitem;
    [| | discriminate].
  - intros _. exists item. unfold item_matches, get_or_throw in Hitem.
    destruct (get item "s") as [s |]; [| discriminate].
    destruct (truthy s); [| discriminate].
    destruct s as [| | b | n | name | l | f]; try discriminate.
    exists name. injection Hitem as Heq. apply String.eqb_eq in Heq. auto.
  - intros Hrest. destruct (IH Hrest) as (it & name & Hin & Hs & Heq).
    exists it, name. auto.
Qed.

(** One turn of the loop that does not end it leaves the page asked for. *)
Lemma check_pages_asked remaining :
  forall page asked result asked',
    check_pages toUpperCase pages symbol remaining page asked = (Returned result, asked') ->
    (result = "YES" /\
     exists hit, (hit < remaining)%nat /\
       asked' = (asked ++ seq page (S hit))%list /\
       on_page toUpperCase pages symbol (page + hit)) \/
    (result = EmptyString /\ asked' = (asked ++ seq page remaining)%list).
Proof.
  induction remaining as [| remaining IH]; intros page asked result asked'; simpl.
  - intros H. injection H as <- <-. right. rewrite app_nil_r. auto.
  - assert (Hnext : check_pages toUpperCase pages symbol remaining (S page)
                      (asked ++ [page])%list = (Returned result, asked') ->
        (result = "YES" /\
         exists hit, (hit < S remaining)%nat /\
           asked' = (asked ++ page :: seq (S page) hit)%list /\
           on_page toUpperCase pages symbol (page + hit)) \/
        (result = EmptyString /\ asked' = (asked ++ page :: seq (S page) remaining)%list)).
    { intros H. destruct (IH _ _ _ _ H) as [(Hyes & hit & Hlt & Hasked & Hon) | (Hno & Hasked)].
      - left. split; [exact Hyes |]. exists (S hit). split; [lia |].
        split; [rewrite Hasked, <- app_assoc; reflexivity |].
        replace (page + S hit)%nat with (S page + hit)%nat by lia. exact Hon.
      - right. split; [exact Hno |]. rewrite Hasked, <- app_assoc. reflexivity. }
    destruct (pages page) as [response | e] eqn:Hpage; [| discriminate].
    destruct (ok response) eqn:Hok; simpl; [| exact Hnext].
    destruct (json response) as [data | e] eqn:Hjson; [| discriminate].
    destruct (listed data) as [[items |] | e] eqn:Hlisted;
      [| exact Hnext | discriminate].
    destruct (some toUpperCase symbol items) as [[|] | e] eqn:Hsome;
      [| exact Hnext | discriminate].
    intros H. injection H as <- <-. left. split; [reflexivity |].
    exists 0%nat. split; [lia |]. split; [reflexivity |].
    rewrite Nat.add_0_r.
    destruct (some_true items Hsome) as (item & name & Hin & Hs & Heq).
    exists response, data, items, item, name. auto 10.
Qed.

(** X19.  The ETF check answers YES only for a symbol it found: when it
    returns, it returns YES, having asked for the pages up to one that lists
    the symbol, letter case apart, and for none after it, or it returns the
    empty string, having asked for the three pages. *)
Theorem etf_check_stops_at_first_listing (result : string) (asked : list nat) :
  etf_check toUpperCase pages symbol = (Returned result, asked) ->
  (result = "YES" /\
   exists page, (1 <= page <= 3)%nat /\ asked = seq 1 page /\
     on_page toUpperCase pages symbol page) \/
  (result = EmptyString /\ asked = [1; 2; 3]%nat).
Proof.
  unfold etf_check. intros Hcheck.
  destruct (check_pages_asked 3 1 [] result asked Hcheck)
    as [(Hyes & hit & Hlt & Hasked & Hon) | (Hno & Hasked)].
  - left. split; [exact Hyes |]. exists (S hit). split; [lia |].
    split; [exact Hasked | exact Hon].
  - right. split; [exact Hno | exact Hasked].
Qed.

End EtfFacts.

(** A screener that lists the symbol on its second page. *)
Definition screener (page : nat) : outcome listing :=
  Returned
    {| ok := true;
       json :=
         Returned
           (Obj [("data",
                  Obj [("data",
                        Arr (match page with
                             | 2%nat => [Obj [("s", Str "SPY")]; Obj [("s", Str "qqq")]]
                             | _ => [Obj [("s", Str "IVV")]]
                             end))])]) |}.

Lemma etf_check_stops_at_first_listing_witness :
  ("YES" = "YES" /\
   exists page, (1 <= page <= 3)%nat /\ [1; 2]%nat = seq 1 page /\
     on_page upper screener "QQQ" page) \/
  ("YES" = EmptyString /\ [1; 2]%nat = [1; 2; 3]%nat).
Proof.
  apply (etf_check_stops_at_first_listing upper screener "QQQ" "YES" [1; 2]%nat).
  reflexivity.
Defined.

End SymbolRoute.

(** ** The real-time quotes route: [GET], [processQuoteMediaResponse] *)

Module RealtimeQuotes.

Import JS QuoteMediaAuth.
Local Open Scope Z_scope.

Local Notation "a ||| b" := (or a b) (at level 50, left associativity).
Local Notation "v .[ k ]" := (get_opt v k) (at level 1, format "v .[ k ]").

Definition Zero : value := Num zero.
Definition NA : value := Str "N/A".
Definition Empty : value := Str EmptyString.

(** The three parameters of the [getSnapQuotes.json] URL; the symbols are
    held as they are before [encodeURIComponent]. *)
Record snap_request : Type := {
  snap_webmasterId : string;
  snap_symbols : string;
  snap_sid : value
}.

(** The quote service: its answer to a request, given the requests before
    it, and how long the answer takes. *)
Record feed : Type := {
  answer : list snap_request -> snap_request -> outcome response;
  delay : list snap_request -> snap_request -> Z
}.

(** The credential module with its clock, and the quote requests sent. *)
Record state : Type := {
  auth : world;
  asked : list snap_request
}.

(** The answers of the route: status 401, 200 and 500. *)
Inductive reply : Type :=
  | Unauthorized
  | Quotes (quotes : list value) (symbolCount : value)
  | ServerError (message : string).

(** An error in a template literal: [Error.prototype.toString]. *)
Definition error_string (e : error) : string :=
  if is_empty (name e) then message e
  else if is_empty (message e) then name e
  else name e ++ ": " ++ message e.

(** [searchParams.get(name) || fallback] *)
Definition param_or (x : option string) (fallback : string) : string :=
  match x with
  | Some s => if is_empty s then fallback else s
  | None => fallback
  end.

Definition DEFAULT_SYMBOLS : string := "MSFT,AAPL,TSLA,NVDA,ACAD,TNFA".

Definition RETRY_FAILED : string := "Failed to retry after authentication: ".

(** [searchParams.get('symbols') || 'MSFT,AAPL,TSLA,NVDA,ACAD,TNFA'] *)
Definition requested (symbolsParam : option string) : string :=
  param_or symbolsParam DEFAULT_SYMBOLS.

Section Route.

Variable E : env.
Variable N : network.
Variable F : feed.

(** The [*] of the platform. *)
Variable multiply : value -> value -> value.

(** [new Date().toISOString()] *)
Variable now : string.

(** The arrow function of [data.quotedata.map].  The reads on [quoteItem]
    throw when it is [null] or [undefined], those on [quoteItem.pricedata]
    when that is. *)
Definition normalize (quoteItem : value) : outcome value :=
  match quoteItem with
  | Undefined | Null => Thrown (TypeError quoteItem "symbol")
  | _ =>
      let pricedata := quoteItem.["pricedata"] in
      match pricedata with
      | Undefined | Null => Thrown (TypeError pricedata "last")
      | _ =>
          Returned
            (Obj
               [("symbol", quoteItem.["symbol"] ||| quoteItem.["symbolstring"] ||| Empty);
                ("companyName",
                 quoteItem.["longname"] ||| quoteItem.["shortname"] |||
                 quoteItem.["symbol"] ||| Empty);
                ("shortName",
                 quoteItem.["shortname"] ||| quoteItem.["longname"] |||
                 quoteItem.["symbol"] ||| Empty);
                ("datatype", quoteItem.["datatype"] ||| Str "unknown");
                ("price", pricedata.["last"] ||| Zero);
                ("close", pricedata.["close"] ||| pricedata.["last"] ||| Zero);
                ("change", pricedata.["change"] ||| Zero);
                ("changePercent", pricedata.["changepercent"] ||| Zero);
                ("open", pricedata.["open"] ||| Zero);
                ("high", pricedata.["high"] ||| Zero);
                ("low", pricedata.["low"] ||| Zero);
                ("previousClose", pricedata.["prevclose"] ||| Zero);
                ("volume", pricedata.["sharevolume"] ||| Zero);
                ("tradeVolume", pricedata.["tradevolume"] ||| Zero);
                ("lastTradeSize", pricedata.["lasttradesize"] ||| Zero);
                ("bid", pricedata.["bid"] ||| Zero);
                ("ask", pricedata.["ask"] ||| Zero);
                ("bidSize", pricedata.["bidsize"] ||| Zero);
                ("askSize", pricedata.["asksize"] ||| Zero);
                ("lastSize", pricedata.["lasttradesize"] ||| Zero);
                ("exchange", quoteItem.["exchange"] ||| NA);
                ("exchangeLongName", quoteItem.["exLgName"] ||| NA);
                ("exchangeShortName",
                 quoteItem.["exShName"] ||| quoteItem.["exchange"] ||| NA);
                ("exchangeLong", quoteItem.["exLgName"] ||| quoteItem.["exchange"] ||| NA);
                ("lastUpdate", quoteItem.["datetime"] ||| Str now);
                ("lastTradeTime",
                 pricedata.["lasttradedatetime"] ||| quoteItem.["datetime"] ||| Empty);
                ("exchangeTimestamp", quoteItem.["datetime"] ||| Empty);
                ("quoteTimestamp",
                 pricedata.["lastquotedatetime"] ||| quoteItem.["datetime"] ||| Empty);
                ("isCurrentlyOpen", quoteItem.["iscurrentlyopen"] ||| Bool false);
                ("isOpen", quoteItem.["isopen"] ||| Bool false);
                ("delayMinutes", quoteItem.["delaymin"] ||| Zero);
                ("marketStatus",
                 Str (if truthy quoteItem.["iscurrentlyopen"] then "open" else "closed"));
                ("averageVolume", Zero);
                ("premarketPrice", Zero);
                ("afterHoursPrice", Zero);
                ("premarketChange", Zero);
                ("afterHoursChange", Zero);
                ("premarketChangePercent", Zero);
                ("afterHoursChangePercent", Zero);
                ("dollarVolume",
                 multiply (pricedata.["sharevolume"] ||| Zero) (pricedata.["last"] ||| Zero));
                ("marketCap", NA);
                ("pe", Null);
                ("eps", Null);
                ("dividend", Null);
                ("yield", Null);
                ("beta", Null);
                ("sharesOutstanding", NA);
                ("week52High", Zero);
                ("week52Low", Zero);
                ("imbalanceSize", (pricedata.["imbalance"]).["imbalancesize"] ||| Zero);
                ("lastMarketId", pricedata.["lastmarketidentificationcode"] ||| NA);
                ("bidMarketId", pricedata.["bidmarketidentificationcode"] ||| NA);
                ("askMarketId", pricedata.["askmarketidentificationcode"] ||| NA)])
      end
  end.

(** The [quotes] and the [symbolCount] of the answer. *)
Definition processQuoteMediaResponse (data : value) : outcome (list value * value) :=
  match get_or_throw data "quotedata" with
  | Thrown e => Thrown e
  | Returned (Arr items) =>
      match QuoteMediaProxy.map_outcome normalize items with
      | Thrown e => Thrown e
      | Returned quotes => Returned (quotes, data.["symbolcount"])
      end
  | Returned _ => Thrown (Error "Invalid response format from QuoteMedia API")
  end.

Definition snap (symbols : string) (sid : value) : snap_request :=
  {| snap_webmasterId := env_or (QUOTEMEDIA_WEBMASTER_ID E) "501";
     snap_symbols := symbols;
     snap_sid := sid |}.

(** [await fetch(quoteMediaUrl, ...)] *)
Definition fetch_quotes (r : snap_request) (s : state) : outcome response * state :=
  (answer F (asked s) r,
   {| auth := {| module := module (auth s); sent := sent (auth s);
                 clock := clock (auth s) + delay F (asked s) r |};
      asked := (asked s ++ [r])%list |}).

(** The inner [try] block, entered after [clearCachedSid()]. *)
Definition retry (symbols : string) (s : state) : outcome (list value * value) * state :=
  let '(res, w1) := getQuoteMediaSid E N (auth s) in
  let s1 := {| auth := w1; asked := asked s |} in
  match res with
  | Thrown e => (Thrown e, s1)
  | Returned newSid =>
      let '(res, s2) := fetch_quotes (snap symbols newSid) s1 in
      match res with
      | Thrown e => (Thrown e, s2)
      | Returned retryResponse =>
          if negb (ok retryResponse) then
            (Thrown (Error ("QuoteMedia API error after retry: " ++
                            pretty (status retryResponse) ++ " " ++
                            statusText retryResponse)), s2)
          else
            match json retryResponse with
            | Thrown e => (Thrown e, s2)
            | Returned retryData => (processQuoteMediaResponse retryData, s2)
            end
      end
  end.

(** The outer [catch], and the answer of [processQuoteMediaResponse]. *)
Definition settle (res : outcome (list value * value)) : reply :=
  match res with
  | Returned (quotes, symbolCount) => Quotes quotes symbolCount
  | Thrown e => ServerError (message e)
  end.

Definition GET (symbolsParam : option string) (s : state) : reply * state :=
  let symbols := requested symbolsParam in
  let '(res, w1) := getQuoteMediaSid E N (auth s) in
  let s1 := {| auth := w1; asked := asked s |} in
  match res with
  | Thrown _ => (Unauthorized, s1)
  | Returned sid =>
      let '(res, s2) := fetch_quotes (snap symbols sid) s1 in
      match res with
      | Thrown e => (ServerError (message e), s2)
      | Returned response =>
          if negb (ok response) then
            if (status response =? 401) || (status response =? 403) then
              let '(res, s3) :=
                retry symbols {| auth := clearCachedSid (auth s2); asked := asked s2 |} in
              match res with
              | Returned _ => (settle res, s3)
              | Thrown retryError =>
                  (ServerError (RETRY_FAILED ++ error_string retryError), s3)
              end
            else
              (ServerError ("QuoteMedia API error: " ++ pretty (status response) ++ " " ++
                            statusText response), s2)
          else
            match json response with
            | Thrown e => (ServerError (message e), s2)
            | Returned data => (settle (processQuoteMediaResponse data), s2)
            end
      end
  end.

End Route.

(** The fields of a quote that hold a number of the response. *)
Definition numeric_fields : list string :=
  ["price"; "close"; "change"; "changePercent"; "open"; "high"; "low"; "previousClose";
   "volume"; "tradeVolume"; "lastTradeSize"; "bid"; "ask"; "bidSize"; "askSize";
   "lastSize"; "delayMinutes"; "imbalanceSize"].

(** The fields of a quote that name its exchange or its market. *)
Definition label_fields : list string :=
  ["datatype"; "exchange"; "exchangeLongName"; "exchangeShortName"; "exchangeLong";
   "lastMarketId"; "bidMarketId"; "askMarketId"; "marketCap"; "sharesOutstanding"].

(** What holds of every quote the route answers with. *)
Definition consistent (quote : value) : Prop :=
  (forall k, In k numeric_fields -> truthy quote.[k] = true \/ quote.[k] = Zero) /\
  (forall k, In k label_fields -> truthy quote.[k] = true) /\
  quote.["marketStatus"] =
    Str (if truthy quote.["isCurrentlyOpen"] then "open" else "closed") /\
  quote.["lastSize"] = quote.["lastTradeSize"].

Lemma or_truthy a b : truthy b = true -> truthy (a ||| b) = true.
Proof. unfold or. destruct (truthy a) eqn:Ha; auto. Qed.

Lemma or_default a b : truthy (a ||| b) = true \/ a ||| b = b.
Proof. unfold or. destruct (truthy a) eqn:Ha; auto. Qed.

Lemma or_assoc a b c : a ||| (b ||| c) = a ||| b ||| c.
Proof.
  unfold or. destruct (truthy a) eqn:Ha; [rewrite Ha; reflexivity |].
  destruct (truthy b); reflexivity.
Qed.

Lemma truthy_or_false a : truthy (a ||| Bool false) = truthy a.
Proof. unfold or. destruct (truthy a) eqn:Ha; [exact Ha | reflexivity]. Qed.

Lemma map_outcome_returned {A B : Type} (f : A -> outcome B) items :
  forall results,
    QuoteMediaProxy.map_outcome f items = Returned results ->
    Forall2 (fun x y => f x = Returned y) items results.
Proof.
  induction items as [| x items IH]; simpl; intros results H.
  - injection H as <-. constructor.
  - destruct (f x) as [y | e] eqn:Hx; [| discriminate].
    destruct (QuoteMediaProxy.map_outcome f items) as [ys | e]; [| discriminate].
    injection H as <-. constructor; [exact Hx | apply IH; reflexivity].
Qed.

Section Facts.

Variable E : env.
Variable N : network.
Variable F : feed.
Variable multiply : value -> value -> value.
Variable now : string.

Lemma normalize_consistent quoteItem quote :
  normalize multiply now quoteItem = Returned quote -> consistent quote.
Proof.
  unfold normalize. intros H.
  destruct quoteItem; try discriminate;
    match type of H with
    | context [match ?p with _ => _ end] => destruct p
    end; try discriminate; injection H as <-;
    (split; [| split; [| split]]);
    try reflexivity;
    try (cbn [get_opt JS.get JS.assoc String.eqb Ascii.eqb Bool.eqb];
         rewrite truthy_or_false; reflexivity);
    intros k Hk; simpl in Hk;
    repeat (destruct Hk as [<- | Hk];
            [first [apply or_default | repeat apply or_truthy; reflexivity] |]);
    contradiction.
Qed.

(** X20.  When [processQuoteMediaResponse] returns, the response held an
    array of quote items and the answer has one quote for each: in every quote
    a numeric field is a truthy value or the number 0, never missing; the
    exchange and market labels are never empty; the market status reads open
    exactly when the open flag is truthy; and the last size is the last trade
    size. *)
Theorem processed_quotes_are_consistent (data : value) (quotes : list value)
    (symbolCount : value) :
  processQuoteMediaResponse multiply now data = Returned (quotes, symbolCount) ->
  exists items,
    data.["quotedata"] = Arr items /\
    List.length quotes = List.length items /\
    Forall consistent quotes /\
    symbolCount = data.["symbolcount"].
Proof.
  unfold processQuoteMediaResponse, get_or_throw, get_opt. intros H.
  destruct (JS.get data "quotedata") as [quotedata |]; [| discriminate].
  destruct quotedata as [| | b | n | t | items | fields]; try discriminate.
  destruct (QuoteMediaProxy.map_outcome (normalize multiply now) items)
    as [results | e] eqn:Hmap; [| discriminate].
  injection H as <- <-. exists items.
  apply map_outcome_returned in Hmap.
  split; [reflexivity |]. split; [symmetry; exact (Forall2_length _ _ _ Hmap) |].
  split; [| reflexivity].
  induction Hmap as [| x y xs ys Hxy Hrest IH]; constructor; [| exact IH].
  exact (normalize_consistent x y Hxy).
Qed.






End Facts.

(** A quote service that turns the first session down and answers the
    second. *)
Definition msft : value :=
  Obj [("symbol", Str "MSFT"); ("exchange", Str "NGS"); ("iscurrentlyopen", Bool true);
       ("pricedata", Obj [("last", Num (Fin 410.5)); ("sharevolume", Num (Fin 1200))])].

Definition snap_data : value :=
  Obj [("symbolcount", Num (Fin 1)); ("quotedata", Arr [msft])].


(** The product of two numbers; the route multiplies nothing else here. *)
Definition times (a b : value) : value :=
  match a, b with
  | Num (Fin x), Num (Fin y) => Num (Fin (Qred (x * y)))
  | _, _ => Num NaN
  end.

Lemma processed_quotes_are_consistent_witness :
  exists items,
    snap_data.["quotedata"] = Arr items /\
    List.length
      (fst (match processQuoteMediaResponse times "2026-01-05T14:30:00.000Z" snap_data with
            | Returned r => r
            | Thrown _ => ([], Undefined)
            end)) = List.length items /\
    Forall consistent
      (fst (match processQuoteMediaResponse times "2026-01-05T14:30:00.000Z" snap_data with
            | Returned r => r
            | Thrown _ => ([], Undefined)
            end)) /\
    Num (Fin 1) = snap_data.["symbolcount"].
Proof.
  apply (processed_quotes_are_consistent times "2026-01-05T14:30:00.000Z" snap_data).
  reflexivity.
Defined.


End RealtimeQuotes.

(** ** The token route: [GET] of [api/get-token] *)

Module TokenRoute.

Import JS QuoteMediaAuth.
Local Open Scope Z_scope.

(** The answers of the route: status 200 and 500. *)
Inductive reply : Type :=
  | Served (token : value) (expiresIn : Z)
  | Failed (details : string).

Section Route.

Variable E : env.
Variable N : network.

Definition GET (w : world) : reply * world :=
  let '(res, w') := generateDataToolToken E N w in
  match res with
  | Returned dataToolToken => (Served dataToolToken (30 * 60 * 1000), w')
  | Thrown e => (Failed (message e), w')
  end.

(** X23.  A token the route serves is truthy and is the cached one, and
    the lifetime the answer announces is the cache's TTL: asked again at
    once, the route serves the same token and sends nothing.  The clock reads
    a time after the epoch and no request takes a negative time. *)
Theorem served_token_is_cached (w w' : world) (token : value) (expiresIn : Z) :
  network_wf N ->
  0 <= clock w ->
  GET w = (Served token expiresIn, w') ->
  truthy token = true /\
  expiresIn = TOKEN_TTL /\
  GET w' = (Served token expiresIn, w').
Proof.
  intros HN Hclock. unfold GET.
  destruct (generateDataToolToken E N w) as [[t | e] w1] eqn:Hgen; [| discriminate].
  intros H. injection H as <- <- <-.
  assert (Hhit : hit Token w1 = true /\ cachedDataToolToken (module w1) = t).
  { revert Hgen. unfold generateDataToolToken, hit.
    destruct (live (cachedDataToolToken (module w)) (tokenExpiration (module w)) (clock w))
      eqn:Hlive.
    - intros H. injection H as <- <-. simpl. auto.
    - pose proof (getQuoteMediaSid_clock E N w HN) as Hmono.
      destruct (getQuoteMediaSid E N w) as [[sid | e] w0]; [| discriminate].
      simpl in Hmono. unfold fetch.
      pose proof (HN (sent w0)) as Hlat.
      repeat case_call; intros H; inversion H; subst; clear H. simpl.
      split; [| reflexivity]. unfold live.
      match goal with
      | Hneg : negb (truthy t) = false |- _ => apply negb_false_iff in Hneg; rewrite Hneg
      end.
      simpl.
      match goal with
      | |- context [latency N (sent w0) ?r] => specialize (Hlat r)
      end.
      unfold TOKEN_TTL. apply andb_true_intro. split.
      + apply negb_true_iff, Z.eqb_neq. lia.
      + apply Z.ltb_lt. lia. }
  destruct Hhit as [Hhit Hcached].
  unfold hit in Hhit. simpl in Hhit.
  split; [| split; [reflexivity |]].
  - unfold live in Hhit. rewrite <- Hcached.
    destruct (truthy (cachedDataToolToken (module w1))); [reflexivity | discriminate].
  - unfold generateDataToolToken. rewrite Hhit, Hcached. reflexivity.
Qed.

End Route.

Lemma served_token_is_cached_witness :
  truthy (Str "t1") = true /\
  30 * 60 * 1000 = TOKEN_TTL /\
  GET demo_env demo_network demo_world = (Served (Str "t1") (30 * 60 * 1000), demo_world).
Proof.
  apply (served_token_is_cached demo_env demo_network (initial 1000) demo_world
           (Str "t1") (30 * 60 * 1000)).
  - intros history r. simpl. lia.
  - simpl. lia.
  - reflexivity.
Defined.

End TokenRoute.

(** ** The probe route as a whole: [GET] of [api/market-data-api] *)

Module MarketDataRoute.

Import JS MarketDataApi.

(** The answers of the route: status 200, 401 and 500. *)
Inductive reply : Type :=
  | Answer (a : answer)
  | TokenFailed (details : string)
  | InternalError (message : string).

(** The TypeError of [const { wmid, tmxSessionId } = authData.authentication]
    on [undefined] and [null]. *)
Definition DestructureError (v : value) : error :=
  mkError "TypeError"
    ("Cannot destructure property 'wmid' of 'authData.authentication' as it is " ++
     match v with Null => "null" | _ => "undefined" end ++ ".").

(** The TypeError of [tmxSessionId.substring(0, 10)] on a value that is no
    string. *)
Definition SubstringError (tmxSessionId : value) : error :=
  match tmxSessionId with
  | Undefined | Null => TypeError tmxSessionId "substring"
  | _ => mkError "TypeError" "tmxSessionId.substring is not a function"
  end.

Section Route.

Variable JSON_parse : string -> outcome value.
Variable respond : list request -> request -> fetched.
Variable E : QuoteMediaAuth.env.
Variable N : QuoteMediaAuth.network.

(** The conversion of a value to a string in a template literal and in
    [URLSearchParams]. *)
Variable to_string : value -> string.

(** The answer after the loop, which reads [tmxSessionId.substring]. *)
Definition conclude (tmxSessionId : value) (a : answer) : reply :=
  match a, tmxSessionId with
  | NoDirectAccess _, Str _ => Answer a
  | NoDirectAccess _, _ => InternalError (message (SubstringError tmxSessionId))
  | _, _ => Answer a
  end.

(** [authData] is what [await realtimeResponse.json()] gives, or the
    exception of that step or of the request before it. *)
Definition GET (symbolsParam : option string) (authData : outcome value)
    (w : QuoteMediaAuth.world) (sent : list request)
    : reply * QuoteMediaAuth.world * list request :=
  let symbols := RealtimeQuotes.param_or symbolsParam "AAPL" in
  match authData with
  | Thrown e => (InternalError (message e), w, sent)
  | Returned authData =>
      match get_or_throw authData "success" with
      | Thrown e => (InternalError (message e), w, sent)
      | Returned success =>
          if negb (truthy success) then (InternalError "Authentication failed", w, sent)
          else
            let authentication := get_opt authData "authentication" in
            match authentication with
            | Undefined | Null =>
                (InternalError (message (DestructureError authentication)), w, sent)
            | _ =>
                let wmid := get_opt authentication "wmid" in
                let tmxSessionId := get_opt authentication "tmxSessionId" in
                let '(res, w') := QuoteMediaAuth.generateDataToolToken E N w in
                match res with
                | Thrown e => (TokenFailed (message e), w', sent)
                | Returned dataToolToken =>
                    let '(a, sent') :=
                      probe JSON_parse respond tmxSessionId
                        (apiEndpoints symbols (to_string wmid) (to_string dataToolToken))
                        sent in
                    (conclude tmxSessionId a, w', sent')
                end
            end
      end
  end.

End Route.


Section Facts.

Variable JSON_parse : string -> outcome value.
Variable respond : list request -> request -> fetched.





Variable E : QuoteMediaAuth.env.
Variable N : QuoteMediaAuth.network.
Variable to_string : value -> string.


End Facts.

Lemma merge_headers_from (entries : list (string * string)) :
  forall (init : gmap string string) k v,
    fold_left
      (fun headers entry =>
         if is_empty (snd entry) then headers else <[fst entry := snd entry]> headers)
      entries init !! k = Some v ->
    init !! k = Some v \/ (In (k, v) entries /\ v <> EmptyString).
Proof.
  induction entries as [| [k' v'] entries IH]; intros init k v; simpl; [auto |].
  intros H. apply IH in H. destruct H as [H | [Hin Hv]]; [| auto].
  destruct v' as [| c v']; simpl in H; [auto |].
  apply lookup_insert_Some in H. destruct H as [[<- <-] | [Hne H]]; [| auto].
  right. split; [auto | discriminate].
Qed.

(** X26.  Every header of a request the probe sends has a value that is
    not empty, and is the fixed user agent or a header of the candidate's
    entry: an entry with an empty value is left out, and nothing else is
    added. *)
Theorem request_headers_from_entry (c : config) (k v : string) :
  request_headers (request_of c) !! k = Some v ->
  v <> EmptyString /\
  ((k = "User-Agent" /\ v = USER_AGENT) \/ In (k, v) (headers c)).
Proof.
  unfold request_of, merge_headers. simpl. intros H.
  apply merge_headers_from in H. destruct H as [H | [Hin Hv]]; [| auto].
  apply lookup_singleton_Some in H. destruct H as [<- <-].
  split; [discriminate | auto].
Qed.

Lemma request_headers_from_entry_witness :
  "application/json" <> EmptyString /\
  (("Accept" = "User-Agent" /\ "application/json" = USER_AGENT) \/
   In ("Accept", "application/json")
     (headers {| url := "https://app.quotemedia.com/quotetools/getQuote.json";
                 method := "POST";
                 headers := [("Content-Type", EmptyString); ("Accept", "application/json")];
                 body := None |})).
Proof.
  apply (request_headers_from_entry
           {| url := "https://app.quotemedia.com/quotetools/getQuote.json";
              method := "POST";
              headers := [("Content-Type", EmptyString); ("Accept", "application/json")];
              body := None |} "Accept" "application/json").
  vm_compute. reflexivity.
Defined.


Definition show (v : value) : string :=
  match v with
  | Str s => s
  | Undefined => "undefined"
  | Null => "null"
  | Bool true => "true"
  | Bool false => "false"
  | _ => "[object Object]"
  end.


End MarketDataRoute.

(** ** More on the quote normalizers of the proxy *)

Module MarketStats.

Import JS RegExp QuoteMediaProxy.
Import RealtimeQuotes(or_truthy, or_default, map_outcome_returned).

Local Notation "a ||| b" := (or a b) (at level 50, left associativity).
Local Notation "v .[ k ]" := (get_opt v k) (at level 1, format "v .[ k ]").

(** An element the mapping turns into a quote: one it can read, whose
    numeric values all convert to a string. *)
Definition convertible (stock : value) : bool :=
  readable stock && forallb printable (numeric_sources stock).

(** What holds of every quote of the answer. *)
Definition sound (q : quote) : Prop :=
  truthy (symbol q) = true /\
  truthy (exchange q) = true /\
  truthy (exchangeLongName q) = true /\
  truthy (companyName q) = true /\
  truthy (shortName q) = true /\
  truthy (datatype q) = true /\
  truthy (entitlement q) = true /\
  (truthy (marketCap q) = true \/ marketCap q = Zero) /\
  (truthy (eps q) = true \/ eps q = Null) /\
  volume q = sharevolume q.

(** What holds of every record of the table path. *)
Definition clean (now : string) (q : value) : Prop :=
  exists symbol last change,
    q = Obj [("symbol", Str symbol); ("last", Num last); ("change", Num change);
             ("source", Str "TMX PowerStream"); ("timestamp", Str now)] /\
    symbol <> EmptyString /\ last <> NaN /\ change <> NaN.


Lemma transform_sound show now stock q : transform show now stock = Returned q -> sound q.
Proof.
  rewrite transform_readable.
  destruct (readable stock); [| discriminate].
  unfold converted.
  repeat step_parse show; try discriminate;
    intros H; injection H as <-;
    unfold sound;
    cbn [symbol exchange exchangeLongName companyName shortName datatype entitlement
         marketCap eps volume sharevolume];
    repeat match goal with
      | |- _ /\ _ => split
      end;
    first [ reflexivity | apply or_default | repeat apply or_truthy; reflexivity ].
Qed.



(** X28.  The quotes of the answer are as many as the elements of the
    array chosen from the response.  Every one has a truthy symbol, exchange,
    exchange name, company name, short name, data type and entitlement; its
    market capitalisation is truthy or 0 and its earnings truthy or [null];
    and its volume is its share volume. *)
Theorem quotes_are_sound (show : number -> string) (now : string) (jsonData : value)
    (qs : list quote) :
  quotes show now jsonData = Returned qs ->
  (exists items,
     marketStats jsonData = Returned (Arr items) /\
     List.length qs = List.length items) /\
  Forall sound qs.
Proof.
  unfold quotes. intros Hqs.
  destruct (marketStats jsonData) as [stats | e]; [| discriminate Hqs].
  destruct stats as [| | b | n | t | items | fields]; try discriminate Hqs.
  apply map_outcome_returned in Hqs. split.
  - exists items. split; [reflexivity |]. symmetry. exact (Forall2_length _ _ _ Hqs).
  - induction Hqs as [| x y xs ys Hxy Hrest IH]; constructor; [| exact IH].
    exact (transform_sound show now x y Hxy).
Qed.

Lemma float_or_zero_number text : float_or_zero text <> NaN.
Proof.
  unfold float_or_zero.
  destruct (parseFloat_string text) as [| negative | q]; simpl; try discriminate.
  destruct (negb (Qnum q =? 0)%Z); discriminate.
Qed.

Lemma push_row_clean now rows :
  forall quotes,
    Forall (clean now) quotes -> Forall (clean now) (fold_left (push_row now) rows quotes).
Proof.
  induction rows as [| row rows IH]; intros quotes Hquotes; [exact Hquotes |].
  simpl. apply IH. unfold push_row.
  destruct (match_all re_td row) as [| c0 [| c1 [| c2 cells]]]; try exact Hquotes.
  destruct (is_empty (cell_text c0)) eqn:Hsymbol; simpl; [exact Hquotes |].
  destruct (is_empty (cell_text c1)); simpl; [exact Hquotes |].
  apply Forall_app. split; [exact Hquotes |]. constructor; [| constructor].
  exists (cell_text c0), (float_or_zero (cell_text c1)), (float_or_zero (cell_text c2)).
  split; [reflexivity |]. split; [| split; apply float_or_zero_number].
  destruct (cell_text c0); [discriminate Hsymbol | discriminate].
Qed.

Lemma push_row_length now rows :
  forall quotes,
    (List.length (fold_left (push_row now) rows quotes) <=
     List.length quotes + List.length rows)%nat.
Proof.
  induction rows as [| row rows IH]; intros quotes; simpl; [lia |].
  specialize (IH (push_row now quotes row)).
  assert (List.length (push_row now quotes row) <= S (List.length quotes))%nat; [| lia].
  unfold push_row.
  destruct (match_all re_td row) as [| c0 [| c1 [| c2 cells]]]; try lia.
  destruct (negb (is_empty (cell_text c0)) && negb (is_empty (cell_text c1))); [| lia].
  rewrite length_app. simpl. lia.
Qed.

(** X29.  The table path reports at most one record for a table row, and
    only rows with a symbol: every record has exactly the five fields symbol,
    last, change, source and timestamp, a symbol that is not empty, and a last
    price and a change that are numbers, a cell that does not read as a number
    counting as 0. *)
Theorem table_quotes_are_clean (now htmlText : string) :
  Forall (clean now) (table_quotes now htmlText) /\
  (List.length (table_quotes now htmlText) <= List.length (match_all re_tr htmlText))%nat.
Proof.
  unfold table_quotes. split.
  - apply push_row_clean. constructor.
  - apply (push_row_length now (match_all re_tr htmlText) []).
Qed.

(** A response with a number among the stocks. *)
Definition mixed_response : value :=
  Obj [("results", Obj [("stock", Arr [Obj [("symbol", Str "TSLA")]; Num (Fin 3)])])].

(** A printer for the numbers of the examples, which are small integers. *)
Definition show_integer (n : number) : string :=
  match n with
  | NaN => "NaN"
  | Inf false => "Infinity"
  | Inf true => "-Infinity"
  | Fin q => pretty (truncate q)
  end.

Lemma quotes_are_sound_witness :
  (exists items,
     marketStats mixed_response = Returned (Arr items) /\
     List.length
       (match quotes show_integer "2026-01-05T14:30:00.000Z" mixed_response with
        | Returned qs => qs
        | Thrown _ => []
        end) = List.length items) /\
  Forall sound
    (match quotes show_integer "2026-01-05T14:30:00.000Z" mixed_response with
     | Returned qs => qs
     | Thrown _ => []
     end).
Proof.
  apply (quotes_are_sound show_integer "2026-01-05T14:30:00.000Z" mixed_response).
  reflexivity.
Defined.

Example null_stock_fails show :
  quotes show "2026-01-05T14:30:00.000Z" (Arr [Obj [("symbol", Str "TSLA")]; Null]) =
    Thrown (TypeError Null "key").
Proof. reflexivity. Qed.

Example odd_tick_fails show :
  convertible odd_tick = false /\
  quotes show "2026-01-05T14:30:00.000Z" (Arr [odd_tick]) = Thrown CANNOT_CONVERT.
Proof. split; reflexivity. Qed.

End MarketStats.
